(** * SmartSpend: the CSV codec, the reconciliation engine and the daily
    statistics, embedded from [src/services/csv.ts] and
    [src/services/logic.ts].

  Strings are JavaScript strings, that is sequences of UTF-16 code units;
  numbers are IEEE-754 binary64 values, taken from the specification of
  floating-point arithmetic of the Standard Library ([SpecFloat], precision
  53, maximal exponent 1024, a single NaN). *)

From Stdlib Require Import List ZArith NArith PArith Bool Lia Permutation.
From Stdlib Require Import Strings.String Strings.Ascii.
From Stdlib Require Import Numbers.DecimalString Numbers.DecimalNat.
From Stdlib Require Import Floats.SpecFloat.
Import ListNotations.

(** ** JavaScript strings and the built-ins the code calls on them *)

Module JsString.

(** A code unit; a string is the list of its code units. *)
Definition char := N.
Definition jsstring := list char.

(** An ASCII literal as a JavaScript string. *)
Definition lit (s : string) : jsstring :=
  map N_of_ascii (list_ascii_of_string s).

Definition QUOTE : char := 34%N.
Definition COMMA : char := 44%N.
Definition SEMI : char := 59%N.
Definition LF : char := 10%N.
Definition CR : char := 13%N.

Definition char_eqb : char -> char -> bool := N.eqb.

Fixpoint str_eqb (a b : jsstring) : bool :=
  match a, b with
  | [], [] => true
  | x :: a', y :: b' => char_eqb x y && str_eqb a' b'
  | _, _ => false
  end.

(** [WhiteSpace] and [LineTerminator] of ECMA-262: what [trim] strips. *)
Definition isWhiteSpace (c : char) : bool :=
  ((9 <=? c) && (c <=? 13) || (c =? 32) || (c =? 160) || (c =? 5760)
   || (8192 <=? c) && (c <=? 8202) || (c =? 8232) || (c =? 8233)
   || (c =? 8239) || (c =? 8287) || (c =? 12288) || (c =? 65279))%N.

Fixpoint trimStart (s : jsstring) : jsstring :=
  match s with
  | c :: r => if isWhiteSpace c then trimStart r else s
  | [] => []
  end.

Definition trimEnd (s : jsstring) : jsstring := rev (trimStart (rev s)).

(** [String.prototype.trim] *)
Definition trim (s : jsstring) : jsstring := trimEnd (trimStart s).

(** [s.includes(c)] for a one-character needle. *)
Definition includes (c : char) (s : jsstring) : bool := existsb (char_eqb c) s.

(** [s.split(sep)] for a one-character separator: never the empty array. *)
Fixpoint split (sep : char) (s : jsstring) : list jsstring :=
  match s with
  | [] => [[]]
  | c :: r =>
      if char_eqb c sep then [] :: split sep r
      else match split sep r with
           | f :: fs => (c :: f) :: fs
           | [] => [[c]]
           end
  end.

(** [s.split(/\r?\n/)]: a line feed ends a line, and a carriage return
    right before it belongs to the terminator. *)
Fixpoint splitLines (s : jsstring) : list jsstring :=
  match s with
  | [] => [[]]
  | c :: r =>
      if char_eqb c LF then [] :: splitLines r
      else if char_eqb c CR && match r with d :: _ => char_eqb d LF | [] => false end
      then match r with _ :: r' => [] :: splitLines r' | [] => [[c]] end
      else match splitLines r with
           | l :: ls => (c :: l) :: ls
           | [] => [[c]]
           end
  end.

(** [xs.join(sep)] *)
Fixpoint join (sep : jsstring) (xs : list jsstring) : jsstring :=
  match xs with
  | [] => []
  | [x] => x
  | x :: r => x ++ sep ++ join sep r
  end.

(** [xs.indexOf(x)]: the first position holding [x], or [-1]. *)
Fixpoint indexOfFrom (i : Z) (x : jsstring) (xs : list jsstring) : Z :=
  match xs with
  | [] => (-1)%Z
  | y :: r => if str_eqb y x then i else indexOfFrom (i + 1)%Z x r
  end.

Definition indexOf (x : jsstring) (xs : list jsstring) : Z := indexOfFrom 0%Z x xs.

(** [xs[i]]: [None] stands for [undefined]. *)
Definition at_index (xs : list jsstring) (i : Z) : option jsstring :=
  if (i <? 0)%Z then None else nth_error xs (Z.to_nat i).

Definition startsWith (c : char) (s : jsstring) : bool :=
  match s with d :: _ => char_eqb d c | [] => false end.

Definition endsWith (c : char) (s : jsstring) : bool := startsWith c (rev s).

(** [s.slice(1, -1)] *)
Definition slice_1_m1 (s : jsstring) : jsstring := removelast (tl s).

(** [replace] with the global pattern of one quote and a replacement of
    two quotes: every double quote is doubled. *)
Definition doubleQuotes (s : jsstring) : jsstring :=
  flat_map (fun c => if char_eqb c QUOTE then [QUOTE; QUOTE] else [c]) s.

(** [replace] with the global pattern of two quotes and a replacement of
    one: matches are taken left to right and do not overlap. *)
Fixpoint undoubleQuotes (s : jsstring) : jsstring :=
  match s with
  | [] => []
  | c :: r =>
      if char_eqb c QUOTE && startsWith QUOTE r
      then QUOTE :: match r with _ :: r' => undoubleQuotes r' | [] => [] end
      else c :: undoubleQuotes r
  end.

Definition isDigit (c : char) : bool := ((48 <=? c) && (c <=? 57))%N.

(** [s.match(/^\d{4}-\d{2}-\d{2}$/)] is not null. *)
Definition matchesDate (s : jsstring) : bool :=
  match s with
  | [y1; y2; y3; y4; h1; m1; m2; h2; d1; d2] =>
      isDigit y1 && isDigit y2 && isDigit y3 && isDigit y4
      && char_eqb h1 45%N && isDigit m1 && isDigit m2
      && char_eqb h2 45%N && isDigit d1 && isDigit d2
  | _ => false
  end.

(** The decimal text of a loop counter, as a template literal prints it. *)
Definition ofNat (n : nat) : jsstring :=
  lit (NilEmpty.string_of_uint (Nat.to_uint n)).

End JsString.

(** ** JavaScript numbers: binary64, with the conversions to and from text *)

Module JsNumber.
Import JsString.

Definition prec : Z := 53.
Definition emax : Z := 1024.

Definition number := spec_float.

Definition NaN : number := S754_nan.
Definition isNaN (x : number) : bool :=
  match x with S754_nan => true | _ => false end.
Definition isFinite (x : number) : bool :=
  match x with S754_nan | S754_infinity _ => false | _ => true end.

Definition add : number -> number -> number := SFadd prec emax.
Definition mul : number -> number -> number := SFmul prec emax.
Definition div : number -> number -> number := SFdiv prec emax.
(** [a < b], [a <= b]; [a > b] is [ltb b a] and [a >= b] is [leb b a]. *)
Definition ltb : number -> number -> bool := SFltb.
Definition leb : number -> number -> bool := SFleb.

Definition ofZ (z : Z) : number := binary_normalize prec emax z 0 false.

(** [Math.min(a, b)]: NaN if either is, and [-0] below [+0]. *)
Definition min (a b : number) : number :=
  match a, b with
  | S754_nan, _ | _, S754_nan => S754_nan
  | S754_zero sa, S754_zero sb => S754_zero (sa || sb)
  | _, _ => if ltb b a then b else a
  end.

(** The binary64 value nearest to [m * 10^e] (ties to even), with sign
    [neg]: the rounding that turns a decimal literal into a number. *)
Definition ofDecimal (neg : bool) (m : N) (e : Z) : number :=
  match m with
  | N0 => S754_zero neg
  | Npos p =>
      match e with
      | Zneg k =>
          let '(q, e', l) :=
            SFdiv_core_binary prec emax (Zpos p) 0 (Zpos (10 ^ k)) 0 in
          binary_round_aux prec emax neg q e' l
      | _ => binary_round prec emax neg (p * Z.to_pos (10 ^ e)) 0
      end
  end.

(** Longest run of decimal digits at the head of [s], with the rest. *)
Fixpoint spanDigits (s : jsstring) : jsstring * jsstring :=
  match s with
  | c :: r =>
      if isDigit c then let '(d, t) := spanDigits r in (c :: d, t)
      else ([], s)
  | [] => ([], [])
  end.

Definition digitsValue (d : jsstring) : N :=
  fold_left (fun acc c => (10 * acc + (c - 48))%N) d 0%N.

Fixpoint dropPrefix (p s : jsstring) : option jsstring :=
  match p, s with
  | [], _ => Some s
  | a :: p', b :: s' => if char_eqb a b then dropPrefix p' s' else None
  | _ :: _, [] => None
  end.

Definition takeSign (s : jsstring) : bool * jsstring :=
  match s with
  | c :: r =>
      if char_eqb c 45%N then (true, r)
      else if char_eqb c 43%N then (false, r)
      else (false, s)
  | [] => (false, s)
  end.

(** The exponent part, if the text starts with a complete one. *)
Definition exponentPart (s : jsstring) : Z :=
  match s with
  | c :: r =>
      if char_eqb c 101%N || char_eqb c 69%N then
        let '(neg, r') := takeSign r in
        let '(d, _) := spanDigits r' in
        match d with
        | [] => 0%Z
        | _ => let v := Z.of_N (digitsValue d) in if neg then (- v)%Z else v
        end
      else 0%Z
  | [] => 0%Z
  end.

(** [parseFloat(s)]: leading white space is skipped, the longest prefix that
    is a [StrDecimalLiteral] is read, anything after it is ignored, and
    NaN is the answer when there is no such prefix. *)
Definition parseFloat (s : jsstring) : number :=
  let '(neg, t) := takeSign (trimStart s) in
  match dropPrefix (lit "Infinity") t with
  | Some _ => S754_infinity neg
  | None =>
      let '(ip, r1) := spanDigits t in
      let '(fp, r2) :=
        match r1 with
        | c :: r => if char_eqb c 46%N then spanDigits r else ([], r1)
        | [] => ([], r1)
        end in
      match ip ++ fp with
      | [] => NaN
      | ds => ofDecimal neg (digitsValue ds)
                (exponentPart r2 - Z.of_nat (List.length fp))
      end
  end.

(** *** Number to text: [Number::toString] in radix 10 *)

Definition digitsOfN (n : N) : jsstring :=
  lit (NilEmpty.string_of_uint (N.to_uint n)).

(** The decimal exponent [n] of a positive rational [num / den]:
    [10^(n-1) <= num / den < 10^n]. *)
Fixpoint leadingZeros (fuel : nat) (num den : Z) : Z :=
  match fuel with
  | O => 0
  | S f => if (den <=? 10 * num)%Z then 0%Z
           else (leadingZeros f (10 * num) den + 1)%Z
  end.

Definition decimalExponent (num den : Z) : Z :=
  if (den <=? num)%Z
  then Z.of_nat (List.length (digitsOfN (Z.to_N (num / den))))
  else (- leadingZeros 400 num den)%Z.

(** [floor (num / den * 10^t)] with the remainder and the divisor. *)
Definition scaled (num den t : Z) : Z * Z * Z :=
  match t with
  | Zneg _ => let d := (den * 10 ^ (- t))%Z in (num / d, num mod d, d)%Z
  | _ => let n := (num * 10 ^ t)%Z in (n / den, n mod den, den)%Z
  end.

Definition sameNumber (a b : number) : bool :=
  match a, b with
  | S754_finite sa ma ea, S754_finite sb mb eb =>
      Bool.eqb sa sb && Pos.eqb ma mb && Z.eqb ea eb
  | _, _ => false
  end.

(** The shortest decimal [s * 10^(n-k)] that reads back as [x], by
    growing number of digits [k]; of two candidates the nearer one, and the
    even one on a tie. *)
Fixpoint shortest (fuel : nat) (k : Z) (x : number) (num den n : Z)
  : Z * Z * Z :=
  match fuel with
  | O => (0, 0, 0)%Z
  | S f =>
      let '(lo, r, d) := scaled num den (k - n) in
      let hi := (lo + 1)%Z in
      let okLo := sameNumber (ofDecimal false (Z.to_N lo) (n - k)) x in
      let okHi := sameNumber (ofDecimal false (Z.to_N hi) (n - k)) x in
      let up := if (hi =? 10 ^ k)%Z then (10 ^ (k - 1), n + 1, k)%Z
                else (hi, n, k) in
      if okLo && okHi then
        match (2 * r ?= d)%Z with
        | Lt => (lo, n, k)
        | Gt => up
        | Eq => if Z.even lo then (lo, n, k) else up
        end
      else if okLo then (lo, n, k)
      else if okHi then up
      else shortest f (k + 1)%Z x num den n
  end.

Definition zeros (n : Z) : jsstring := repeat 48%N (Z.to_nat n).

Definition formatDecimal (s n k : Z) : jsstring :=
  let ds := digitsOfN (Z.to_N s) in
  if ((k <=? n) && (n <=? 21))%Z then ds ++ zeros (n - k)
  else if ((0 <? n) && (n <=? 21))%Z then
    firstn (Z.to_nat n) ds ++ [46%N] ++ skipn (Z.to_nat n) ds
  else if ((-6 <? n) && (n <=? 0))%Z then
    lit "0." ++ zeros (- n) ++ ds
  else
    let e := (n - 1)%Z in
    let es := (if (e <? 0)%Z then [45%N] else [43%N])
                ++ digitsOfN (Z.to_N (Z.abs e)) in
    match ds with
    | [] => []
    | d1 :: rest =>
        match rest with
        | [] => [d1] ++ [101%N] ++ es
        | _ => [d1] ++ [46%N] ++ rest ++ [101%N] ++ es
        end
    end.

(** What a template literal prints for a number. *)
Definition toString (x : number) : jsstring :=
  match x with
  | S754_nan => lit "NaN"
  | S754_zero _ => lit "0"
  | S754_infinity s => (if s then [45%N] else []) ++ lit "Infinity"
  | S754_finite s m e =>
      let '(num, den) :=
        match e with
        | Zneg p => (Zpos m, 2 ^ Zpos p)%Z
        | _ => (Zpos m * 2 ^ e, 1)%Z
        end in
      let n := decimalExponent num den in
      let '(d, n', k) := shortest 17 1 (S754_finite false m e) num den n in
      (if s then [45%N] else []) ++ formatDecimal d n' k
  end.

End JsNumber.

(** ** The expense record ([src/types.ts]) *)

Module Model.
Import JsString JsNumber.

Record Expense := {
  id : jsstring;
  amount : number;
  date : jsstring;
  category : jsstring;
  description : jsstring;
  tags : list jsstring
}.

End Model.

(** ** The CSV codec ([src/services/csv.ts]) *)

Module Csv.
Import JsString JsNumber Model.

Definition requiredCols : list string :=
  ["id"; "date"; "amount"; "category"; "description"; "tags"]%string.

(** The [headers] array of the encoder. *)
Definition headerCols : list jsstring := map lit requiredCols.

(** The description as it is written: wrapped and with its quotes doubled
    when it holds a comma or a quote. *)
Definition escapeDescription (d : jsstring) : jsstring :=
  if includes COMMA d || includes QUOTE d
  then [QUOTE] ++ doubleQuotes d ++ [QUOTE]
  else d.

Definition csvRow (e : Expense) : jsstring :=
  let tags := join [SEMI] e.(tags) in
  let desc := escapeDescription e.(description) in
  e.(id) ++ [COMMA] ++ e.(date) ++ [COMMA] ++ toString e.(amount) ++ [COMMA]
    ++ e.(category) ++ [COMMA] ++ desc ++ [COMMA] ++ tags.

Definition generateCSVString (expenses : list Expense) : jsstring :=
  join [LF] (join [COMMA] headerCols :: map csvRow expenses).

(** *** Decoding *)

Record ImportResult := {
  expenses : list Expense;
  errors : list jsstring
}.

(** The state of the scanner over one line. *)
Record Scan := {
  parts : list jsstring;
  current : jsstring;
  inQuotes : bool
}.

Definition scanChar (st : Scan) (c : char) : Scan :=
  if char_eqb c QUOTE then
    {| parts := st.(parts); current := st.(current);
       inQuotes := negb st.(inQuotes) |}
  else if char_eqb c COMMA && negb st.(inQuotes) then
    {| parts := st.(parts) ++ [st.(current)]; current := [];
       inQuotes := st.(inQuotes) |}
  else
    {| parts := st.(parts); current := st.(current) ++ [c];
       inQuotes := st.(inQuotes) |}.

Definition scanLine (line : jsstring) : Scan :=
  fold_left scanChar line {| parts := []; current := []; inQuotes := false |}.

(** The fields of a line: the scanner's parts and the last [current]. *)
Definition splitRow (line : jsstring) : list jsstring :=
  let st := scanLine line in st.(parts) ++ [st.(current)].

(** What the [try] block of a row ends with: a record, or a thrown error
    with its message. *)
Inductive Outcome (A : Type) :=
| Ok (a : A)
| Throw (message : jsstring).
Arguments Ok {A} a.
Arguments Throw {A} message.

Definition bind {A B} (o : Outcome A) (k : A -> Outcome B) : Outcome B :=
  match o with
  | Ok a => k a
  | Throw m => Throw m
  end.

Notation "x <- o ;; k" := (bind o (fun x => k))
  (at level 61, o at next level, right associativity).

(** The message of the TypeError that calling [trim] on [undefined] throws. *)
Definition undefinedTrim : jsstring :=
  lit "Cannot read properties of undefined (reading 'trim')".

(** [parts[i].trim()] *)
Definition trimAt (ps : list jsstring) (i : Z) : Outcome jsstring :=
  match at_index ps i with
  | Some s => Ok (trim s)
  | None => Throw undefinedTrim
  end.

(** [parts[i] ? parts[i].trim() : ''] *)
Definition trimAtOrEmpty (ps : list jsstring) (i : Z) : jsstring :=
  match at_index ps i with
  | Some ((_ :: _) as s) => trim s
  | _ => []
  end.

Definition isEmpty (s : jsstring) : bool :=
  match s with [] => true | _ => false end.

(** [idx[col]]: the position of a column name in the header. *)
Definition idx (headers : list jsstring) (col : string) : Z :=
  indexOf (lit col) headers.

Definition unescapeDescription (d : jsstring) : jsstring :=
  if startsWith QUOTE d && endsWith QUOTE d
  then undoubleQuotes (slice_1_m1 d)
  else d.

Definition parseTags (tagsStr : jsstring) : list jsstring :=
  match tagsStr with
  | [] => []
  | _ => filter (fun t => negb (isEmpty t)) (map trim (split SEMI tagsStr))
  end.

(** The body of the [try] block. *)
Definition parseRow (headers ps : list jsstring) : Outcome Expense :=
  id <- trimAt ps (idx headers "id") ;;
  date <- trimAt ps (idx headers "date") ;;
  amountStr <- trimAt ps (idx headers "amount") ;;
  category <- trimAt ps (idx headers "category") ;;
  let description := trimAtOrEmpty ps (idx headers "description") in
  let tagsStr := trimAtOrEmpty ps (idx headers "tags") in
  if isEmpty id then Throw (lit "Missing ID")
  else if negb (matchesDate date)
  then Throw (lit "Invalid Date format (YYYY-MM-DD required)")
  else
    let amount := parseFloat amountStr in
    if isNaN amount then Throw (lit "Invalid Amount")
    else
      Ok {| id := id;
            date := date;
            amount := amount;
            category := if isEmpty category then lit "Uncategorized"
                        else category;
            description := unescapeDescription description;
            tags := parseTags tagsStr |}.

(** [`Line ${i + 1}: ${message}`] *)
Definition lineError (i : nat) (message : jsstring) : jsstring :=
  lit "Line " ++ ofNat (i + 1) ++ lit ": " ++ message.

(** What the loop body does with one line: [continue] on an empty line,
    a record pushed, or a problem pushed. *)
Inductive RowResult :=
| Skipped
| Accepted (e : Expense)
| Rejected (reason : jsstring).

Definition decodeLine (headers : list jsstring) (raw : jsstring) : RowResult :=
  let line := trim raw in
  if isEmpty line then Skipped
  else
    let ps := splitRow line in
    if (List.length ps <? List.length headers)%nat
    then Rejected (lit "Insufficient columns")
    else
      match parseRow headers ps with
      | Ok e => Accepted e
      | Throw m => Rejected m
      end.

(** One turn of the loop over the lines, at index [i]. *)
Definition stepLine (headers lines : list jsstring)
           (acc : ImportResult) (i : nat) : ImportResult :=
  match decodeLine headers (nth i lines []) with
  | Skipped => acc
  | Accepted e =>
      {| expenses := acc.(expenses) ++ [e]; errors := acc.(errors) |}
  | Rejected m =>
      {| expenses := acc.(expenses);
         errors := acc.(errors) ++ [lineError i m] |}
  end.

Definition emptyFile : jsstring := lit "File is empty or missing headers".

Definition missingColumns : jsstring :=
  lit "Missing required columns: " ++ join (lit ", ") headerCols.

(** Some required column has position [-1]. *)
Definition anyMissing (headers : list jsstring) : bool :=
  existsb (fun col => (idx headers col =? -1)%Z) requiredCols.

(** The cells of the header line. *)
Definition headerOf (lines : list jsstring) : list jsstring :=
  split COMMA (trim (nth 0 lines [])).

Definition importExpenses (csvText : jsstring) : ImportResult :=
  let lines := splitLines csvText in
  if (List.length lines <? 2)%nat then
    {| expenses := []; errors := [emptyFile] |}
  else
    let headers := headerOf lines in
    if anyMissing headers then
      {| expenses := []; errors := [missingColumns] |}
    else
      fold_left (stepLine headers lines)
                (seq 1 (List.length lines - 1))
                {| expenses := []; errors := [] |}.

(** *** The filtering wrapper *)

Record ParseResult := {
  newExpenses : list Expense;
  count : nat;
  errorCount : nat
}.

(** [parseCSV]: the decoded records whose id is not among the existing
    ones, how many they are, and how many problems the decode reported. The
    set of existing ids is asked by membership only. *)
Definition parseCSV (csvText : jsstring) (existingExpenses : list Expense)
  : ParseResult :=
  let r := importExpenses csvText in
  let existingIds := map id existingExpenses in
  let fresh :=
    filter (fun e => negb (existsb (str_eqb e.(id)) existingIds))
           r.(expenses) in
  {| newExpenses := fresh;
     count := List.length fresh;
     errorCount := List.length r.(errors) |}.

End Csv.

(** ** Reconciliation and daily statistics ([src/services/logic.ts]) *)

Module Logic.
Import JsString JsNumber Model.

Record DailyStats := {
  todaySpend : number;
  isOverLimit : bool;
  isNearLimit : bool;
  limitPercentage : number
}.

Definition zero : number := ofZ 0.

Definition spendOn (expenses : list Expense) (dateStr : jsstring) : number :=
  fold_left (fun sum e => add sum e.(amount))
            (filter (fun e => str_eqb e.(date) dateStr) expenses)
            zero.

(** The percentage before it is capped. *)
Definition rawPercentage (todaySpend dailyLimit : number) : number :=
  if ltb zero dailyLimit
  then mul (div todaySpend dailyLimit) (ofZ 100)
  else zero.

Definition calculateDailyStats (expenses : list Expense)
           (dateStr : jsstring) (dailyLimit : number) : DailyStats :=
  let todaySpend := spendOn expenses dateStr in
  let limitPercentage := rawPercentage todaySpend dailyLimit in
  {| todaySpend := todaySpend;
     isOverLimit := ltb dailyLimit todaySpend;
     isNearLimit := leb todaySpend dailyLimit && leb (ofZ 80) limitPercentage;
     limitPercentage := JsNumber.min limitPercentage (ofZ 100) |}.

(** A JavaScript [Map] keyed by id: its entries in insertion order. *)
Definition JsMap := list (jsstring * Expense).

Definition has (k : jsstring) (m : JsMap) : bool :=
  existsb (fun kv => str_eqb (fst kv) k) m.

(** [map.set(k, v)]: the value of an existing key is replaced where the key
    stands, a new key goes to the end. *)
Fixpoint set (k : jsstring) (v : Expense) (m : JsMap) : JsMap :=
  match m with
  | [] => [(k, v)]
  | (k', v') :: r =>
      if str_eqb k' k then (k', v) :: r else (k', v') :: set k v r
  end.

Definition values (m : JsMap) : list Expense := List.map snd m.

Record MergeStats := {
  added : nat;
  updated : nat;
  skipped : nat
}.

Record MergeResult := {
  merged : list Expense;
  stats : MergeStats
}.

(** The map and the two counters while the incoming records are applied. *)
Record MergeState := {
  entries : JsMap;
  nAdded : nat;
  nUpdated : nat
}.

Definition loadCurrent (current : list Expense) : JsMap :=
  fold_left (fun m e => set e.(id) e m) current [].

Definition applyIncoming (st : MergeState) (inc : Expense) : MergeState :=
  let '(a, u) :=
    if has inc.(id) st.(entries)
    then (st.(nAdded), S st.(nUpdated))
    else (S st.(nAdded), st.(nUpdated)) in
  {| entries := set inc.(id) inc st.(entries); nAdded := a; nUpdated := u |}.

Definition mergeExpenses (current incoming : list Expense) : MergeResult :=
  let st := fold_left applyIncoming incoming
              {| entries := loadCurrent current; nAdded := 0; nUpdated := 0 |} in
  {| merged := values st.(entries);
     stats := {| added := st.(nAdded); updated := st.(nUpdated); skipped := 0 |} |}.

(** *** The list operations of the application *)

(** Prepends the new expense. *)
Definition addExpenseToList (currentExpenses : list Expense)
           (newExpense : Expense) : list Expense :=
  newExpense :: currentExpenses.

(** Drops every expense with the given id. *)
Definition deleteExpenseFromList (currentExpenses : list Expense)
           (target : jsstring) : list Expense :=
  filter (fun e => negb (str_eqb e.(id) target)) currentExpenses.

(** Puts the updated expense where an expense has its id. *)
Definition editExpenseInList (currentExpenses : list Expense)
           (updatedExpense : Expense) : list Expense :=
  map (fun e => if str_eqb e.(id) updatedExpense.(id) then updatedExpense
                else e)
      currentExpenses.

End Logic.

(** ** The category breakdown of the charts ([src/components/Charts.tsx]) *)

Module Charts.
Import JsString JsNumber Model.

Record ExpenseCategory := {
  catId : jsstring;
  name : jsstring;
  color : jsstring;
  icon : jsstring
}.

(** A [Map] from category names to numbers: its entries in insertion
    order. *)
Definition TotalsMap := list (jsstring * number).

(** [map.get(k)]: [None] stands for [undefined]. *)
Fixpoint get (k : jsstring) (m : TotalsMap) : option number :=
  match m with
  | [] => None
  | (k', v) :: r => if str_eqb k' k then Some v else get k r
  end.

Fixpoint set (k : jsstring) (v : number) (m : TotalsMap) : TotalsMap :=
  match m with
  | [] => [(k, v)]
  | (k', v') :: r =>
      if str_eqb k' k then (k', v) :: r else (k', v') :: set k v r
  end.

(** [v || 0]: [undefined], NaN and both zeros give way to [0]. *)
Definition orZero (v : option number) : number :=
  match v with
  | None | Some S754_nan | Some (S754_zero _) => S754_zero false
  | Some x => x
  end.

(** One turn of the loop: the amount goes on top of what the map holds for
    the category of the record. *)
Definition addUnder (m : TotalsMap) (e : Expense) : TotalsMap :=
  set e.(category) (add (orZero (get e.(category) m)) e.(amount)) m.

(** The loop that sums the amounts under their category. *)
Definition categoryTotals (expenses : list Expense) : TotalsMap :=
  fold_left addUnder expenses [].

Record Slice := {
  sliceName : jsstring;
  sliceValue : number;
  sliceColor : jsstring
}.

Definition defaultColor : jsstring := lit "#9CA3AF".

(** [categoryData]: one slice per entry of the map, coloured after the
    first category of that name, grey when there is none. *)
Definition categoryData (expenses : list Expense)
           (categories : list ExpenseCategory) : list Slice :=
  map (fun kv =>
         {| sliceName := fst kv;
            sliceValue := snd kv;
            sliceColor :=
              match find (fun c => str_eqb c.(name) (fst kv)) categories with
              | Some c => c.(color)
              | None => defaultColor
              end |})
      (categoryTotals expenses).

End Charts.

(** ** The expense form ([src/components/ExpenseForm.tsx]) and the saving
      of what it submits ([src/App.tsx]) *)

Module Form.
Import JsString JsNumber Model Logic.

(** The texts of the form's inputs. *)
Record FormData := {
  fAmount : jsstring;
  fDate : jsstring;
  fCategory : jsstring;
  fDescription : jsstring;
  fTags : jsstring
}.

(** The form as it is loaded from the record that is edited. *)
Definition loadForm (initialData : Expense) : FormData :=
  {| fAmount := toString initialData.(amount);
     fDate := initialData.(date);
     fCategory := initialData.(category);
     fDescription := initialData.(description);
     fTags := join (lit ", ") initialData.(tags) |}.

(** What the form hands to [onSave]: an expense whose id may be missing. *)
Record ExpenseData := {
  dataId : option jsstring;
  dataAmount : number;
  dataDate : jsstring;
  dataCategory : jsstring;
  dataDescription : jsstring;
  dataTags : list jsstring
}.

Definition handleSubmit (initialData : option Expense) (formData : FormData)
  : ExpenseData :=
  {| dataId := option_map id initialData;
     dataAmount := parseFloat formData.(fAmount);
     dataDate := formData.(fDate);
     dataCategory := formData.(fCategory);
     dataDescription := formData.(fDescription);
     dataTags :=
       filter (fun t => match t with [] => false | _ => true end)
              (map trim (split COMMA formData.(fTags))) |}.

Definition withId (i : jsstring) (d : ExpenseData) : Expense :=
  {| id := i; amount := d.(dataAmount); date := d.(dataDate);
     category := d.(dataCategory); description := d.(dataDescription);
     tags := d.(dataTags) |}.

(** [handleSaveExpense]: an id that is there and not empty means an edit,
    anything else an addition under a new id, [uuid] standing for what
    [crypto.randomUUID()] returns. *)
Definition handleSaveExpense (prev : list Expense) (expenseData : ExpenseData)
           (uuid : jsstring) : list Expense :=
  match expenseData.(dataId) with
  | Some ((_ :: _) as i) => editExpenseInList prev (withId i expenseData)
  | _ => addExpenseToList prev (withId uuid expenseData)
  end.

End Form.

(** ** Vocabulary of the statements, and the inputs they are tried on *)

Module Props.
Import JsString JsNumber Model Csv Logic.

Definition mkExpense (i d : string) (a : Z) (c ds : string)
           (ts : list string) : Expense :=
  {| id := lit i; date := lit d; amount := ofZ a; category := lit c;
     description := lit ds; tags := map lit ts |}.

(** The [sampleExpenses] of the repository's test suite. *)
Definition sampleExpenses : list Expense :=
  [ mkExpense "1" "2023-10-25" 50 "Food" "Groceries" ["home"%string];
    mkExpense "2" "2023-10-25" 30 "Transport" "Gas" [];
    mkExpense "3" "2023-10-24" 100 "Housing" "Rent" ["bill"%string] ].

(** The first record of a collection with a given id. *)
Definition findById (k : jsstring) (xs : list Expense) : option Expense :=
  find (fun e => str_eqb e.(id) k) xs.

Definition hasId (k : jsstring) (xs : list Expense) : bool :=
  existsb (fun e => str_eqb e.(id) k) xs.

(** Every record with the id of [inc] replaced by [inc], in place. *)
Definition overwrite (inc : Expense) (xs : list Expense) : list Expense :=
  map (fun e => if str_eqb e.(id) inc.(id) then inc else e) xs.

(** The entries of a map are filed under the id of their record. *)
Definition keyed (m : JsMap) : Prop :=
  Forall (fun kv => fst kv = (snd kv).(id)) m.

Definition keys (m : JsMap) : list jsstring := map fst m.

(** Records written to a map one after the other. *)
Definition setAll (xs : list Expense) (m : JsMap) : JsMap :=
  fold_left (fun m e => set e.(id) e m) xs m.

(** The state [mergeExpenses] ends its second loop in. *)
Definition mergeState (current incoming : list Expense) : MergeState :=
  fold_left applyIncoming incoming
    {| entries := loadCurrent current; nAdded := 0; nUpdated := 0 |}.

(** *** Shapes of text *)

(** The first character, if there is one, is not white space. *)
Definition headClean (s : jsstring) : bool :=
  match s with c :: _ => negb (isWhiteSpace c) | [] => true end.

(** Neither end of the text is white space: [trim] leaves it alone. *)
Definition edgeClean (s : jsstring) : bool := headClean s && headClean (rev s).

(** A field that the narrow escaping policy carries unchanged: no comma,
    no quote, no line feed, no white space at either end. *)
Definition plainField (s : jsstring) : bool :=
  negb (includes COMMA s) && negb (includes QUOTE s) && negb (includes LF s)
  && edgeClean s.

Definition tagOk (t : jsstring) : bool :=
  plainField t && negb (includes SEMI t) && negb (isEmpty t).

Definition descriptionOk (d : jsstring) : bool :=
  negb (includes QUOTE d) && negb (includes LF d) && edgeClean d.

(** What a record has to be like for the codec to give it back: plain,
    non-empty id and category, a date in the 4-2-2 pattern, an amount that
    is a number and that its own text reads back to, a description without
    quotes or line feeds, plain non-empty tags without semicolons; all
    without white space at their ends. *)
Definition roundTrips (e : Expense) : Prop :=
  plainField e.(id) = true /\ e.(id) <> []
  /\ matchesDate e.(date) = true
  /\ isNaN e.(amount) = false
  /\ parseFloat (toString e.(amount)) = e.(amount)
  /\ plainField e.(category) = true /\ e.(category) <> []
  /\ descriptionOk e.(description) = true
  /\ forallb tagOk e.(tags) = true.

(** Well-formed as the round-trip property words it: unique ids, dates in
    the 4-2-2 pattern, finite amounts. *)
Definition wellFormed (xs : list Expense) : Prop :=
  NoDup (map id xs)
  /\ Forall (fun e => matchesDate e.(date) = true
                      /\ isFinite e.(amount) = true) xs.

(** The characters [Number::toString] writes. *)
Definition numericChar (c : char) : bool :=
  isDigit c || existsb (char_eqb c) (lit "+-.eInfityNa").

(** A line that [splitLines] gives back whole: no line feed inside, no
    carriage return at its end. *)
Definition lineSafe (l : jsstring) : bool :=
  negb (includes LF l) && negb (endsWith CR l).

(** *** The rows of a decode *)

(** The record and the problem that the line at index [i] contributes. *)
Definition rowExpenses (headers lines : list jsstring) (i : nat)
  : list Expense :=
  match decodeLine headers (nth i lines []) with
  | Accepted e => [e]
  | _ => []
  end.

Definition rowErrors (headers lines : list jsstring) (i : nat)
  : list jsstring :=
  match decodeLine headers (nth i lines []) with
  | Rejected m => [lineError i m]
  | _ => []
  end.

(** The decode gave up on the whole file. *)
Definition fileLevelFailure (r : ImportResult) : Prop :=
  r.(expenses) = []
  /\ (r.(errors) = [emptyFile] \/ r.(errors) = [missingColumns]).

(** The row reaches the amount check, and fails it. *)
Definition amountIsNaN (headers : list jsstring) (raw : jsstring) : bool :=
  let line := trim raw in
  let ps := splitRow line in
  negb (isEmpty line) && (List.length headers <=? List.length ps)%nat
  && match trimAt ps (idx headers "id"), trimAt ps (idx headers "date"),
           trimAt ps (idx headers "amount"),
           trimAt ps (idx headers "category") with
     | Ok i, Ok d, Ok a, Ok _ =>
         negb (isEmpty i) && matchesDate d && isNaN (parseFloat a)
     | _, _, _, _ => false
     end.

(** The fields of a decoded record carry no white space at their ends, and
    no tag is empty. *)
Definition trimmedRecord (e : Expense) : Prop :=
  edgeClean e.(id) = true /\ edgeClean e.(date) = true
  /\ edgeClean e.(category) = true /\ edgeClean e.(description) = true
  /\ Forall (fun t => edgeClean t = true /\ t <> []) e.(tags)
  /\ exists amountStr, edgeClean amountStr = true
                       /\ e.(amount) = parseFloat amountStr.

(** The tags of a record as the encoder writes them. *)
Definition tagsText (e : Expense) : jsstring := join [SEMI] e.(tags).

(** The last character of a text. *)
Definition lastChar (s : jsstring) : option char := hd_error (rev s).

(** The record that a line contributes, if it validates. *)
Definition lineExpenses (headers : list jsstring) (raw : jsstring)
  : list Expense :=
  match decodeLine headers raw with Accepted e => [e] | _ => [] end.

(** *** Inputs the statements are tried on *)

(** A record with an empty category. *)
Definition noCategory : Expense :=
  mkExpense "1" "2023-10-25" 50 "" "Groceries" ["home"%string].

(** A record whose description is [a], a double quote, [b]. *)
Definition quoted : Expense :=
  {| id := lit "1"; date := lit "2023-10-25"; amount := ofZ 50;
     category := lit "Food"; description := [97; 34; 98]%N; tags := [] |}.

(** The line the encoder writes for [quoted]: its description is wrapped
    in quotes and its own quote is doubled. *)
Definition quotedLine : jsstring :=
  lit "1,2023-10-25,50,Food," ++ [34; 97; 34; 34; 98; 34]%N ++ lit ",".

Definition csvHeader : jsstring := lit "id,date,amount,category,description,tags".

(** A row whose amount is the text [Infinity]. *)
Definition infinityInput : jsstring :=
  csvHeader ++ [LF] ++ lit "1,2023-01-01,Infinity,Food,x,t".

Definition infinityExpense : Expense :=
  {| id := lit "1"; date := lit "2023-01-01"; amount := S754_infinity false;
     category := lit "Food"; description := lit "x"; tags := [lit "t"] |}.

(** A bad row (its amount is no number) and then a good one. *)
Definition mixedInput : jsstring :=
  csvHeader ++ [LF] ++ lit "7,2023-01-01,abc,Food,x,t"
    ++ [LF] ++ lit "99,2023-01-01,10.50,Test,Desc,tag1;tag2".

Definition goodExpense : Expense :=
  {| id := lit "99"; date := lit "2023-01-01";
     amount := parseFloat (lit "10.50"); category := lit "Test";
     description := lit "Desc"; tags := [lit "tag1"; lit "tag2"] |}.

(** The malformed header of the test suite. *)
Definition shortHeaderInput : jsstring :=
  lit "id,date,amount" ++ [LF] ++ lit "bad_line_data".

(** A row with white space around every field. *)
Definition paddedInput : jsstring :=
  csvHeader ++ [LF] ++ lit "  5 , 2023-01-01 , 12 , Food , lunch , a ; ; b  ".

Definition paddedExpense : Expense :=
  {| id := lit "5"; date := lit "2023-01-01"; amount := ofZ 12;
     category := lit "Food"; description := lit "lunch";
     tags := [lit "a"; lit "b"] |}.

(** *** Vocabulary of the further properties *)

(** The keys of a list in the order in which each is first seen. *)
Definition firstSeen (ks : list jsstring) : list jsstring :=
  fold_left (fun acc k => if existsb (fun k' => str_eqb k' k) acc then acc
                          else acc ++ [k])
            ks [].

(** An entry per record, filed under its id. *)
Definition entriesOf (xs : list Expense) : JsMap :=
  map (fun e => (e.(id), e)) xs.

(** A text with its double quotes deleted. *)
Definition removeQuotes (s : jsstring) : jsstring :=
  filter (fun c => negb (char_eqb c QUOTE)) s.

(** A record with its description replaced. *)
Definition withDescription (e : Expense) (d : jsstring) : Expense :=
  {| id := e.(id); amount := e.(amount); date := e.(date);
     category := e.(category); description := d; tags := e.(tags) |}.

(** What the decoder gives for a record: its description has lost its
    double quotes. *)
Definition decoded (e : Expense) : Expense :=
  withDescription e (removeQuotes e.(description)).

(** Like [roundTrips], but the description may hold double quotes: it is
    what is left of it without them that has to be clean at its ends. *)
Definition encodable (e : Expense) : Prop :=
  plainField e.(id) = true /\ e.(id) <> []
  /\ matchesDate e.(date) = true
  /\ isNaN e.(amount) = false
  /\ parseFloat (toString e.(amount)) = e.(amount)
  /\ plainField e.(category) = true /\ e.(category) <> []
  /\ includes LF e.(description) = false
  /\ edgeClean (removeQuotes e.(description)) = true
  /\ forallb tagOk e.(tags) = true.

(** The four reasons a row is rejected for. *)
Definition rowReasons : list jsstring :=
  [lit "Insufficient columns"; lit "Missing ID";
   lit "Invalid Date format (YYYY-MM-DD required)"; lit "Invalid Amount"].

(** The lines after the header that are not blank. *)
Definition dataLines (lines : list jsstring) : list jsstring :=
  filter (fun l => negb (isEmpty (trim l))) (tl lines).

(** The sum the category breakdown keeps for a category: the amounts are
    added one after the other, and a running sum that is NaN or zero starts
    again from [0]. *)
Definition runningTotal (amounts : list number) : option number :=
  fold_left (fun acc a => Some (add (Charts.orZero acc) a)) amounts None.

(** The trimmed field of a row under a column name; a missing field reads
    as the empty text. *)
Definition field (headers ps : list jsstring) (col : string) : jsstring :=
  match at_index ps (idx headers col) with
  | Some s => trim s
  | None => []
  end.

(** The four checks on the fields of a row, in their order, and the record
    that a row passing them gives. *)
Definition rowVerdict (headers ps : list jsstring) : RowResult :=
  if isEmpty (field headers ps "id") then Rejected (lit "Missing ID")
  else if negb (matchesDate (field headers ps "date"))
  then Rejected (lit "Invalid Date format (YYYY-MM-DD required)")
  else if isNaN (parseFloat (field headers ps "amount"))
  then Rejected (lit "Invalid Amount")
  else Accepted
         {| id := field headers ps "id";
            date := field headers ps "date";
            amount := parseFloat (field headers ps "amount");
            category := if isEmpty (field headers ps "category")
                        then lit "Uncategorized"
                        else field headers ps "category";
            description := field headers ps "description";
            tags := parseTags (field headers ps "tags") |}.

(** *** Inputs the further properties are tried on *)

(** A row with an empty id, a date out of the pattern and no number for an
    amount. *)
Definition emptyIdRow : jsstring := lit " ,2023-1-01,abc,Food,x,t".

(** The lines of [mixedInput]. *)
Definition mixedLines : list jsstring :=
  [csvHeader; lit "7,2023-01-01,abc,Food,x,t";
   lit "99,2023-01-01,10.50,Test,Desc,tag1;tag2"].

(** The fields of a good row. *)
Definition sixFields : list jsstring :=
  map lit ["99"; "2023-01-01"; "10.50"; "Test"; "Desc"; "tag1;tag2"]%string.

(** An update of the second record of [sampleExpenses]. *)
Definition gasAgain : Expense :=
  mkExpense "2" "2023-10-26" 45 "Transport" "More gas" [].

(** A tag that the form gives back: no comma, not empty, no white space at
    its ends. *)
Definition formTagOk (t : jsstring) : bool :=
  negb (includes COMMA t) && negb (isEmpty t) && edgeClean t.

(** The first field stored under a name, when names and fields are read
    side by side. *)
Fixpoint assoc (k : jsstring) (pairs : list (jsstring * jsstring))
  : option jsstring :=
  match pairs with
  | [] => None
  | (k', v) :: r => if str_eqb k' k then Some v else assoc k r
  end.

End Props.

(** ** Facts about strings *)

Module JsStringFacts.
Import JsString.

Lemma char_eqb_eq (a b : char) : char_eqb a b = true <-> a = b.
Proof. apply N.eqb_eq. Qed.

Lemma char_eqb_refl (a : char) : char_eqb a a = true.
Proof. apply N.eqb_refl. Qed.

Lemma str_eqb_eq : forall a b, str_eqb a b = true <-> a = b.
Proof.
  induction a as [|x a IH]; destruct b as [|y b]; simpl; split;
    try congruence; try reflexivity.
  - rewrite andb_true_iff, char_eqb_eq, IH. intros [-> ->]. reflexivity.
  - intros E. injection E as -> ->.
    rewrite char_eqb_refl. simpl. apply IH. reflexivity.
Qed.

Lemma str_eqb_refl (a : jsstring) : str_eqb a a = true.
Proof. apply str_eqb_eq. reflexivity. Qed.

Lemma str_eqb_neq (a b : jsstring) : str_eqb a b = false <-> a <> b.
Proof.
  rewrite <- str_eqb_eq. destruct (str_eqb a b); split; congruence.
Qed.

Lemma str_eqb_trans_l (a b c : jsstring) :
  str_eqb a b = true -> str_eqb a c = str_eqb b c.
Proof. intros E. apply str_eqb_eq in E. now subst. Qed.

End JsStringFacts.

(** ** Facts about numbers *)

Module JsNumberFacts.
Import JsNumber.

Lemma compare_cont_opp (m1 m2 : positive) :
  Pos.compare_cont Eq m2 m1 = CompOpp (Pos.compare_cont Eq m1 m2).
Proof. apply (Pos.compare_antisym m1 m2). Qed.

(** Swapping the operands of a comparison turns the answer around. *)
Lemma SFcompare_swap (a b : number) :
  SFcompare b a = option_map CompOpp (SFcompare a b).
Proof.
  destruct a as [sa|sa| |sa ma ea], b as [sb|sb| |sb mb eb]; simpl;
    try reflexivity;
    try (destruct sa; reflexivity); try (destruct sb; reflexivity);
    try (destruct sa, sb; reflexivity).
  destruct sa, sb; try reflexivity;
    rewrite (Z.compare_antisym ea eb), (compare_cont_opp ma mb);
    destruct (ea ?= eb)%Z; simpl; try reflexivity;
    destruct (Pos.compare_cont Eq ma mb); reflexivity.
Qed.

Lemma ltb_not_leb (a b : number) : ltb a b = true -> leb b a = false.
Proof.
  unfold ltb, leb, SFltb, SFleb. rewrite (SFcompare_swap a b).
  destruct (SFcompare a b) as [[| |]|]; simpl; congruence.
Qed.

Lemma SFcompare_refl (a : number) :
  SFcompare a a = Some Eq \/ SFcompare a a = None.
Proof.
  destruct a as [s|s| |s m e]; simpl; auto.
  - destruct s; auto.
  - left. rewrite Z.compare_refl.
    replace (Pos.compare_cont Eq m m) with Eq
      by (symmetry; apply Pos.compare_refl).
    destruct s; reflexivity.
Qed.

Lemma ltb_irrefl (a : number) : ltb a a = false.
Proof.
  unfold ltb, SFltb. destruct (SFcompare_refl a) as [-> | ->]; reflexivity.
Qed.

End JsNumberFacts.

(** ** The daily statistics and the reconciliation *)

Module LogicFacts.
Import JsString JsNumber Model Logic Props JsStringFacts JsNumberFacts.

(** C9: [calculateDailyStats] reports over-limit exactly when the day's
    spend is strictly above the limit (a spend equal to the limit is not
    over it), near-limit exactly when the spend is at most the limit and
    the percentage before capping is at least 80, and never both. *)
Theorem daily_flags (expenses : list Expense) (dateStr : jsstring)
        (dailyLimit : number) :
  let s := calculateDailyStats expenses dateStr dailyLimit in
  s.(todaySpend) = spendOn expenses dateStr
  /\ s.(isOverLimit) = ltb dailyLimit s.(todaySpend)
  /\ (calculateDailyStats expenses dateStr s.(todaySpend)).(isOverLimit)
     = false
  /\ s.(isNearLimit)
     = (leb s.(todaySpend) dailyLimit
        && leb (ofZ 80) (rawPercentage s.(todaySpend) dailyLimit))
  /\ s.(isOverLimit) && s.(isNearLimit) = false.
Proof.
  simpl. repeat split.
  - apply ltb_irrefl.
  - destruct (ltb dailyLimit (spendOn expenses dateStr)) eqn:Over.
    + rewrite (ltb_not_leb _ _ Over). reflexivity.
    + reflexivity.
Qed.

Lemma rawPercentage_zero_limit (spend : number) :
  rawPercentage spend (ofZ 0) = ofZ 0.
Proof. reflexivity. Qed.

(** C5: with a limit of 0 the percentage comes out as 0, whatever was
    spent, and not as the capped 100; on the records of the test suite the
    day's spend is 80, the over-limit flag is set and the percentage is 0,
    which is below 100. *)
Theorem zero_limit_percentage :
  (forall expenses dateStr,
      (calculateDailyStats expenses dateStr (ofZ 0)).(limitPercentage)
      = ofZ 0)
  /\ calculateDailyStats sampleExpenses (lit "2023-10-25") (ofZ 0)
     = {| todaySpend := ofZ 80; isOverLimit := true; isNearLimit := false;
          limitPercentage := ofZ 0 |}
  /\ ltb (ofZ 0) (ofZ 100) = true.
Proof.
  split; [|split].
  - intros expenses dateStr. unfold calculateDailyStats. simpl.
    rewrite rawPercentage_zero_limit. reflexivity.
  - vm_compute. reflexivity.
  - vm_compute. reflexivity.
Qed.

(** *** The map *)

Lemma has_keys (k : jsstring) (m : JsMap) : has k m = true <-> In k (keys m).
Proof.
  unfold has, keys. rewrite existsb_exists, in_map_iff. split.
  - intros [kv [Hin E]]. apply str_eqb_eq in E. eauto.
  - intros [kv [E Hin]]. exists kv. split; [assumption|].
    apply str_eqb_eq. assumption.
Qed.

Lemma has_values (k : jsstring) (m : JsMap) :
  keyed m -> has k m = hasId k (values m).
Proof.
  unfold has, hasId, values. induction 1 as [|[k' v] m E _ IH]; simpl.
  - reflexivity.
  - simpl in E. subst k'. rewrite IH. reflexivity.
Qed.

Lemma set_keyed (v : Expense) (m : JsMap) :
  keyed m -> keyed (set v.(id) v m).
Proof.
  induction 1 as [|[k' v'] m E Hm IH]; simpl.
  - constructor; [reflexivity | constructor].
  - destruct (str_eqb k' (id v)) eqn:Q.
    + constructor; [|assumption]. simpl. apply str_eqb_eq. assumption.
    + constructor; assumption.
Qed.

Lemma keys_set (k : jsstring) (v : Expense) (m : JsMap) :
  keys (set k v m) = if has k m then keys m else keys m ++ [k].
Proof.
  induction m as [|[k' v'] m IH]; simpl.
  - reflexivity.
  - destruct (str_eqb k' k) eqn:Q; simpl.
    + reflexivity.
    + rewrite IH. destruct (has k m); reflexivity.
Qed.

Lemma set_nodup (k : jsstring) (v : Expense) (m : JsMap) :
  NoDup (keys m) -> NoDup (keys (set k v m)).
Proof.
  intros ND. rewrite keys_set. destruct (has k m) eqn:H; [assumption|].
  apply NoDup_app; [assumption | repeat constructor; simpl; tauto |].
  intros x Hx [<- | []]. apply has_keys in Hx. congruence.
Qed.

(** An absent key goes to the end. *)
Lemma values_set_new (k : jsstring) (v : Expense) (m : JsMap) :
  has k m = false -> values (set k v m) = values m ++ [v].
Proof.
  induction m as [|[k' v'] m IH]; simpl; [reflexivity|].
  destruct (str_eqb k' k); simpl; [discriminate|].
  intros H. rewrite (IH H). reflexivity.
Qed.

(** A present key keeps its place and takes the new value. *)
Lemma values_set_old (v : Expense) (m : JsMap) :
  keyed m -> NoDup (keys m) -> has v.(id) m = true ->
  values (set v.(id) v m) = overwrite v (values m).
Proof.
  induction 1 as [|[k' v'] m E Hm IH]; simpl; [discriminate|].
  simpl in E. subst k'. intros ND H. inversion ND as [|? ? Hnotin ND']; subst.
  destruct (str_eqb (id v') (id v)) eqn:Q; simpl.
  - f_equal. apply str_eqb_eq in Q. rewrite Q in Hnotin.
    clear - Hnotin Hm. induction Hm as [|[k w] m E _ IH]; simpl.
    + reflexivity.
    + simpl in E. subst k. simpl in Hnotin.
      destruct (str_eqb (id w) (id v)) eqn:Q.
      * apply str_eqb_eq in Q. tauto.
      * f_equal. apply IH. tauto.
  - f_equal. apply IH; assumption.
Qed.

Lemma find_set (k : jsstring) (v : Expense) (m : JsMap) :
  keyed m ->
  findById k (values (set v.(id) v m))
  = if str_eqb v.(id) k
    then Some v
    else findById k (values m).
Proof.
  unfold findById.
  induction 1 as [|[k' v'] m E Hm IH]; simpl.
  - destruct (str_eqb (id v) k); reflexivity.
  - simpl in E. subst k'.
    destruct (str_eqb (id v') (id v)) eqn:Q; simpl.
    + rewrite (str_eqb_trans_l _ _ k Q).
      destruct (str_eqb (id v) k); reflexivity.
    + rewrite IH. destruct (str_eqb (id v') k) eqn:Q'; [|reflexivity].
      destruct (str_eqb (id v) k) eqn:Q''; [|reflexivity].
      apply str_eqb_eq in Q', Q''. apply str_eqb_neq in Q. congruence.
Qed.

Lemma setAll_inv (xs : list Expense) : forall m,
  keyed m -> NoDup (keys m) ->
  keyed (setAll xs m) /\ NoDup (keys (setAll xs m)).
Proof.
  induction xs as [|x xs IH]; simpl; intros m K ND; [tauto|].
  apply IH; [apply set_keyed | apply set_nodup]; assumption.
Qed.

Lemma find_app (k : jsstring) (a b : list Expense) :
  findById k (a ++ b)
  = match findById k a with Some e => Some e | None => findById k b end.
Proof.
  unfold findById. induction a as [|x a IH]; simpl; [reflexivity|].
  destruct (str_eqb (id x) k); [reflexivity | apply IH].
Qed.

(** The record a key ends with is the last one written under it. *)
Lemma find_setAll (k : jsstring) (xs : list Expense) : forall m,
  keyed m ->
  findById k (values (setAll xs m)) = findById k (rev xs ++ values m).
Proof.
  induction xs as [|x xs IH]; simpl; intros m K; [reflexivity|].
  unfold setAll in IH. rewrite IH by (apply set_keyed; assumption).
  rewrite <- app_assoc, !find_app, find_set by assumption.
  simpl. unfold findById. simpl.
  destruct (find _ (rev xs)); [reflexivity|].
  destruct (str_eqb (id x) k); reflexivity.
Qed.

Lemma entries_fold (incoming : list Expense) : forall st,
  (fold_left applyIncoming incoming st).(entries)
  = setAll incoming st.(entries).
Proof.
  induction incoming as [|x xs IH]; simpl; intros st; [reflexivity|].
  rewrite IH. unfold applyIncoming.
  destruct (has (id x) (entries st)); reflexivity.
Qed.

Lemma counters_fold (incoming : list Expense) : forall st,
  let st' := fold_left applyIncoming incoming st in
  st'.(nAdded) + st'.(nUpdated)
  = st.(nAdded) + st.(nUpdated) + List.length incoming.
Proof.
  induction incoming as [|x xs IH]; simpl; intros st; [lia|].
  rewrite IH. unfold applyIncoming.
  destruct (has (id x) (entries st)); simpl; lia.
Qed.

Lemma loadCurrent_inv (current : list Expense) :
  keyed (loadCurrent current) /\ NoDup (keys (loadCurrent current)).
Proof. apply (setAll_inv current); constructor. Qed.

Lemma mergeState_inv (current incoming : list Expense) :
  keyed (mergeState current incoming).(entries)
  /\ NoDup (keys (mergeState current incoming).(entries)).
Proof.
  unfold mergeState. rewrite entries_fold. simpl.
  destruct (loadCurrent_inv current). apply setAll_inv; assumption.
Qed.

Lemma keys_ids (m : JsMap) : keyed m -> keys m = map id (values m).
Proof.
  unfold keys, values. induction 1 as [|[k v] m E _ IH]; simpl.
  - reflexivity.
  - simpl in E. now rewrite E, IH.
Qed.

(** C6: [mergeExpenses] never skips; every incoming record is counted once,
    as an update when its id is already in the map and as an addition
    otherwise; an update overwrites the stored record where it stands and
    an addition goes to the end; the record kept under an id is the last
    incoming one with that id (the current one when no incoming record has
    it); and merging id 1 with amount 50 with an incoming id 1 with amount
    500 keeps 500, with one update and no addition. *)
Theorem merge_last_write_wins (current incoming : list Expense) :
  let r := mergeExpenses current incoming in
  r.(stats).(skipped) = 0
  /\ r.(stats).(added) + r.(stats).(updated) = List.length incoming
  /\ NoDup (map id r.(merged))
  /\ (forall k, findById k r.(merged)
                = findById k (rev incoming ++ rev current))
  /\ (forall inc,
         let r' := mergeExpenses current (incoming ++ [inc]) in
         if hasId inc.(id) r.(merged)
         then r'.(stats).(updated) = S r.(stats).(updated)
              /\ r'.(stats).(added) = r.(stats).(added)
              /\ r'.(merged) = overwrite inc r.(merged)
         else r'.(stats).(added) = S r.(stats).(added)
              /\ r'.(stats).(updated) = r.(stats).(updated)
              /\ r'.(merged) = r.(merged) ++ [inc])
  /\ (let old := mkExpense "1" "2023-10-25" 50 "Food" "Groceries" [] in
      let new := mkExpense "1" "2023-10-25" 500 "Changed" "Modified" [] in
      mergeExpenses [old] [new]
      = {| merged := [new];
           stats := {| added := 0; updated := 1; skipped := 0 |} |}).
Proof.
  destruct (mergeState_inv current incoming) as [K ND].
  cbv zeta. unfold mergeExpenses. fold (mergeState current incoming). simpl.
  split; [reflexivity|]. split; [|split; [|split; [|split]]].
  - unfold mergeState. rewrite counters_fold. reflexivity.
  - rewrite <- keys_ids; assumption.
  - intros k. unfold mergeState. rewrite entries_fold. simpl.
    rewrite find_setAll by apply loadCurrent_inv.
    rewrite !find_app. destruct (findById k (rev incoming)); [reflexivity|].
    unfold loadCurrent. fold (setAll current []).
    rewrite find_setAll by constructor. simpl. now rewrite app_nil_r.
  - intros inc. rewrite fold_left_app. fold (mergeState current incoming).
    simpl. unfold applyIncoming.
    rewrite <- (has_values _ _ K).
    destruct (has (id inc) (entries (mergeState current incoming))) eqn:H;
      simpl; repeat split.
    + apply values_set_old; assumption.
    + apply values_set_new; assumption.
  - vm_compute. reflexivity.
Qed.

End LogicFacts.

(** ** Facts about trimming, splitting and joining *)

Module TextFacts.
Import JsString Props JsStringFacts.

Lemma char_eqb_sym (a b : char) : char_eqb a b = char_eqb b a.
Proof. apply N.eqb_sym. Qed.

Lemma includes_app (c : char) (a b : jsstring) :
  includes c (a ++ b) = includes c a || includes c b.
Proof. apply existsb_app. Qed.

Lemma includes_cons (c d : char) (s : jsstring) :
  includes c (d :: s) = char_eqb c d || includes c s.
Proof. reflexivity. Qed.

Lemma includes_In (c : char) (s : jsstring) : includes c s = true <-> In c s.
Proof.
  unfold includes. rewrite existsb_exists. split.
  - intros [x [Hin E]]. apply char_eqb_eq in E. now subst.
  - intros Hin. exists c. split; [assumption | apply char_eqb_refl].
Qed.

Lemma includes_rev (c : char) (s : jsstring) :
  includes c (rev s) = includes c s.
Proof.
  destruct (includes c s) eqn:E.
  - apply includes_In. apply in_rev. rewrite rev_involutive.
    now apply includes_In.
  - destruct (includes c (rev s)) eqn:E'; [|reflexivity].
    apply includes_In, in_rev, includes_In in E'. congruence.
Qed.

(** *** Trimming *)

Lemma trimStart_suffix (s : jsstring) : exists w, s = w ++ trimStart s.
Proof.
  induction s as [|c s [w IH]]; simpl.
  - now exists [].
  - destruct (isWhiteSpace c).
    + exists (c :: w). simpl. now f_equal.
    + now exists [].
Qed.

Lemma trimStart_headClean (s : jsstring) : headClean (trimStart s) = true.
Proof.
  induction s as [|c s IH]; simpl; [reflexivity|].
  destruct (isWhiteSpace c) eqn:W; [assumption|]. simpl. now rewrite W.
Qed.

Lemma trimStart_id (s : jsstring) : headClean s = true -> trimStart s = s.
Proof.
  destruct s as [|c s]; simpl; [reflexivity|].
  destruct (isWhiteSpace c); [discriminate | reflexivity].
Qed.

Lemma trimEnd_prefix (s : jsstring) : exists w, s = trimEnd s ++ w.
Proof.
  unfold trimEnd. destruct (trimStart_suffix (rev s)) as [w E].
  exists (rev w). rewrite <- rev_app_distr, <- E. now rewrite rev_involutive.
Qed.

Lemma headClean_app (a b : jsstring) :
  a <> [] -> headClean (a ++ b) = headClean a.
Proof. destruct a; [congruence | reflexivity]. Qed.

Lemma trim_id (s : jsstring) : edgeClean s = true -> trim s = s.
Proof.
  unfold edgeClean, trim, trimEnd. rewrite andb_true_iff. intros [H T].
  rewrite (trimStart_id _ H), (trimStart_id _ T). apply rev_involutive.
Qed.

Lemma trim_edgeClean (s : jsstring) : edgeClean (trim s) = true.
Proof.
  unfold edgeClean, trim. apply andb_true_iff. split.
  - destruct (trimEnd_prefix (trimStart s)) as [w E].
    destruct (trimEnd (trimStart s)) as [|c t] eqn:Q; [reflexivity|].
    rewrite <- (headClean_app (c :: t) w) by discriminate.
    rewrite <- E. apply trimStart_headClean.
  - unfold trimEnd. rewrite rev_involutive. apply trimStart_headClean.
Qed.

Lemma includes_trimStart (c : char) (s : jsstring) :
  includes c s = false -> includes c (trimStart s) = false.
Proof.
  destruct (trimStart_suffix s) as [w E]. intros H. rewrite E in H.
  rewrite includes_app in H. now apply orb_false_iff in H.
Qed.

Lemma includes_trim (c : char) (s : jsstring) :
  includes c s = false -> includes c (trim s) = false.
Proof.
  intros H. unfold trim, trimEnd. rewrite includes_rev.
  apply includes_trimStart. rewrite includes_rev.
  now apply includes_trimStart.
Qed.

Lemma trim_nil : trim [] = [].
Proof. reflexivity. Qed.

(** A text without white space anywhere is clean at its ends. *)
Lemma edgeClean_forallb (s : jsstring) :
  forallb (fun c => negb (isWhiteSpace c)) s = true -> edgeClean s = true.
Proof.
  intros H. rewrite forallb_forall in H. unfold edgeClean.
  apply andb_true_iff. split.
  - destruct s as [|c s]; [reflexivity|]. apply H. now left.
  - destruct (rev s) as [|c t] eqn:Q; [reflexivity|]. apply H.
    apply in_rev. rewrite Q. now left.
Qed.

(** *** Splitting at a character *)

Lemma split_none (sep : char) (s : jsstring) :
  includes sep s = false -> split sep s = [s].
Proof.
  induction s as [|c s IH]; simpl; [reflexivity|].
  rewrite orb_false_iff. intros [E H]. rewrite char_eqb_sym, E.
  now rewrite (IH H).
Qed.

Lemma split_app (sep : char) (a r : jsstring) :
  includes sep a = false -> split sep (a ++ sep :: r) = a :: split sep r.
Proof.
  induction a as [|c a IH]; simpl.
  - intros _. now rewrite char_eqb_refl.
  - rewrite orb_false_iff. intros [E H]. rewrite char_eqb_sym, E.
    now rewrite (IH H).
Qed.

Lemma split_join (sep : char) (ts : list jsstring) : forall t,
  forallb (fun x => negb (includes sep x)) (t :: ts) = true ->
  split sep (join [sep] (t :: ts)) = t :: ts.
Proof.
  induction ts as [|t2 ts IH]; intros t H.
  - simpl in *. apply split_none.
    rewrite andb_true_r in H. now apply negb_true_iff.
  - change (join [sep] (t :: t2 :: ts))
      with (t ++ sep :: join [sep] (t2 :: ts)).
    apply andb_true_iff in H as [Ht H]. apply negb_true_iff in Ht.
    rewrite (split_app _ _ _ Ht). f_equal. apply IH. exact H.
Qed.

(** *** Splitting into lines *)

Lemma splitLines_single (l : jsstring) :
  includes LF l = false -> splitLines l = [l].
Proof.
  induction l as [|c l IH]; [reflexivity|].
  rewrite includes_cons, orb_false_iff. intros [E H].
  cbn [splitLines]. rewrite char_eqb_sym, E.
  replace (match l with d :: _ => char_eqb d LF | [] => false end)
    with false.
  - rewrite andb_false_r, (IH H). reflexivity.
  - destruct l as [|d l]; [reflexivity|].
    rewrite includes_cons in H. apply orb_false_iff in H as [H _].
    now rewrite char_eqb_sym.
Qed.

Lemma endsWith_cons (c d : char) (l : jsstring) :
  endsWith c (d :: l) = match l with [] => char_eqb d c | _ => endsWith c l end.
Proof.
  unfold endsWith. simpl. destruct l as [|x l]; [reflexivity|].
  simpl. destruct (rev l ++ [x]) eqn:Q; [|reflexivity].
  now destruct (rev l).
Qed.

Lemma lineSafe_cons (c : char) (l : jsstring) :
  lineSafe (c :: l) = true ->
  char_eqb c LF = false /\ lineSafe l = true
  /\ (l = [] -> char_eqb c CR = false).
Proof.
  unfold lineSafe. rewrite includes_cons, endsWith_cons, andb_true_iff,
    !negb_true_iff, orb_false_iff.
  intros [[E H] T]. rewrite char_eqb_sym in E. repeat split.
  - exact E.
  - rewrite H. destruct l; [reflexivity | now rewrite T].
  - intros ->. exact T.
Qed.

Lemma splitLines_app (l r : jsstring) :
  lineSafe l = true -> splitLines (l ++ LF :: r) = l :: splitLines r.
Proof.
  induction l as [|c l IH]; intros S; [reflexivity|].
  apply lineSafe_cons in S as (E & Sl & Last).
  change ((c :: l) ++ LF :: r) with (c :: (l ++ LF :: r)).
  cbn [splitLines]. rewrite E.
  replace (char_eqb c CR
           && match l ++ LF :: r with d :: _ => char_eqb d LF | [] => false end)
    with false.
  - now rewrite (IH Sl).
  - symmetry. destruct l as [|d l].
    + now rewrite Last.
    + apply lineSafe_cons in Sl as (Ed & _). simpl. rewrite Ed.
      apply andb_false_r.
Qed.

Lemma splitLines_join (ls : list jsstring) : forall l,
  forallb lineSafe (l :: ls) = true ->
  splitLines (join [LF] (l :: ls)) = l :: ls.
Proof.
  induction ls as [|l2 ls IH]; intros l H.
  - simpl in *. rewrite andb_true_r in H. apply splitLines_single.
    unfold lineSafe in H. apply andb_true_iff in H as [H _].
    now apply negb_true_iff.
  - change (join [LF] (l :: l2 :: ls)) with (l ++ LF :: join [LF] (l2 :: ls)).
    apply andb_true_iff in H as [Hl H].
    rewrite (splitLines_app _ _ Hl). f_equal. apply IH. exact H.
Qed.

Lemma splitLines_nonempty (s : jsstring) : splitLines s <> [].
Proof.
  destruct s as [|c r]; cbn [splitLines]; [discriminate|].
  destruct (char_eqb c LF); [discriminate|].
  destruct (char_eqb c CR && _).
  - destruct r; discriminate.
  - destruct (splitLines r); discriminate.
Qed.

(** *** Looking a name up in the header *)

Lemma indexOfFrom_spec (x : jsstring) (xs : list jsstring) : forall i,
  (0 <= i)%Z ->
  (In x xs ->
     (i <= indexOfFrom i x xs < i + Z.of_nat (List.length xs))%Z
     /\ nth_error xs (Z.to_nat (indexOfFrom i x xs - i)) = Some x)
  /\ (~ In x xs -> indexOfFrom i x xs = (-1)%Z).
Proof.
  induction xs as [|y xs IH]; intros i Hi; simpl.
  - split; [tauto | reflexivity].
  - destruct (str_eqb y x) eqn:Q.
    + apply str_eqb_eq in Q. subst y. split; [|tauto].
      intros _. rewrite Z.sub_diag. simpl. split; [lia | reflexivity].
    + apply str_eqb_neq in Q.
      destruct (IH (i + 1)%Z ltac:(lia)) as [Hin Hout]. split.
      * intros [E | Hx]; [congruence|]. destruct (Hin Hx) as [B N].
        split; [lia|].
        replace (Z.to_nat (indexOfFrom (i + 1) x xs - i))
          with (S (Z.to_nat (indexOfFrom (i + 1) x xs - (i + 1)))) by lia.
        exact N.
      * intros Hn. apply Hout. tauto.
Qed.

Lemma indexOf_missing (x : jsstring) (xs : list jsstring) :
  indexOf x xs = (-1)%Z <-> ~ In x xs.
Proof.
  unfold indexOf. destruct (indexOfFrom_spec x xs 0%Z ltac:(lia)) as [Hin Hout].
  split; [|exact Hout].
  intros E Hx. destruct (Hin Hx) as [B _]. lia.
Qed.

Lemma indexOf_found (x : jsstring) (xs : list jsstring) :
  In x xs ->
  (0 <= indexOf x xs < Z.of_nat (List.length xs))%Z
  /\ at_index xs (indexOf x xs) = Some x.
Proof.
  unfold indexOf, at_index. intros Hx.
  destruct (indexOfFrom_spec x xs 0%Z ltac:(lia)) as [Hin _].
  destruct (Hin Hx) as [B N]. rewrite Z.sub_0_r in N. split; [lia|].
  destruct (indexOfFrom 0 x xs <? 0)%Z eqn:L; [lia | exact N].
Qed.

End TextFacts.

(** ** The scanner that splits a line into fields *)

Module ScanFacts.
Import JsString Model Csv Props JsStringFacts TextFacts.

Lemma scanChar_quote (st : Scan) :
  scanChar st QUOTE
  = {| parts := st.(parts); current := st.(current);
       inQuotes := negb st.(inQuotes) |}.
Proof. reflexivity. Qed.

Lemma scanChar_comma (st : Scan) :
  st.(inQuotes) = false ->
  scanChar st COMMA
  = {| parts := st.(parts) ++ [st.(current)]; current := [];
       inQuotes := false |}.
Proof. unfold scanChar. simpl. now intros ->. Qed.

(** Characters that are neither a quote nor a separating comma pile up in
    [current]. *)
Lemma scan_chars (f : jsstring) : forall st,
  includes QUOTE f = false ->
  st.(inQuotes) = true \/ includes COMMA f = false ->
  fold_left scanChar f st
  = {| parts := st.(parts); current := st.(current) ++ f;
       inQuotes := st.(inQuotes) |}.
Proof.
  induction f as [|c f IH]; intros st NQ NC; simpl.
  - rewrite app_nil_r. now destruct st.
  - rewrite includes_cons in NQ. apply orb_false_iff in NQ as [Eq NQ].
    rewrite char_eqb_sym in Eq.
    assert (Step : scanChar st c
                   = {| parts := st.(parts); current := st.(current) ++ [c];
                        inQuotes := st.(inQuotes) |}).
    { unfold scanChar. rewrite Eq. destruct NC as [Q | NC].
      - rewrite Q. now rewrite andb_false_r.
      - rewrite includes_cons in NC. apply orb_false_iff in NC as [Ec _].
        rewrite char_eqb_sym in Ec. now rewrite Ec. }
    rewrite Step, IH; simpl.
    + now rewrite <- app_assoc.
    + exact NQ.
    + destruct NC as [Q | NC]; [now left | right].
      rewrite includes_cons in NC. now apply orb_false_iff in NC.
Qed.

(** A plain field and the comma after it close one part. *)
Lemma scan_field (f rest : jsstring) (st : Scan) :
  includes QUOTE f = false -> includes COMMA f = false ->
  st.(inQuotes) = false ->
  fold_left scanChar (f ++ COMMA :: rest) st
  = fold_left scanChar rest
      {| parts := st.(parts) ++ [st.(current) ++ f]; current := [];
         inQuotes := false |}.
Proof.
  intros NQ NC Q. rewrite fold_left_app, (scan_chars f st NQ (or_intror NC)).
  simpl. rewrite scanChar_comma by exact Q. reflexivity.
Qed.

(** So does a description written by the encoder, wrapped or not, as long
    as it holds no quote of its own. *)
Lemma scan_description (d rest : jsstring) (st : Scan) :
  includes QUOTE d = false -> st.(inQuotes) = false ->
  fold_left scanChar (escapeDescription d ++ COMMA :: rest) st
  = fold_left scanChar rest
      {| parts := st.(parts) ++ [st.(current) ++ d]; current := [];
         inQuotes := false |}.
Proof.
  intros NQ Q. unfold escapeDescription. rewrite NQ, orb_false_r.
  destruct (includes COMMA d) eqn:NC.
  - assert (D : doubleQuotes d = d).
    { clear - NQ. induction d as [|c d IH]; [reflexivity|].
      rewrite includes_cons in NQ. apply orb_false_iff in NQ as [E NQ].
      simpl. rewrite char_eqb_sym, E. simpl. now rewrite (IH NQ). }
    rewrite D. destruct st as [ps cur q]. simpl in Q. subst q.
    simpl. rewrite scanChar_quote, fold_left_app. simpl.
    rewrite fold_left_app.
    rewrite (scan_chars d {| parts := ps; current := cur; inQuotes := true |}
               NQ (or_introl eq_refl)).
    simpl. rewrite scanChar_quote. simpl.
    rewrite scanChar_comma by reflexivity. reflexivity.
  - apply scan_field; assumption.
Qed.

(** No part ever holds a double quote: the scanner consumes every one. *)
Lemma scan_no_quote (line : jsstring) : forall st,
  Forall (fun p => includes QUOTE p = false) st.(parts) ->
  includes QUOTE st.(current) = false ->
  let st' := fold_left scanChar line st in
  Forall (fun p => includes QUOTE p = false) st'.(parts)
  /\ includes QUOTE st'.(current) = false.
Proof.
  induction line as [|c line IH]; intros st P C; simpl; [tauto|].
  apply IH; unfold scanChar.
  - destruct (char_eqb c QUOTE); [exact P|].
    destruct (char_eqb c COMMA && negb (inQuotes st)); simpl; [|exact P].
    apply Forall_app. split; [exact P | now constructor].
  - destruct (char_eqb c QUOTE) eqn:E; [exact C|].
    destruct (char_eqb c COMMA && negb (inQuotes st)); simpl; [reflexivity|].
    rewrite includes_app, C, includes_cons, char_eqb_sym, E. reflexivity.
Qed.

Lemma splitRow_no_quote (line : jsstring) :
  Forall (fun p => includes QUOTE p = false) (splitRow line).
Proof.
  unfold splitRow, scanLine.
  destruct (scan_no_quote line {| parts := []; current := []; inQuotes := false |})
    as [P C]; simpl; [constructor | reflexivity |].
  apply Forall_app. split; [exact P | now constructor].
Qed.

End ScanFacts.

(** ** The decoder *)

Module CsvFacts.
Import JsString JsNumber Model Csv Props JsStringFacts TextFacts ScanFacts.

(** *** The loop over the lines *)

Lemma loop_spec (headers lines : list jsstring) (rows : list nat) :
  forall acc,
    let r := fold_left (stepLine headers lines) rows acc in
    r.(expenses) = acc.(expenses) ++ flat_map (rowExpenses headers lines) rows
    /\ r.(errors) = acc.(errors) ++ flat_map (rowErrors headers lines) rows.
Proof.
  induction rows as [|i rows IH]; intros acc; simpl.
  - now rewrite !app_nil_r.
  - destruct (IH (stepLine headers lines acc i)) as [E R].
    rewrite E, R. unfold stepLine, rowExpenses, rowErrors.
    destruct (decodeLine headers (nth i lines [])); simpl;
      rewrite <- ?app_assoc; simpl; rewrite ?app_nil_r; now split.
Qed.

Lemma import_valid (csvText : jsstring) :
  2 <= List.length (splitLines csvText) ->
  anyMissing (headerOf (splitLines csvText)) = false ->
  let lines := splitLines csvText in
  let r := importExpenses csvText in
  r.(expenses)
  = flat_map (rowExpenses (headerOf lines) lines)
             (seq 1 (List.length lines - 1))
  /\ r.(errors)
     = flat_map (rowErrors (headerOf lines) lines)
                (seq 1 (List.length lines - 1)).
Proof.
  intros Len Hdr. cbv zeta. unfold importExpenses.
  destruct (Nat.ltb_spec (List.length (splitLines csvText)) 2) as [L|_]; [lia|].
  rewrite Hdr. apply (loop_spec _ _ _ {| expenses := []; errors := [] |}).
Qed.

(** Every record of a decode is the record accepted from one of its lines. *)
Lemma accepted_rows (csvText : jsstring) (e : Expense) :
  In e (importExpenses csvText).(expenses) ->
  exists headers raw, decodeLine headers raw = Accepted e.
Proof.
  unfold importExpenses.
  destruct (List.length (splitLines csvText) <? 2); [intros []|].
  destruct (anyMissing (headerOf (splitLines csvText))); [intros []|].
  destruct (loop_spec (headerOf (splitLines csvText)) (splitLines csvText)
              (seq 1 (List.length (splitLines csvText) - 1))
              {| expenses := []; errors := [] |}) as [E _].
  rewrite E. simpl. rewrite in_flat_map. intros [i [_ Hin]].
  exists (headerOf (splitLines csvText)), (nth i (splitLines csvText) []).
  unfold rowExpenses in Hin.
  destruct (decodeLine _ _); simpl in Hin; try tauto.
  destruct Hin as [-> | []]. reflexivity.
Qed.

(** Every problem of a decode that got past the header names a line. *)
Lemma rejected_rows (headers lines : list jsstring) (rows : list nat)
      (m : jsstring) :
  In m (flat_map (rowErrors headers lines) rows) ->
  exists i reason, m = lineError i reason.
Proof.
  rewrite in_flat_map. intros [i [_ Hin]]. unfold rowErrors in Hin.
  destruct (decodeLine _ _) as [| |reason]; simpl in Hin; try tauto.
  destruct Hin as [<- | []]. eauto.
Qed.

(** A rejected line leaves its problem, under its number counted from 1. *)
Lemma rejected_line_reported (csvText : jsstring) (n : nat)
      (reason : jsstring) :
  let lines := splitLines csvText in
  2 <= List.length lines -> anyMissing (headerOf lines) = false ->
  2 <= n <= List.length lines ->
  decodeLine (headerOf lines) (nth (n - 1) lines []) = Rejected reason ->
  In (lit "Line " ++ ofNat n ++ lit ": " ++ reason)
     (importExpenses csvText).(errors).
Proof.
  intros lines Len Hdr Hn D. subst lines.
  destruct (import_valid csvText Len Hdr) as [_ R]. rewrite R.
  apply in_flat_map. exists (n - 1). split; [apply in_seq; lia|].
  unfold rowErrors. rewrite D. left. unfold lineError.
  now replace (n - 1 + 1) with n by lia.
Qed.

(** C8: past the header check, the records returned are exactly the rows
    that validate and the problems exactly the rows that do not, both in
    the order of the lines; so a bad line stops nothing: the line numbered
    [n] (counting from 1) that is rejected for a reason leaves the problem
    [Line n: reason], and every line that validates leaves its record. *)
Theorem partial_success (csvText : jsstring) :
  let lines := splitLines csvText in
  let headers := headerOf lines in
  let r := importExpenses csvText in
  2 <= List.length lines -> anyMissing headers = false ->
  r.(expenses)
  = flat_map (rowExpenses headers lines) (seq 1 (List.length lines - 1))
  /\ r.(errors)
     = flat_map (rowErrors headers lines) (seq 1 (List.length lines - 1))
  /\ (forall n, 2 <= n <= List.length lines ->
        match decodeLine headers (nth (n - 1) lines []) with
        | Accepted e => In e r.(expenses)
        | Rejected reason =>
            In (lit "Line " ++ ofNat n ++ lit ": " ++ reason) r.(errors)
        | Skipped => True
        end).
Proof.
  intros lines headers r Len Hdr.
  destruct (import_valid csvText Len Hdr) as [E R].
  fold lines headers r in E, R. split; [exact E|]. split; [exact R|].
  intros n Hn.
  assert (Hseq : In (n - 1) (seq 1 (List.length lines - 1)))
    by (apply in_seq; lia).
  destruct (decodeLine headers (nth (n - 1) lines [])) as [|e|reason] eqn:D.
  - exact I.
  - rewrite E. apply in_flat_map. exists (n - 1). split; [exact Hseq|].
    unfold rowExpenses. rewrite D. now left.
  - exact (rejected_line_reported csvText n reason Len Hdr Hn D).
Qed.

(** *** The header *)

Lemma anyMissing_spec (headers : list jsstring) :
  anyMissing headers = true
  <-> exists col, In col requiredCols /\ ~ In (lit col) headers.
Proof.
  unfold anyMissing. rewrite existsb_exists.
  split; intros [col [Hin H]]; exists col; split; try exact Hin.
  - apply Z.eqb_eq in H. now apply indexOf_missing.
  - apply Z.eqb_eq. now apply indexOf_missing.
Qed.

Lemma anyMissing_perm (h h' : list jsstring) :
  Permutation h h' -> anyMissing h' = anyMissing h.
Proof.
  intros P.
  assert (Fwd : forall a b, Permutation a b ->
                            anyMissing a = true -> anyMissing b = true).
  { intros a b Pab. rewrite !anyMissing_spec. intros [col [Hin H]].
    exists col. split; [exact Hin|]. intros Hb. apply H.
    apply (Permutation_in _ (Permutation_sym Pab) Hb). }
  destruct (anyMissing h) eqn:A.
  - apply (Fwd _ _ P A).
  - destruct (anyMissing h') eqn:B; [|reflexivity].
    rewrite (Fwd _ _ (Permutation_sym P) B) in A. discriminate.
Qed.

Lemma lineError_not_file_level (i : nat) (reason : jsstring) :
  lineError i reason <> emptyFile /\ lineError i reason <> missingColumns.
Proof. split; discriminate. Qed.

(** C7: the decode gives up on the whole file (no record and the single
    problem [File is empty or missing headers] or [Missing required
    columns: ...]) exactly when the text has fewer than two lines or the
    header lacks one of the six required names; a name that is in the
    header is found where it stands, so the answer does not depend on the
    order of the header's cells. *)
Theorem wholesale_failure (csvText : jsstring) :
  let lines := splitLines csvText in
  let headers := headerOf lines in
  (fileLevelFailure (importExpenses csvText)
   <-> (List.length lines < 2
        \/ exists col, In col requiredCols /\ ~ In (lit col) headers))
  /\ (forall col, In col requiredCols -> In (lit col) headers ->
        at_index headers (idx headers col) = Some (lit col))
  /\ (forall headers', Permutation headers headers' ->
        anyMissing headers' = anyMissing headers).
Proof.
  intros lines headers. split; [|split].
  - unfold importExpenses, fileLevelFailure. fold lines headers.
    destruct (Nat.ltb_spec (List.length lines) 2) as [L|L]; simpl.
    + split; [now left | auto].
    + destruct (anyMissing headers) eqn:A; simpl.
      * split; [|auto]. intros _. right. now apply anyMissing_spec.
      * destruct (loop_spec headers lines (seq 1 (List.length lines - 1))
                    {| expenses := []; errors := [] |}) as [_ R].
        rewrite R. simpl. split.
        -- intros [_ [F | F]];
             destruct (rejected_rows headers lines
                         (seq 1 (List.length lines - 1))
                         (hd [] (flat_map (rowErrors headers lines)
                                   (seq 1 (List.length lines - 1)))))
               as (i & reason & Q);
             try (rewrite F; now left);
             rewrite F in Q; simpl in Q;
             destruct (lineError_not_file_level i reason); congruence.
        -- intros [Lt | Miss]; [lia|].
           apply anyMissing_spec in Miss. congruence.
  - intros col _ Hin. unfold idx. now apply indexOf_found.
  - intros headers' P. now apply anyMissing_perm.
Qed.

(** *** One row *)

Lemma trimAt_ok (ps : list jsstring) (i : Z) (s : jsstring) :
  trimAt ps i = Ok s -> exists raw, In raw ps /\ s = trim raw.
Proof.
  unfold trimAt, at_index. destruct (i <? 0)%Z; [discriminate|].
  destruct (nth_error ps (Z.to_nat i)) as [raw|] eqn:N; [|discriminate].
  intros E. injection E as <-. exists raw. split; [|reflexivity].
  eapply nth_error_In. exact N.
Qed.

Lemma trimAtOrEmpty_cases (ps : list jsstring) (i : Z) :
  trimAtOrEmpty ps i = []
  \/ exists raw, In raw ps /\ trimAtOrEmpty ps i = trim raw.
Proof.
  unfold trimAtOrEmpty, at_index. destruct (i <? 0)%Z; [now left|].
  destruct (nth_error ps (Z.to_nat i)) as [[|c raw]|] eqn:N; try now left.
  right. exists (c :: raw). split; [|reflexivity].
  eapply nth_error_In. exact N.
Qed.

(** What a row that validates is made of. *)
Lemma parseRow_ok (headers ps : list jsstring) (e : Expense) :
  parseRow headers ps = Ok e ->
  exists i d a c,
    trimAt ps (idx headers "id") = Ok i
    /\ trimAt ps (idx headers "date") = Ok d
    /\ trimAt ps (idx headers "amount") = Ok a
    /\ trimAt ps (idx headers "category") = Ok c
    /\ isEmpty i = false /\ matchesDate d = true
    /\ isNaN (parseFloat a) = false
    /\ e = {| id := i; date := d; amount := parseFloat a;
              category := if isEmpty c then lit "Uncategorized" else c;
              description :=
                unescapeDescription
                  (trimAtOrEmpty ps (idx headers "description"));
              tags := parseTags (trimAtOrEmpty ps (idx headers "tags")) |}.
Proof.
  unfold parseRow, bind.
  destruct (trimAt ps (idx headers "id")) as [i|]; [|discriminate].
  destruct (trimAt ps (idx headers "date")) as [d|]; [|discriminate].
  destruct (trimAt ps (idx headers "amount")) as [a|]; [|discriminate].
  destruct (trimAt ps (idx headers "category")) as [c|]; [|discriminate].
  destruct (isEmpty i) eqn:Ei; [discriminate|].
  destruct (matchesDate d) eqn:Md; [|discriminate]. simpl.
  destruct (isNaN (parseFloat a)) eqn:Na; [discriminate|].
  intros E. injection E as <-. exists i, d, a, c. repeat split; assumption.
Qed.

Lemma decodeLine_accepted (headers : list jsstring) (raw : jsstring)
      (e : Expense) :
  decodeLine headers raw = Accepted e ->
  parseRow headers (splitRow (trim raw)) = Ok e.
Proof.
  unfold decodeLine. destruct (isEmpty (trim raw)); [discriminate|].
  destruct (_ <? _); [discriminate|].
  destruct (parseRow headers (splitRow (trim raw))); [|discriminate].
  intros E. now injection E as ->.
Qed.

Lemma startsWith_includes (c : char) (s : jsstring) :
  includes c s = false -> startsWith c s = false.
Proof.
  destruct s as [|d s]; [reflexivity|]. rewrite includes_cons.
  intros H. apply orb_false_iff in H as [H _]. simpl.
  now rewrite char_eqb_sym.
Qed.

(** The unescaping step finds nothing to do on a field without quotes. *)
Lemma unescapeDescription_id (d : jsstring) :
  includes QUOTE d = false -> unescapeDescription d = d.
Proof.
  intros H. unfold unescapeDescription.
  now rewrite (startsWith_includes _ _ H).
Qed.

Lemma trimmed_part_no_quote (line raw : jsstring) :
  In raw (splitRow line) -> includes QUOTE (trim raw) = false.
Proof.
  intros Hin. apply includes_trim.
  pose proof (splitRow_no_quote line) as F. rewrite Forall_forall in F.
  now apply F.
Qed.

(** The description of a decoded row is the trimmed field itself: quotes
    never reach the unescaping step. *)
Lemma description_of_row (headers : list jsstring) (line : jsstring) :
  let d := trimAtOrEmpty (splitRow line) (idx headers "description") in
  unescapeDescription d = d /\ edgeClean d = true
  /\ includes QUOTE d = false.
Proof.
  cbv zeta.
  destruct (trimAtOrEmpty_cases (splitRow line) (idx headers "description"))
    as [-> | (raw & Hin & ->)].
  - repeat split.
  - pose proof (trimmed_part_no_quote _ _ Hin) as NQ.
    split; [now apply unescapeDescription_id|].
    split; [apply trim_edgeClean | exact NQ].
Qed.

Lemma parseTags_trimmed (s : jsstring) :
  Forall (fun t => edgeClean t = true /\ t <> []) (parseTags s).
Proof.
  unfold parseTags. destruct s as [|c s]; [constructor|].
  apply Forall_forall. intros t Hin.
  apply filter_In in Hin as [Hin Ne]. apply in_map_iff in Hin as (u & <- & _).
  split; [apply trim_edgeClean|]. intros E. rewrite E in Ne. discriminate.
Qed.

Lemma accepted_trimmed (headers : list jsstring) (raw : jsstring)
      (e : Expense) :
  decodeLine headers raw = Accepted e -> trimmedRecord e.
Proof.
  intros D. apply decodeLine_accepted, parseRow_ok in D.
  destruct D as (i & d & a & c & Hi & Hd & Ha & Hc & _ & _ & _ & ->).
  apply trimAt_ok in Hi as (ri & _ & ->). apply trimAt_ok in Hd as (rd & _ & ->).
  apply trimAt_ok in Ha as (ra & _ & ->). apply trimAt_ok in Hc as (rc & _ & ->).
  unfold trimmedRecord. simpl.
  destruct (description_of_row headers (trim raw)) as (U & C & _).
  repeat split; try apply trim_edgeClean.
  - destruct (isEmpty (trim rc)); [reflexivity | apply trim_edgeClean].
  - rewrite U. exact C.
  - apply parseTags_trimmed.
  - exists (trim ra). split; [apply trim_edgeClean | reflexivity].
Qed.

(** No description that a decode returns holds a double quote. *)
Lemma decoded_description_no_quote (csvText : jsstring) :
  forallb (fun e => negb (includes QUOTE e.(description)))
          (importExpenses csvText).(expenses) = true.
Proof.
  apply forallb_forall. intros e Hin.
  apply accepted_rows in Hin as (headers & raw & D).
  apply decodeLine_accepted, parseRow_ok in D.
  destruct D as (i & d & a & c & _ & _ & _ & _ & _ & _ & _ & ->). simpl.
  destruct (description_of_row headers (trim raw)) as (U & _ & NQ).
  now rewrite U, NQ.
Qed.

(** C10: every record a decode returns has an id, a date, a category and a
    description without white space at either end, tags that are trimmed
    and not empty, and an amount read from a trimmed text. *)
Theorem decoded_fields_trimmed (csvText : jsstring) (e : Expense) :
  In e (importExpenses csvText).(expenses) -> trimmedRecord e.
Proof.
  intros Hin. apply accepted_rows in Hin as (headers & raw & D).
  exact (accepted_trimmed headers raw e D).
Qed.

Lemma amountIsNaN_rejected (headers : list jsstring) (raw : jsstring) :
  amountIsNaN headers raw = true ->
  decodeLine headers raw = Rejected (lit "Invalid Amount").
Proof.
  unfold amountIsNaN, decodeLine, parseRow, bind.
  destruct (isEmpty (trim raw)); [discriminate|]. simpl.
  destruct (Nat.leb_spec (List.length headers)
                          (List.length (splitRow (trim raw)))) as [L|L];
    [|discriminate].
  destruct (Nat.ltb_spec (List.length (splitRow (trim raw)))
                         (List.length headers)) as [L'|_]; [lia|].
  destruct (trimAt _ (idx headers "id")) as [i|]; [|discriminate].
  destruct (trimAt _ (idx headers "date")) as [d|]; [|discriminate].
  destruct (trimAt _ (idx headers "amount")) as [a|]; [|discriminate].
  destruct (trimAt _ (idx headers "category")) as [c|]; [|discriminate].
  simpl. destruct (isEmpty i); [discriminate|].
  destruct (matchesDate d); [|discriminate].
  destruct (isNaN (parseFloat a)); [reflexivity | discriminate].
Qed.

(** C4, as the code has it: no record of a decode has NaN for an amount;
    and past the header check, a row that reaches the amount check with a
    text that [parseFloat] reads as NaN is rejected as [Invalid Amount]
    under its line number and contributes no record. *)
Theorem nan_amount_rejected (csvText : jsstring) :
  let lines := splitLines csvText in
  let headers := headerOf lines in
  let r := importExpenses csvText in
  (forall e, In e r.(expenses) -> isNaN e.(amount) = false)
  /\ (2 <= List.length lines -> anyMissing headers = false ->
      forall n, 2 <= n <= List.length lines ->
        amountIsNaN headers (nth (n - 1) lines []) = true ->
        decodeLine headers (nth (n - 1) lines [])
        = Rejected (lit "Invalid Amount")
        /\ rowExpenses headers lines (n - 1) = []
        /\ In (lit "Line " ++ ofNat n ++ lit ": Invalid Amount") r.(errors)).
Proof.
  intros lines headers r. split.
  - intros e Hin. apply accepted_rows in Hin as (h & raw & D).
    apply decodeLine_accepted, parseRow_ok in D.
    destruct D as (i & d & a & c & _ & _ & _ & _ & _ & _ & Na & ->).
    exact Na.
  - intros Len Hdr n Hn Nan. apply amountIsNaN_rejected in Nan.
    split; [exact Nan|]. split.
    + unfold rowExpenses. now rewrite Nan.
    + exact (rejected_line_reported csvText n _ Len Hdr Hn Nan).
Qed.

End CsvFacts.

(** ** The text of a number *)

Module NumberTextFacts.
Import JsString JsNumber Props TextFacts.

Lemma digit_numeric (s : jsstring) :
  forallb isDigit s = true -> forallb numericChar s = true.
Proof.
  rewrite !forallb_forall. intros H c Hin. unfold numericChar.
  now rewrite (H c Hin).
Qed.

Lemma uint_digits (u : Decimal.uint) :
  forallb isDigit (lit (NilEmpty.string_of_uint u)) = true.
Proof. induction u; simpl; try reflexivity; exact IHu. Qed.

Lemma digitsOfN_numeric (n : N) : forallb numericChar (digitsOfN n) = true.
Proof. apply digit_numeric, uint_digits. Qed.

Lemma zeros_numeric (n : Z) : forallb numericChar (zeros n) = true.
Proof.
  unfold zeros. induction (Z.to_nat n) as [|k IH]; simpl; [reflexivity|].
  exact IH.
Qed.

Lemma forallb_firstn_skipn {A} (p : A -> bool) (n : nat) (l : list A) :
  forallb p l = true ->
  forallb p (firstn n l) = true /\ forallb p (skipn n l) = true.
Proof.
  intros H. rewrite <- (firstn_skipn n l), forallb_app in H.
  now apply andb_true_iff in H.
Qed.

Lemma formatDecimal_numeric (s n k : Z) :
  forallb numericChar (formatDecimal s n k) = true.
Proof.
  unfold formatDecimal.
  pose proof (digitsOfN_numeric (Z.to_N s)) as D.
  destruct ((k <=? n) && (n <=? 21))%Z.
  { now rewrite forallb_app, D, zeros_numeric. }
  destruct ((0 <? n) && (n <=? 21))%Z.
  { destruct (forallb_firstn_skipn numericChar (Z.to_nat n) _ D) as [Fi Sk].
    rewrite !forallb_app, Fi. exact Sk. }
  destruct ((-6 <? n) && (n <=? 0))%Z.
  { now rewrite !forallb_app, D, zeros_numeric. }
  destruct (digitsOfN (Z.to_N s)) as [|d1 rest]; [reflexivity|].
  simpl in D. apply andb_true_iff in D as [D1 Dr].
  destruct rest as [|d2 rest];
    rewrite !forallb_app, ?digitsOfN_numeric, ?Dr; simpl; rewrite D1;
    now destruct (n - 1 <? 0)%Z.
Qed.

(** [Number::toString] writes digits, signs, a point, an [e], [Infinity]
    or [NaN], and nothing else. *)
Lemma toString_numeric (x : number) : forallb numericChar (toString x) = true.
Proof.
  destruct x as [s|s| |s m e]; try reflexivity.
  - now destruct s.
  - unfold toString.
    destruct e as [|p|p]; cbv beta iota zeta;
      match goal with
      | |- context [shortest ?f ?k ?x ?a ?b ?c] =>
          destruct (shortest f k x a b c) as [[d n'] k']
      end;
      rewrite forallb_app, formatDecimal_numeric; now destruct s.
Qed.

Lemma numeric_not_special (c : char) :
  numericChar c = true ->
  isWhiteSpace c = false /\ char_eqb COMMA c = false
  /\ char_eqb QUOTE c = false /\ char_eqb LF c = false.
Proof.
  unfold numericChar, isDigit. rewrite orb_true_iff, andb_true_iff.
  intros [[L U] | E].
  - apply N.leb_le in L, U.
    assert (R : exists k, (k < 10)%nat /\ c = (48 + N.of_nat k)%N).
    { exists (N.to_nat (c - 48)). split; lia. }
    destruct R as (k & Hk & ->).
    do 10 (destruct k as [|k]; [repeat split; reflexivity|]). lia.
  - simpl in E. rewrite !orb_true_iff in E.
    repeat (destruct E as [E | E]);
      try discriminate; apply N.eqb_eq in E; subst c; repeat split.
Qed.

Lemma numeric_plain (s : jsstring) :
  forallb numericChar s = true -> plainField s = true.
Proof.
  intros H. unfold plainField. rewrite !andb_true_iff, !negb_true_iff.
  assert (Out : forall c,
             (forall x, numericChar x = true -> char_eqb c x = false) ->
             includes c s = false).
  { intros c Hc. unfold includes.
    destruct (existsb (char_eqb c) s) eqn:Q; [|reflexivity].
    apply existsb_exists in Q as (x & Hin & E).
    rewrite forallb_forall in H. rewrite (Hc x (H x Hin)) in E. discriminate. }
  repeat split.
  - apply Out. intros x Hx. apply (numeric_not_special x Hx).
  - apply Out. intros x Hx. apply (numeric_not_special x Hx).
  - apply Out. intros x Hx. apply (numeric_not_special x Hx).
  - apply edgeClean_forallb. rewrite forallb_forall in *. intros c Hin.
    destruct (numeric_not_special c (H c Hin)) as [W _]. now rewrite W.
Qed.

Lemma toString_plain (x : number) : plainField (toString x) = true.
Proof. apply numeric_plain, toString_numeric. Qed.

End NumberTextFacts.

(** ** Encoding, then decoding *)

Module RoundTripFacts.
Import JsString JsNumber Model Csv Props.
Import JsStringFacts TextFacts ScanFacts CsvFacts NumberTextFacts.

Lemma plainField_parts (s : jsstring) :
  plainField s = true ->
  includes COMMA s = false /\ includes QUOTE s = false
  /\ includes LF s = false /\ edgeClean s = true.
Proof.
  unfold plainField. rewrite !andb_true_iff, !negb_true_iff. tauto.
Qed.

Lemma matchesDate_plain (d : jsstring) :
  matchesDate d = true -> plainField d = true.
Proof.
  intros H. apply numeric_plain.
  do 11 (destruct d as [|? d]; try discriminate).
  unfold matchesDate in H. unfold numericChar. simpl forallb.
  remember isDigit as digit eqn:Hd.
  repeat (apply andb_true_iff in H as [H ?]).
  repeat match goal with
         | E : char_eqb ?h _ = true |- _ => apply char_eqb_eq in E; subst h
         end.
  repeat match goal with E : digit _ = true |- _ => rewrite E; clear E end.
  subst digit. reflexivity.
Qed.

(** *** The last character *)

Lemma lastChar_app (a b : jsstring) :
  lastChar (a ++ b)
  = match lastChar b with Some c => Some c | None => lastChar a end.
Proof.
  unfold lastChar. rewrite rev_app_distr.
  destruct (rev b); [now rewrite app_nil_l | reflexivity].
Qed.

Lemma lastChar_cons (c : char) (b : jsstring) :
  lastChar (c :: b)
  = match lastChar b with Some d => Some d | None => Some c end.
Proof. apply (lastChar_app [c] b). Qed.

Lemma lastChar_none (s : jsstring) : lastChar s = None -> s = [].
Proof.
  unfold lastChar. destruct (rev s) eqn:Q; [|discriminate]. intros _.
  apply (f_equal (@rev char)) in Q. now rewrite rev_involutive in Q.
Qed.

Lemma headClean_rev (s : jsstring) :
  headClean (rev s)
  = match lastChar s with Some c => negb (isWhiteSpace c) | None => true end.
Proof. unfold lastChar. now destruct (rev s). Qed.

Lemma endsWith_lastChar (c : char) (s : jsstring) :
  endsWith c s
  = match lastChar s with Some d => char_eqb d c | None => false end.
Proof. unfold endsWith, lastChar. now destruct (rev s). Qed.

(** *** Joining *)

Lemma join_cons2 (sep x y : jsstring) (r : list jsstring) :
  join sep (x :: y :: r) = x ++ sep ++ join sep (y :: r).
Proof. reflexivity. Qed.

Lemma includes_join (c : char) (sep : jsstring) (xs : list jsstring) :
  includes c sep = false ->
  forallb (fun x => negb (includes c x)) xs = true ->
  includes c (join sep xs) = false.
Proof.
  intros Hs. induction xs as [|x xs IH]; [reflexivity|].
  intros H. apply andb_true_iff in H as [Hx H]. apply negb_true_iff in Hx.
  destruct xs as [|y r]; [exact Hx|].
  rewrite join_cons2, !includes_app, Hx, Hs, (IH H). reflexivity.
Qed.

Lemma last_cons {A} (r : list A) : forall x y, last (y :: r) x = last r y.
Proof.
  induction r as [|z r IH]; intros x y; [reflexivity|].
  change (last (y :: z :: r) x) with (last (z :: r) x).
  now rewrite !IH.
Qed.

Lemma last_In {A} (r : list A) : forall y, In (last r y) (y :: r).
Proof.
  induction r as [|z r IH]; intros y; [now left|].
  rewrite last_cons. right. apply IH.
Qed.

Lemma lastChar_join (sep : jsstring) (xs : list jsstring) (x : jsstring) :
  forallb (fun t => negb (isEmpty t)) (x :: xs) = true ->
  lastChar (join sep (x :: xs)) = lastChar (last xs x).
Proof.
  revert x. induction xs as [|y r IH]; intros x H; [reflexivity|].
  apply andb_true_iff in H as [_ H].
  rewrite join_cons2, !lastChar_app, (IH y H).
  rewrite (last_cons r x y).
  destruct (lastChar (last r y)) eqn:Q; [reflexivity|].
  apply lastChar_none in Q.
  pose proof (last_In r y) as Hin.
  change (forallb (fun t => negb (isEmpty t)) (y :: r) = true) in H.
  rewrite forallb_forall in H. specialize (H _ Hin). rewrite Q in H.
  discriminate.
Qed.

(** *** The tags *)

Lemma tagOk_parts (t : jsstring) :
  tagOk t = true ->
  plainField t = true /\ includes SEMI t = false /\ t <> [].
Proof.
  unfold tagOk. rewrite !andb_true_iff, !negb_true_iff.
  intros [[P S] E]. repeat split; try assumption. intros ->. discriminate.
Qed.

Lemma forallb_weaken {A} (p q : A -> bool) (l : list A) :
  (forall x, p x = true -> q x = true) ->
  forallb p l = true -> forallb q l = true.
Proof.
  intros W. rewrite !forallb_forall. intros H x Hin. apply W, H, Hin.
Qed.

Lemma trim_tags (ts : list jsstring) :
  forallb tagOk ts = true ->
  filter (fun t => negb (isEmpty t)) (map trim ts) = ts.
Proof.
  induction ts as [|t ts IH]; [reflexivity|]. intros H.
  apply andb_true_iff in H as [Ht H].
  apply tagOk_parts in Ht as (P & _ & Ne).
  apply plainField_parts in P as (_ & _ & _ & C).
  simpl. rewrite (trim_id _ C), (IH H).
  destruct t; [congruence | reflexivity].
Qed.

(** The tags come back from their joined text. *)
Lemma parseTags_join (ts : list jsstring) :
  forallb tagOk ts = true -> parseTags (join [SEMI] ts) = ts.
Proof.
  destruct ts as [|t ts]; [reflexivity|]. intros H.
  assert (S : split SEMI (join [SEMI] (t :: ts)) = t :: ts).
  { apply split_join. revert H. apply forallb_weaken. intros x Hx.
    apply tagOk_parts in Hx as (_ & Sx & _). now rewrite Sx. }
  unfold parseTags. destruct (join [SEMI] (t :: ts)) as [|c s] eqn:J.
  - simpl in S. injection S as <- _. simpl in H. discriminate.
  - rewrite S. now apply trim_tags.
Qed.

Lemma tagsText_plain (c : char) (ts : list jsstring) :
  char_eqb c SEMI = false ->
  (forall t, tagOk t = true -> includes c t = false) ->
  forallb tagOk ts = true -> includes c (join [SEMI] ts) = false.
Proof.
  intros Hc Ht H. apply includes_join.
  - simpl. now rewrite Hc.
  - revert H. apply forallb_weaken. intros x Hx. now rewrite (Ht x Hx).
Qed.

Lemma tagsText_last (ts : list jsstring) :
  forallb tagOk ts = true ->
  match lastChar (join [SEMI] ts) with
  | Some c => isWhiteSpace c = false
  | None => True
  end.
Proof.
  destruct ts as [|t ts]; [exact (fun _ => I)|]. intros H.
  rewrite lastChar_join
    by (revert H; apply forallb_weaken; intros x Hx;
        apply tagOk_parts in Hx as (_ & _ & Ne); now destruct x).
  pose proof (last_In ts t) as Hin.
  rewrite forallb_forall in H. specialize (H _ Hin).
  apply tagOk_parts in H as (P & _ & _).
  apply plainField_parts in P as (_ & _ & _ & C).
  unfold edgeClean in C. apply andb_true_iff in C as [_ C].
  rewrite headClean_rev in C.
  destruct (lastChar (last ts t)); [now apply negb_true_iff in C | exact I].
Qed.

(** *** One row, written and read back *)

Section Row.
Variable e : Expense.
Hypothesis RT : roundTrips e.

Lemma row_unfold :
  csvRow e
  = e.(id) ++ COMMA :: e.(date) ++ COMMA :: toString e.(amount) ++ COMMA
      :: e.(category) ++ COMMA :: escapeDescription e.(description) ++ COMMA
      :: tagsText e.
Proof. reflexivity. Qed.

Lemma description_parts :
  includes QUOTE e.(description) = false
  /\ includes LF e.(description) = false
  /\ edgeClean e.(description) = true.
Proof.
  destruct RT as (_ & _ & _ & _ & _ & _ & _ & D & _).
  unfold descriptionOk in D. rewrite !andb_true_iff, !negb_true_iff in D.
  tauto.
Qed.

Lemma escaped_no_LF : includes LF (escapeDescription e.(description)) = false.
Proof.
  destruct description_parts as (NQ & NL & _). unfold escapeDescription.
  destruct (includes COMMA (description e) || includes QUOTE (description e));
    [|exact NL].
  rewrite !includes_app. simpl. rewrite orb_false_r.
  clear - NL. induction (description e) as [|c d IH]; [reflexivity|].
  rewrite includes_cons in NL. apply orb_false_iff in NL as [E NL].
  change (doubleQuotes (c :: d))
    with ((if char_eqb c QUOTE then [QUOTE; QUOTE] else [c])
            ++ doubleQuotes d).
  rewrite includes_app, (IH NL), orb_false_r.
  destruct (char_eqb c QUOTE); [reflexivity|].
  now rewrite includes_cons, E.
Qed.

Lemma splitRow_csvRow :
  splitRow (csvRow e)
  = [e.(id); e.(date); toString e.(amount); e.(category); e.(description);
     tagsText e].
Proof.
  destruct RT as (I & _ & D & _ & _ & C & _ & _ & T).
  apply plainField_parts in I as (Ic & Iq & _ & _).
  apply matchesDate_plain, plainField_parts in D as (Dc & Dq & _ & _).
  destruct (plainField_parts _ (toString_plain (amount e)))
    as (Ac & Aq & _ & _).
  apply plainField_parts in C as (Cc & Cq & _ & _).
  destruct description_parts as (NQ & _ & _).
  unfold splitRow, scanLine. rewrite row_unfold.
  do 4 (rewrite scan_field by first [assumption | reflexivity]).
  rewrite scan_description by first [assumption | reflexivity].
  rewrite scan_chars.
  - reflexivity.
  - apply tagsText_plain; [reflexivity | | exact T].
    intros t Ht. apply tagOk_parts in Ht as (P & _).
    now apply plainField_parts in P.
  - right. apply tagsText_plain; [reflexivity | | exact T].
    intros t Ht. apply tagOk_parts in Ht as (P & _).
    now apply plainField_parts in P.
Qed.

Lemma row_last :
  exists c, lastChar (csvRow e) = Some c /\ isWhiteSpace c = false.
Proof.
  destruct RT as (_ & _ & _ & _ & _ & _ & _ & _ & T).
  pose proof (tagsText_last _ T) as L. fold (tagsText e) in L.
  rewrite row_unfold.
  rewrite lastChar_app, lastChar_cons, lastChar_app, lastChar_cons,
    lastChar_app, lastChar_cons, lastChar_app, lastChar_cons,
    lastChar_app, lastChar_cons.
  destruct (lastChar (tagsText e)) as [c|]; eauto.
Qed.

Lemma row_first : exists c r, csvRow e = c :: r /\ isWhiteSpace c = false.
Proof.
  destruct RT as (I & Ne & _).
  apply plainField_parts in I as (_ & _ & _ & C).
  unfold edgeClean in C. apply andb_true_iff in C as [H _].
  rewrite row_unfold. destruct (id e) as [|c r]; [congruence|].
  simpl in H. apply negb_true_iff in H. simpl. eauto.
Qed.

Lemma row_trim : trim (csvRow e) = csvRow e.
Proof.
  apply trim_id. unfold edgeClean. rewrite headClean_rev.
  destruct row_last as (d & L & Wd). rewrite L.
  destruct row_first as (c & r & E & W). rewrite E.
  simpl. now rewrite W, Wd.
Qed.

Lemma row_lineSafe : lineSafe (csvRow e) = true.
Proof.
  unfold lineSafe. apply andb_true_iff. split; apply negb_true_iff.
  - destruct RT as (I & _ & D & _ & _ & C & _ & _ & T).
    apply plainField_parts in I as (_ & _ & Il & _).
    apply matchesDate_plain, plainField_parts in D as (_ & _ & Dl & _).
    destruct (plainField_parts _ (toString_plain (amount e)))
      as (_ & _ & Al & _).
    apply plainField_parts in C as (_ & _ & Cl & _).
    rewrite row_unfold.
    repeat (rewrite includes_app || rewrite includes_cons).
    rewrite Il, Dl, Al, Cl, escaped_no_LF. simpl.
    apply tagsText_plain; [reflexivity | | exact T].
    intros t Ht. apply tagOk_parts in Ht as (P & _).
    now apply plainField_parts in P.
  - rewrite endsWith_lastChar. destruct row_last as (d & -> & Wd).
    destruct (char_eqb d CR) eqn:Q; [|reflexivity].
    apply char_eqb_eq in Q. subst d. discriminate.
Qed.

Lemma trimAt_some (ps : list jsstring) (i : Z) (s : jsstring) :
  at_index ps i = Some s -> edgeClean s = true -> trimAt ps i = Ok s.
Proof. unfold trimAt. intros -> C. now rewrite (trim_id _ C). Qed.

Lemma trimAtOrEmpty_some (ps : list jsstring) (i : Z) (s : jsstring) :
  at_index ps i = Some s -> edgeClean s = true -> trimAtOrEmpty ps i = s.
Proof.
  unfold trimAtOrEmpty. intros -> C. destruct s; [reflexivity|].
  now apply trim_id.
Qed.

(** The fields of a line written by the encoder, as [parseRow] reads them
    under the encoder's own header. *)
Lemma parseRow_encoded :
  parseRow headerCols (splitRow (csvRow e)) = Ok e.
Proof.
  rewrite splitRow_csvRow.
  destruct RT as (I & Ne & D & Nan & Num & C & Nc & _ & T).
  apply plainField_parts in I as (_ & _ & _ & Ie).
  pose proof (matchesDate_plain _ D) as Dp.
  apply plainField_parts in Dp as (_ & _ & _ & De).
  destruct (plainField_parts _ (toString_plain (amount e)))
    as (_ & _ & _ & Ae).
  apply plainField_parts in C as (_ & _ & _ & Ce).
  destruct description_parts as (NQ & _ & Dse).
  assert (Te : edgeClean (tagsText e) = true).
  { unfold edgeClean. rewrite headClean_rev.
    pose proof (tagsText_last _ T) as L. fold (tagsText e) in L.
    apply andb_true_iff. split.
    - unfold tagsText. destruct (tags e) as [|t ts]; [reflexivity|].
      simpl in T. apply andb_true_iff in T as [Ht _].
      apply tagOk_parts in Ht as (P & _ & Nt).
      apply plainField_parts in P as (_ & _ & _ & Pe).
      unfold edgeClean in Pe. apply andb_true_iff in Pe as [Ph _].
      destruct ts; [exact Ph|].
      rewrite join_cons2. rewrite headClean_app by exact Nt. exact Ph.
    - destruct (lastChar (tagsText e)); [now rewrite L | reflexivity]. }
  unfold parseRow.
  change (idx headerCols "id") with 0%Z.
  change (idx headerCols "date") with 1%Z.
  change (idx headerCols "amount") with 2%Z.
  change (idx headerCols "category") with 3%Z.
  change (idx headerCols "description") with 4%Z.
  change (idx headerCols "tags") with 5%Z.
  set (ps := [id e; date e; toString (amount e); category e;
              description e; tagsText e]).
  rewrite (trimAt_some ps 0 (id e) eq_refl Ie),
    (trimAt_some ps 1 (date e) eq_refl De),
    (trimAt_some ps 2 (toString (amount e)) eq_refl Ae),
    (trimAt_some ps 3 (category e) eq_refl Ce),
    (trimAtOrEmpty_some ps 4 (description e) eq_refl Dse),
    (trimAtOrEmpty_some ps 5 (tagsText e) eq_refl Te).
  cbn [bind]. rewrite Num, Nan, D. cbn [negb].
  replace (isEmpty (id e)) with false by (now destruct (id e)).
  replace (isEmpty (category e)) with false by (now destruct (category e)).
  rewrite (unescapeDescription_id _ NQ).
  unfold tagsText. rewrite (parseTags_join _ T).
  now destruct e.
Qed.

Lemma decodeLine_encoded : decodeLine headerCols (csvRow e) = Accepted e.
Proof.
  unfold decodeLine. rewrite row_trim.
  destruct row_first as (c & r & E & _).
  replace (isEmpty (csvRow e)) with false by (now rewrite E).
  rewrite parseRow_encoded, splitRow_csvRow. reflexivity.
Qed.

End Row.

(** *** A whole collection *)

Lemma flat_map_rows {B} (f : jsstring -> list B) (rows : list jsstring) :
  forall pre,
    flat_map (fun i => f (nth i (pre ++ rows) []))
             (seq (List.length pre) (List.length rows))
    = flat_map f rows.
Proof.
  induction rows as [|r rows IH]; intros pre; [reflexivity|].
  simpl. rewrite nth_middle. f_equal.
  specialize (IH (pre ++ [r])).
  rewrite <- app_assoc, length_app, Nat.add_1_r in IH. exact IH.
Qed.

Lemma flat_map_none {A B} (f : A -> list B) (l : list A) :
  (forall x, In x l -> f x = []) -> flat_map f l = [].
Proof.
  induction l as [|x l IH]; intros H; [reflexivity|].
  simpl. rewrite (H x (or_introl eq_refl)). apply IH.
  intros y Hy. apply H. now right.
Qed.

Lemma encoded_lines (xs : list Expense) :
  Forall roundTrips xs ->
  splitLines (generateCSVString xs) = csvHeader :: map csvRow xs.
Proof.
  intros F. unfold generateCSVString.
  change (join [COMMA] headerCols) with csvHeader.
  apply splitLines_join. simpl. apply forallb_forall.
  intros row Hin. apply in_map_iff in Hin as (e & <- & He).
  rewrite Forall_forall in F. apply row_lineSafe, F, He.
Qed.

Lemma encoded_rows_accepted (xs : list Expense) :
  Forall roundTrips xs ->
  flat_map (lineExpenses headerCols) (map csvRow xs) = xs.
Proof.
  induction 1 as [|e xs He _ IH]; [reflexivity|].
  simpl. unfold lineExpenses at 1.
  rewrite (decodeLine_encoded e He), IH. reflexivity.
Qed.

(** C1, as the code has it: a collection of records that are plain enough
    for the narrow escaping policy (see [roundTrips]) is decoded from its
    own encoding field for field and in the same order, and without any
    problem when it is not empty. *)
Theorem round_trip (xs : list Expense) :
  Forall roundTrips xs ->
  (importExpenses (generateCSVString xs)).(expenses) = xs
  /\ (xs <> [] -> (importExpenses (generateCSVString xs)).(errors) = []).
Proof.
  intros F. destruct xs as [|e0 xs0] eqn:Q; [split; [reflexivity | congruence]|].
  rewrite <- Q in *. assert (Ne : xs <> []) by (rewrite Q; discriminate).
  clear Q e0 xs0.
  pose proof (encoded_lines xs F) as SL.
  assert (Len : 2 <= List.length (splitLines (generateCSVString xs))).
  { rewrite SL. simpl. rewrite length_map. destruct xs; [congruence|].
    simpl. lia. }
  assert (Hdr : anyMissing (headerOf (splitLines (generateCSVString xs)))
                = false) by (now rewrite SL).
  destruct (import_valid _ Len Hdr) as [E R]. rewrite E, R, SL.
  change (headerOf (csvHeader :: map csvRow xs)) with headerCols.
  replace (List.length (csvHeader :: map csvRow xs) - 1)
    with (List.length (map csvRow xs)) by (simpl; lia).
  split.
  - transitivity (flat_map (lineExpenses headerCols) (map csvRow xs)).
    + exact (flat_map_rows (lineExpenses headerCols) (map csvRow xs)
               [csvHeader]).
    + exact (encoded_rows_accepted xs F).
  - intros _. apply flat_map_none. intros i Hi. apply in_seq in Hi.
    unfold rowErrors. destruct i as [|i]; [lia|]. simpl nth.
    assert (Hin : In (nth i (map csvRow xs) []) (map csvRow xs))
      by (apply nth_In; lia).
    apply in_map_iff in Hin as (e & <- & He).
    rewrite Forall_forall in F.
    now rewrite (decodeLine_encoded e (F e He)).
Qed.

End RoundTripFacts.

(** ** The statements on concrete inputs *)

Module Cases.
Import JsString JsNumber Model Csv Logic Props.
Import CsvFacts ScanFacts RoundTripFacts.

Ltac evaluate := vm_compute; repeat split; try reflexivity; try discriminate.

Lemma sample_roundTrips : Forall roundTrips sampleExpenses.
Proof. repeat constructor; evaluate. Defined.

(** The records of the test suite come back from their own encoding. *)
Lemma round_trip_witness :
  Forall roundTrips sampleExpenses
  /\ (importExpenses (generateCSVString sampleExpenses)).(expenses)
     = sampleExpenses
  /\ (importExpenses (generateCSVString sampleExpenses)).(errors) = [].
Proof.
  split; [exact sample_roundTrips|].
  destruct (round_trip sampleExpenses sample_roundTrips) as [E R].
  split; [exact E | apply R; discriminate].
Defined.

(** C1 fails as it is worded: a record with unique id, a date in the
    pattern and a finite amount, but an empty category, comes back with the
    category [Uncategorized]. *)
Lemma round_trip_counterexample :
  wellFormed [noCategory]
  /\ (importExpenses (generateCSVString [noCategory])).(expenses)
     = [mkExpense "1" "2023-10-25" 50 "Uncategorized" "Groceries"
          ["home"%string]]
  /\ (importExpenses (generateCSVString [noCategory])).(expenses)
     <> [noCategory].
Proof.
  split; [|split].
  - split.
    + repeat constructor. simpl. tauto.
    + repeat constructor; reflexivity.
  - vm_compute. reflexivity.
  - vm_compute. discriminate.
Qed.

(** C2: no description that the decoder returns holds a double quote, so
    none that has one is decoded back to itself; the encoder wraps the
    description [a], quote, [b] in quotes and doubles its quote, and the
    decoder gives back [ab]. *)
Theorem quote_lost :
  (forall csvText,
      forallb (fun e => negb (includes QUOTE e.(description)))
              (importExpenses csvText).(expenses) = true)
  /\ escapeDescription quoted.(description) = [34; 97; 34; 34; 98; 34]%N
  /\ generateCSVString [quoted] = csvHeader ++ [LF] ++ quotedLine
  /\ importExpenses (generateCSVString [quoted])
     = {| expenses := [mkExpense "1" "2023-10-25" 50 "Food" "ab" []];
          errors := [] |}
  /\ map (fun e => str_eqb e.(description) quoted.(description))
         (importExpenses (generateCSVString [quoted])).(expenses)
     = [false].
Proof.
  split; [exact decoded_description_no_quote|].
  repeat split; vm_compute; reflexivity.
Qed.

(** C3: the scanner keeps no quote character: no field it returns holds
    one, and the line written for the description [a], quote, [b] is split
    with [ab] as its fifth field. *)
Theorem quotes_dropped :
  (forall line, Forall (fun p => includes QUOTE p = false) (splitRow line))
  /\ splitRow quotedLine
     = map lit ["1"; "2023-10-25"; "50"; "Food"; "ab"; ""]%string
  /\ includes QUOTE quotedLine = true.
Proof.
  split; [exact splitRow_no_quote|]. split; vm_compute; reflexivity.
Qed.

(** C4 fails as it is worded: the amount text [Infinity] is accepted, and
    the record returned has an amount that is not finite. *)
Lemma infinite_amount_accepted :
  importExpenses infinityInput
  = {| expenses := [infinityExpense]; errors := [] |}
  /\ isFinite infinityExpense.(amount) = false.
Proof. split; vm_compute; reflexivity. Qed.

(** The bad row of [mixedInput] is reported on line 2, and the record of
    its good row has a number for an amount. *)
Lemma nan_amount_rejected_witness :
  isNaN goodExpense.(amount) = false
  /\ decodeLine (headerOf (splitLines mixedInput))
       (nth (2 - 1) (splitLines mixedInput) [])
     = Rejected (lit "Invalid Amount")
  /\ rowExpenses (headerOf (splitLines mixedInput)) (splitLines mixedInput)
       (2 - 1) = []
  /\ In (lit "Line " ++ ofNat 2 ++ lit ": Invalid Amount")
        (importExpenses mixedInput).(errors).
Proof.
  destruct (nan_amount_rejected mixedInput) as [Num Rej]. split.
  - apply Num. vm_compute. left. reflexivity.
  - apply (Rej ltac:(vm_compute; lia) ltac:(vm_compute; reflexivity) 2).
    + vm_compute. lia.
    + vm_compute. reflexivity.
Defined.

(** One bad row and one good row: one problem, on line 2, and one record. *)
Lemma partial_success_witness :
  (importExpenses mixedInput).(expenses) = [goodExpense]
  /\ (importExpenses mixedInput).(errors) = [lit "Line 2: Invalid Amount"].
Proof.
  assert (Len : 2 <= List.length (splitLines mixedInput))
    by (vm_compute; lia).
  assert (Hdr : anyMissing (headerOf (splitLines mixedInput)) = false)
    by (vm_compute; reflexivity).
  destruct (partial_success mixedInput Len Hdr) as (E & R & _).
  split.
  - rewrite E. vm_compute. reflexivity.
  - rewrite R. vm_compute. reflexivity.
Defined.

(** The malformed header of the test suite: no record, one file-level
    problem. *)
Lemma wholesale_failure_witness :
  fileLevelFailure (importExpenses shortHeaderInput)
  /\ at_index (headerOf (splitLines shortHeaderInput))
       (idx (headerOf (splitLines shortHeaderInput)) "date")
     = Some (lit "date").
Proof.
  destruct (wholesale_failure shortHeaderInput) as (Iff & Found & _). split.
  - apply Iff. right. exists "tags"%string. split.
    + vm_compute. tauto.
    + vm_compute. intros [H | [H | [H | []]]]; discriminate H.
  - apply Found.
    + vm_compute. tauto.
    + vm_compute. tauto.
Defined.

(** White space around the fields of a row does not reach the record. *)
Lemma decoded_fields_trimmed_witness :
  In paddedExpense (importExpenses paddedInput).(expenses)
  /\ trimmedRecord paddedExpense.
Proof.
  assert (Hin : In paddedExpense (importExpenses paddedInput).(expenses))
    by (vm_compute; left; reflexivity).
  split; [exact Hin|].
  exact (decoded_fields_trimmed paddedInput paddedExpense Hin).
Defined.

End Cases.

(** ** Adding, deleting and editing records *)

Module ListFacts.
Import JsString JsNumber Model Logic Props JsStringFacts LogicFacts.

Lemma hasId_find (k : jsstring) (xs : list Expense) :
  hasId k xs = match findById k xs with Some _ => true | None => false end.
Proof.
  unfold hasId, findById. induction xs as [|x xs IH]; simpl; [reflexivity|].
  destruct (str_eqb (id x) k); [reflexivity | exact IH].
Qed.

Lemma delete_absent (xs : list Expense) (k : jsstring) :
  hasId k xs = false -> deleteExpenseFromList xs k = xs.
Proof.
  unfold hasId, deleteExpenseFromList.
  induction xs as [|x xs IH]; simpl; [reflexivity|].
  destruct (str_eqb (id x) k); simpl; [discriminate|].
  intros H. now rewrite (IH H).
Qed.

Lemma delete_hasId (xs : list Expense) (k k' : jsstring) :
  hasId k' (deleteExpenseFromList xs k)
  = negb (str_eqb k' k) && hasId k' xs.
Proof.
  unfold hasId, deleteExpenseFromList.
  induction xs as [|x xs IH]; simpl; [now rewrite andb_false_r|].
  destruct (str_eqb (id x) k) eqn:Q; simpl.
  - rewrite IH. apply str_eqb_eq in Q. rewrite Q.
    destruct (str_eqb k k') eqn:Q'.
    + apply str_eqb_eq in Q'. subst k'. now rewrite str_eqb_refl.
    + reflexivity.
  - rewrite IH. destruct (str_eqb (id x) k') eqn:Q'; [|reflexivity].
    apply str_eqb_eq in Q'. subst k'. now rewrite Q.
Qed.

Lemma delete_find (xs : list Expense) (k k' : jsstring) :
  findById k' (deleteExpenseFromList xs k)
  = if str_eqb k' k then None else findById k' xs.
Proof.
  unfold findById, deleteExpenseFromList.
  induction xs as [|x xs IH]; simpl; [now destruct (str_eqb k' k)|].
  destruct (str_eqb (id x) k) eqn:Q; simpl.
  - rewrite IH. destruct (str_eqb k' k) eqn:Q'; [reflexivity|].
    destruct (str_eqb (id x) k') eqn:Q''; [|reflexivity].
    apply str_eqb_eq in Q, Q''. apply str_eqb_neq in Q'. congruence.
  - destruct (str_eqb (id x) k') eqn:Q''.
    + destruct (str_eqb k' k) eqn:Q'; [|reflexivity].
      apply str_eqb_eq in Q', Q''. apply str_eqb_neq in Q. congruence.
    + exact IH.
Qed.

Lemma filter_length_lt {A} (p : A -> bool) (l : list A) :
  existsb (fun x => negb (p x)) l = true ->
  List.length (filter p l) < List.length l.
Proof.
  induction l as [|x l IH]; simpl; [discriminate|].
  pose proof (filter_length_le p l) as Le.
  destruct (p x); simpl; [intros H; specialize (IH H)|]; lia.
Qed.

(** X1: deleting by id leaves no record with that id and keeps every
    other record where it was (so looking any other id up gives what it
    gave before); it changes nothing when no record has the id, shortens the
    collection otherwise, and deleting twice is deleting once. *)
Theorem delete_by_id (xs : list Expense) (k : jsstring) :
  let ys := deleteExpenseFromList xs k in
  hasId k ys = false
  /\ (forall k', findById k' ys
                 = if str_eqb k' k then None else findById k' xs)
  /\ (if hasId k xs then List.length ys < List.length xs else ys = xs)
  /\ deleteExpenseFromList ys k = ys.
Proof.
  cbv zeta.
  assert (Gone : hasId k (deleteExpenseFromList xs k) = false)
    by (now rewrite delete_hasId, str_eqb_refl).
  split; [exact Gone|]. split; [intros k'; apply delete_find|]. split.
  - destruct (hasId k xs) eqn:H; [|now apply delete_absent].
    apply filter_length_lt. unfold hasId in H.
    rewrite existsb_exists in *. destruct H as (x & Hin & Hx).
    exists x. split; [exact Hin|]. now rewrite Hx.
  - now apply delete_absent.
Qed.

Lemma edit_ids (xs : list Expense) (u : Expense) :
  map id (editExpenseInList xs u) = map id xs.
Proof.
  unfold editExpenseInList. induction xs as [|x xs IH]; simpl; [reflexivity|].
  rewrite IH. destruct (str_eqb (id x) (id u)) eqn:Q; [|reflexivity].
  apply str_eqb_eq in Q. now rewrite Q.
Qed.

Lemma edit_absent (xs : list Expense) (u : Expense) :
  hasId u.(id) xs = false -> editExpenseInList xs u = xs.
Proof.
  unfold hasId, editExpenseInList.
  induction xs as [|x xs IH]; simpl; [reflexivity|].
  destruct (str_eqb (id x) (id u)); simpl; [discriminate|].
  intros H. now rewrite (IH H).
Qed.

Lemma edit_find (xs : list Expense) (u : Expense) (k : jsstring) :
  findById k (editExpenseInList xs u)
  = if str_eqb u.(id) k
    then (if hasId k xs then Some u else None)
    else findById k xs.
Proof.
  unfold findById, hasId, editExpenseInList.
  induction xs as [|x xs IH]; simpl; [now destruct (str_eqb (id u) k)|].
  destruct (str_eqb (id x) (id u)) eqn:Q; simpl.
  - rewrite (str_eqb_trans_l _ _ k Q), IH.
    destruct (str_eqb (id u) k); reflexivity.
  - rewrite IH. destruct (str_eqb (id x) k) eqn:Q'; [|reflexivity].
    destruct (str_eqb (id u) k) eqn:Q''; [|reflexivity].
    apply str_eqb_eq in Q', Q''. apply str_eqb_neq in Q. congruence.
Qed.

(** X2: editing keeps the ids of the collection, their order and their
    number; the id of the updated record then leads to the updated record
    if the collection had that id, every other id leads to what it led to
    before, and a collection without that id is left as it was. *)
Theorem edit_by_id (xs : list Expense) (u : Expense) :
  let ys := editExpenseInList xs u in
  map id ys = map id xs
  /\ List.length ys = List.length xs
  /\ (forall k, findById k ys
                = if str_eqb u.(id) k
                  then (if hasId k xs then Some u else None)
                  else findById k xs)
  /\ (if hasId u.(id) xs then hasId u.(id) ys = true else ys = xs).
Proof.
  cbv zeta. split; [apply edit_ids|]. split.
  - unfold editExpenseInList. apply length_map.
  - split; [intros k; apply edit_find|].
    destruct (hasId (id u) xs) eqn:H; [|now apply edit_absent].
    rewrite hasId_find, edit_find, str_eqb_refl, H. reflexivity.
Qed.


End ListFacts.

(** ** More on the reconciliation *)

Module MergeFacts.
Import JsString JsNumber Model Logic Props JsStringFacts LogicFacts ListFacts.

Lemma has_existsb (k : jsstring) (m : JsMap) :
  has k m = existsb (fun k' => str_eqb k' k) (keys m).
Proof.
  unfold has, keys. induction m as [|kv m IH]; simpl; [reflexivity|].
  now rewrite IH.
Qed.

Lemma set_new (k : jsstring) (v : Expense) (m : JsMap) :
  has k m = false -> set k v m = m ++ [(k, v)].
Proof.
  induction m as [|[k' v'] m IH]; simpl; [reflexivity|].
  destruct (str_eqb k' k); simpl; [discriminate|].
  intros H. now rewrite (IH H).
Qed.

Lemma has_In (k : jsstring) (m : JsMap) : has k m = false <-> ~ In k (keys m).
Proof.
  rewrite <- has_keys. destruct (has k m); split; congruence.
Qed.

(** Writing a record that is already filed under its id changes nothing. *)
Lemma set_same (k : jsstring) (v : Expense) (m : JsMap) :
  NoDup (keys m) -> In (k, v) m -> set k v m = m.
Proof.
  induction m as [|[k' v'] m IH]; simpl; [tauto|].
  intros ND Hin. inversion ND as [|? ? Hnot ND']; subst.
  destruct Hin as [E | Hin].
  - injection E as -> ->. now rewrite str_eqb_refl.
  - destruct (str_eqb k' k) eqn:Q.
    + apply str_eqb_eq in Q. subst k'. exfalso. apply Hnot.
      unfold keys. apply in_map_iff. now exists (k, v).
    + now rewrite (IH ND' Hin).
Qed.

(** Records with ids that are new and distinct are filed in their order. *)
Lemma setAll_fresh (xs : list Expense) : forall m,
  NoDup (keys m ++ map id xs) -> setAll xs m = m ++ entriesOf xs.
Proof.
  induction xs as [|x xs IH]; intros m ND; simpl.
  - now rewrite app_nil_r.
  - assert (New : has (id x) m = false).
    { apply has_In. intros Hin.
      apply NoDup_remove_2 in ND. apply ND, in_or_app. now left. }
    unfold setAll in *. simpl. rewrite (set_new _ _ _ New), IH.
    + now rewrite <- app_assoc.
    + unfold keys in *. rewrite map_app, <- app_assoc. exact ND.
Qed.

Lemma loadCurrent_nodup (xs : list Expense) :
  NoDup (map id xs) -> loadCurrent xs = entriesOf xs.
Proof. intros ND. exact (setAll_fresh xs [] ND). Qed.

Lemma values_entriesOf (xs : list Expense) : values (entriesOf xs) = xs.
Proof.
  unfold values, entriesOf. rewrite map_map. simpl. apply map_id.
Qed.

Lemma keys_entriesOf (xs : list Expense) : keys (entriesOf xs) = map id xs.
Proof. unfold keys, entriesOf. now rewrite map_map. Qed.

Lemma has_entriesOf (k : jsstring) (xs : list Expense) :
  has k (entriesOf xs) = hasId k xs.
Proof.
  unfold has, hasId, entriesOf. induction xs as [|x xs IH]; simpl;
    [reflexivity | now rewrite IH].
Qed.

Lemma keyed_entriesOf (xs : list Expense) : keyed (entriesOf xs).
Proof.
  unfold keyed, entriesOf. apply Forall_forall. intros kv Hin.
  apply in_map_iff in Hin as (e & <- & _). reflexivity.
Qed.

(** Applying records that the map already holds only counts updates. *)
Lemma apply_known (ys : list Expense) : forall st,
  NoDup (keys st.(entries)) ->
  (forall y, In y ys -> In (y.(id), y) st.(entries)) ->
  fold_left applyIncoming ys st
  = {| entries := st.(entries); nAdded := st.(nAdded);
       nUpdated := st.(nUpdated) + List.length ys |}.
Proof.
  induction ys as [|y ys IH]; intros st ND Known; simpl.
  - rewrite Nat.add_0_r. now destruct st.
  - assert (Hy : In (id y, y) (entries st)) by (apply Known; now left).
    assert (Has : has (id y) (entries st) = true).
    { apply has_keys. unfold keys. apply in_map_iff. now exists (id y, y). }
    assert (Step : applyIncoming st y
                   = {| entries := st.(entries); nAdded := st.(nAdded);
                        nUpdated := S st.(nUpdated) |}).
    { unfold applyIncoming. now rewrite Has, (set_same _ _ _ ND Hy). }
    rewrite Step, IH; simpl.
    + f_equal. lia.
    + exact ND.
    + intros z Hz. apply Known. now right.
Qed.

(** X4: in a collection with distinct ids, merging one incoming record is
    editing when the collection has its id (one update, nothing added) and
    appending at the end when it has not (one addition, no update). *)
Theorem merge_one_is_edit (xs : list Expense) (u : Expense) :
  NoDup (map id xs) ->
  mergeExpenses xs [u]
  = if hasId u.(id) xs
    then {| merged := editExpenseInList xs u;
            stats := {| added := 0; updated := 1; skipped := 0 |} |}
    else {| merged := xs ++ [u];
            stats := {| added := 1; updated := 0; skipped := 0 |} |}.
Proof.
  intros ND. unfold mergeExpenses. simpl. unfold applyIncoming. simpl.
  rewrite (loadCurrent_nodup xs ND), has_entriesOf.
  destruct (hasId (id u) xs) eqn:H; simpl.
  - rewrite values_set_old, values_entriesOf.
    + reflexivity.
    + apply keyed_entriesOf.
    + now rewrite keys_entriesOf.
    + now rewrite has_entriesOf.
  - rewrite values_set_new, values_entriesOf by (now rewrite has_entriesOf).
    reflexivity.
Qed.

Lemma merge_self (xs : list Expense) :
  NoDup (map id xs) ->
  mergeExpenses xs xs
  = {| merged := xs;
       stats := {| added := 0; updated := List.length xs; skipped := 0 |} |}.
Proof.
  intros ND. unfold mergeExpenses. rewrite (loadCurrent_nodup xs ND).
  rewrite apply_known; simpl.
  - now rewrite values_entriesOf.
  - now rewrite keys_entriesOf.
  - intros y Hy. unfold entriesOf. apply in_map_iff. now exists y.
Qed.

(** X5: a collection with distinct ids merged with itself comes back as it
    is, every record counted as an update and none as an addition; merged
    with nothing it comes back as it is, with nothing counted. *)
Theorem merge_idempotent (xs : list Expense) :
  NoDup (map id xs) ->
  mergeExpenses xs xs
  = {| merged := xs;
       stats := {| added := 0; updated := List.length xs; skipped := 0 |} |}
  /\ mergeExpenses xs []
     = {| merged := xs;
          stats := {| added := 0; updated := 0; skipped := 0 |} |}.
Proof.
  intros ND. split; [exact (merge_self xs ND)|].
  unfold mergeExpenses. rewrite (loadCurrent_nodup xs ND).
  simpl. now rewrite values_entriesOf.
Qed.

(** *** The ids of the merged collection *)

Lemma keys_setAll (xs : list Expense) : forall m,
  keys (setAll xs m)
  = fold_left (fun acc k => if existsb (fun k' => str_eqb k' k) acc then acc
                            else acc ++ [k])
              (map id xs) (keys m).
Proof.
  induction xs as [|x xs IH]; intros m; [reflexivity|].
  unfold setAll in *. simpl. rewrite IH, keys_set, has_existsb. reflexivity.
Qed.

Lemma setAll_app (xs ys : list Expense) (m : JsMap) :
  setAll (xs ++ ys) m = setAll ys (setAll xs m).
Proof. unfold setAll. apply fold_left_app. Qed.

Lemma merged_entries (current incoming : list Expense) :
  (mergeState current incoming).(entries) = setAll (current ++ incoming) [].
Proof.
  unfold mergeState. rewrite entries_fold, setAll_app. reflexivity.
Qed.

Lemma hasId_In (k : jsstring) (xs : list Expense) :
  hasId k xs = true <-> In k (map id xs).
Proof.
  unfold hasId. rewrite existsb_exists, in_map_iff. split.
  - intros (e & Hin & E). apply str_eqb_eq in E. eauto.
  - intros (e & E & Hin). exists e. split; [exact Hin|].
    now apply str_eqb_eq.
Qed.

Lemma setAll_keys_In (xs : list Expense) : forall m k,
  In k (keys (setAll xs m)) <-> In k (keys m) \/ In k (map id xs).
Proof.
  induction xs as [|x xs IH]; intros m k; simpl; [tauto|].
  unfold setAll in *. simpl. rewrite IH, keys_set.
  destruct (has (id x) m) eqn:H.
  - apply has_keys in H. split; [tauto|].
    intros [A | [<- | B]]; tauto.
  - rewrite in_app_iff. simpl. tauto.
Qed.

(** An id is in the merged collection when it is in one of the two. *)
Lemma merged_hasId (current incoming : list Expense) (k : jsstring) :
  hasId k (mergeExpenses current incoming).(merged)
  = hasId k current || hasId k incoming.
Proof.
  unfold mergeExpenses. fold (mergeState current incoming). cbn [merged].
  destruct (mergeState_inv current incoming) as [K _].
  apply Bool.eq_iff_eq_true.
  rewrite orb_true_iff, !hasId_In, <- (keys_ids _ K), merged_entries.
  rewrite setAll_keys_In, map_app, in_app_iff. simpl. tauto.
Qed.

(** The record kept under an id is the last one written under it. *)
Lemma merged_find (current incoming : list Expense) (k : jsstring) :
  findById k (mergeExpenses current incoming).(merged)
  = findById k (rev incoming ++ rev current).
Proof.
  unfold mergeExpenses. fold (mergeState current incoming). cbn [merged].
  rewrite merged_entries, find_setAll by constructor.
  simpl. now rewrite rev_app_distr, app_nil_r.
Qed.

(** Records with new and distinct ids are appended and counted as added. *)
Lemma apply_fresh (ys : list Expense) : forall st,
  NoDup (keys st.(entries) ++ map id ys) ->
  fold_left applyIncoming ys st
  = {| entries := st.(entries) ++ entriesOf ys;
       nAdded := st.(nAdded) + List.length ys;
       nUpdated := st.(nUpdated) |}.
Proof.
  induction ys as [|y ys IH]; intros st ND; simpl.
  - rewrite app_nil_r, Nat.add_0_r. now destruct st.
  - assert (New : has (id y) (entries st) = false).
    { apply has_In. intros Hin.
      apply NoDup_remove_2 in ND. apply ND, in_or_app. now left. }
    assert (Step : applyIncoming st y
                   = {| entries := st.(entries) ++ [(id y, y)];
                        nAdded := S st.(nAdded);
                        nUpdated := st.(nUpdated) |}).
    { unfold applyIncoming. now rewrite New, (set_new _ _ _ New). }
    rewrite Step, IH; simpl.
    + rewrite <- app_assoc. simpl. f_equal. lia.
    + unfold keys in *. rewrite map_app, <- app_assoc. exact ND.
Qed.

(** X6: the ids of the merged collection are the ids of the current
    records followed by those of the incoming ones, each id at the place
    where it is first seen: current records keep their order, new ids are
    appended in the order of their arrival; so an id is in the merged
    collection exactly when it is in one of the two. *)
Theorem merged_ids_first_seen (current incoming : list Expense) :
  let r := mergeExpenses current incoming in
  map id r.(merged) = firstSeen (map id current ++ map id incoming)
  /\ (forall k, hasId k r.(merged) = hasId k current || hasId k incoming).
Proof.
  cbv zeta. split; [|intros k; apply merged_hasId].
  unfold mergeExpenses. fold (mergeState current incoming). cbn [merged].
  destruct (mergeState_inv current incoming) as [K _].
  rewrite <- (keys_ids _ K), merged_entries, keys_setAll, map_app.
  reflexivity.
Qed.

Lemma set_length (k : jsstring) (v : Expense) (m : JsMap) :
  List.length (set k v m)
  = if has k m then List.length m else S (List.length m).
Proof.
  induction m as [|[k' v'] m IH]; simpl; [reflexivity|].
  destruct (str_eqb k' k); simpl; [reflexivity|].
  rewrite IH. now destruct (has k m).
Qed.

Lemma growth_fold (incoming : list Expense) : forall st,
  let st' := fold_left applyIncoming incoming st in
  List.length st'.(entries) + st.(nAdded)
  = List.length st.(entries) + st'.(nAdded).
Proof.
  induction incoming as [|x xs IH]; intros st; simpl; [reflexivity|].
  specialize (IH (applyIncoming st x)). cbv zeta in IH.
  assert (Step : List.length (applyIncoming st x).(entries) + st.(nAdded)
                 = List.length st.(entries) + (applyIncoming st x).(nAdded)).
  { unfold applyIncoming.
    destruct (has (id x) (entries st)) eqn:H; simpl; rewrite set_length, H;
      lia. }
  lia.
Qed.

(** X7: the merged collection has as many records as merging the current
    collection alone gives, plus the number reported as added: updates do
    not change its size, and nothing is ever dropped. *)
Theorem merge_growth (current incoming : list Expense) :
  let r := mergeExpenses current incoming in
  List.length r.(merged)
  = List.length (mergeExpenses current []).(merged) + r.(stats).(added).
Proof.
  cbv zeta. unfold mergeExpenses. simpl. unfold values. rewrite !length_map.
  pose proof (growth_fold incoming
                {| entries := loadCurrent current; nAdded := 0;
                   nUpdated := 0 |}) as G.
  simpl in G. lia.
Qed.

End MergeFacts.

(** ** More on the daily statistics *)

Module StatsFacts.
Import JsString JsNumber Model Logic Props JsStringFacts JsNumberFacts.

Lemma min_not_above (a b : number) : ltb b (JsNumber.min a b) = false.
Proof.
  destruct a as [sa|sa| |sa ma ea], b as [sb|sb| |sb mb eb];
    unfold JsNumber.min; try reflexivity;
    match goal with
    | |- context [if ltb ?y ?x then _ else _] =>
        destruct (ltb y x) eqn:E; [apply ltb_irrefl | exact E]
    end.
Qed.

Lemma min_one_of (a b : number) :
  isNaN b = false -> (forall s, b <> S754_zero s) ->
  JsNumber.min a b = a \/ JsNumber.min a b = b.
Proof.
  intros Nb Zb.
  destruct a as [sa|sa| |sa ma ea], b as [sb|sb| |sb mb eb];
    unfold JsNumber.min; try discriminate; try tauto;
    try (exfalso; now apply (Zb sb));
    match goal with
    | |- context [if ltb ?y ?x then _ else _] => destruct (ltb y x); tauto
    end.
Qed.

(** X8: the percentage that is reported is never above 100, whatever the
    records and the limit are, and it is the percentage before capping or
    100 itself. *)
Theorem percentage_capped (expenses : list Expense) (dateStr : jsstring)
        (dailyLimit : number) :
  let s := calculateDailyStats expenses dateStr dailyLimit in
  ltb (ofZ 100) s.(limitPercentage) = false
  /\ (s.(limitPercentage) = rawPercentage s.(todaySpend) dailyLimit
      \/ s.(limitPercentage) = ofZ 100).
Proof.
  cbv zeta. unfold calculateDailyStats. cbn [limitPercentage todaySpend].
  split; [apply min_not_above|].
  apply min_one_of; [reflexivity | intros s; discriminate].
Qed.

(** X9: with a limit that is not above 0 (zero, negative or NaN) the
    near-limit flag is never set and the percentage is 0, whatever was
    spent. *)
Theorem no_warning_without_limit (expenses : list Expense)
        (dateStr : jsstring) (dailyLimit : number) :
  ltb zero dailyLimit = false ->
  let s := calculateDailyStats expenses dateStr dailyLimit in
  s.(isNearLimit) = false /\ s.(limitPercentage) = zero.
Proof.
  intros Low. cbv zeta. unfold calculateDailyStats, rawPercentage.
  cbn [isNearLimit limitPercentage]. rewrite Low.
  split; [apply andb_false_r | reflexivity].
Qed.

Lemma rawPercentage_nothing_spent (dailyLimit : number) :
  rawPercentage zero dailyLimit = zero.
Proof.
  unfold rawPercentage.
  destruct dailyLimit as [s|s| |s m e]; try reflexivity;
    destruct s; reflexivity.
Qed.

Lemma spendOn_other_days (expenses : list Expense) (dateStr : jsstring) :
  forallb (fun e => negb (str_eqb e.(date) dateStr)) expenses = true ->
  spendOn expenses dateStr = zero.
Proof.
  intros H. unfold spendOn.
  replace (filter (fun e => str_eqb (date e) dateStr) expenses) with
    (@nil Expense); [reflexivity|].
  induction expenses as [|x xs IH]; [reflexivity|].
  simpl in *. apply andb_true_iff in H as [Hx H].
  apply negb_true_iff in Hx. rewrite Hx. now apply IH.
Qed.

(** X10: on a day without any record the spend is 0, the percentage is 0
    and the near-limit flag is off for every limit; the over-limit flag is
    set exactly when the limit is below 0. *)
Theorem nothing_spent (expenses : list Expense) (dateStr : jsstring)
        (dailyLimit : number) :
  forallb (fun e => negb (str_eqb e.(date) dateStr)) expenses = true ->
  calculateDailyStats expenses dateStr dailyLimit
  = {| todaySpend := zero; isOverLimit := ltb dailyLimit zero;
       isNearLimit := false; limitPercentage := zero |}.
Proof.
  intros H. unfold calculateDailyStats.
  rewrite (spendOn_other_days _ _ H), rawPercentage_nothing_spent.
  f_equal. apply andb_false_r.
Qed.

End StatsFacts.

(** ** More on the decoder *)

Module DecodeFacts.
Import JsString JsNumber Model Csv Props.
Import JsStringFacts TextFacts ScanFacts CsvFacts RoundTripFacts.

(** *** Escaping and unescaping a description *)

Lemma undouble_double (d : jsstring) : undoubleQuotes (doubleQuotes d) = d.
Proof.
  induction d as [|c d IH]; [reflexivity|].
  change (doubleQuotes (c :: d))
    with ((if char_eqb c QUOTE then [QUOTE; QUOTE] else [c])
            ++ doubleQuotes d).
  destruct (char_eqb c QUOTE) eqn:Q.
  - apply char_eqb_eq in Q. subst c. simpl. now rewrite IH.
  - simpl. rewrite Q. simpl. now rewrite IH.
Qed.

(** X11: the unescaping step of the decoder undoes the escaping of the
    encoder on every description: wrapped in quotes with its quotes doubled
    or left as it is, the written description is turned back into the
    original. *)
Theorem unescape_escape (d : jsstring) :
  unescapeDescription (escapeDescription d) = d.
Proof.
  unfold escapeDescription.
  destruct (includes COMMA d || includes QUOTE d) eqn:W.
  - unfold unescapeDescription, endsWith.
    change ([QUOTE] ++ doubleQuotes d ++ [QUOTE])
      with (QUOTE :: (doubleQuotes d ++ [QUOTE])).
    cbn [rev]. rewrite rev_app_distr. cbn [rev app startsWith].
    rewrite char_eqb_refl. cbn [andb].
    unfold slice_1_m1. cbn [tl]. rewrite removelast_last.
    apply undouble_double.
  - apply orb_false_iff in W as [_ NQ]. now apply unescapeDescription_id.
Qed.

(** *** One row, under a header that has every column *)

Lemma idx_bounds (headers : list jsstring) (col : string) :
  idx headers col = (-1)%Z
  \/ (0 <= idx headers col < Z.of_nat (List.length headers))%Z.
Proof.
  unfold idx.
  destruct (in_dec (list_eq_dec N.eq_dec) (lit col) headers) as [Hin|Hout].
  - right. apply (indexOf_found _ _ Hin).
  - left. now apply indexOf_missing.
Qed.

Lemma required_found (headers : list jsstring) (col : string) :
  anyMissing headers = false -> In col requiredCols ->
  (0 <= idx headers col < Z.of_nat (List.length headers))%Z.
Proof.
  intros Hdr Hin. destruct (idx_bounds headers col) as [E | B]; [|exact B].
  exfalso. unfold anyMissing in Hdr.
  assert (T : existsb (fun c => (idx headers c =? -1)%Z) requiredCols = true).
  { apply existsb_exists. exists col. split; [exact Hin|].
    now apply Z.eqb_eq. }
  congruence.
Qed.

Lemma at_index_some (ps : list jsstring) (i : Z) :
  (0 <= i < Z.of_nat (List.length ps))%Z -> exists s, at_index ps i = Some s.
Proof.
  intros B. unfold at_index.
  destruct (i <? 0)%Z eqn:L; [lia|].
  destruct (nth_error ps (Z.to_nat i)) as [s|] eqn:N; [eauto|].
  apply nth_error_None in N. lia.
Qed.

Lemma trimAt_field (headers ps : list jsstring) (col : string) :
  (0 <= idx headers col < Z.of_nat (List.length ps))%Z ->
  trimAt ps (idx headers col) = Ok (field headers ps col).
Proof.
  intros B. unfold trimAt, field.
  destruct (at_index_some ps _ B) as [s ->]. reflexivity.
Qed.

Lemma trimAtOrEmpty_field (headers ps : list jsstring) (col : string) :
  trimAtOrEmpty ps (idx headers col) = field headers ps col.
Proof.
  unfold trimAtOrEmpty, field.
  destruct (at_index ps (idx headers col)) as [[|c s]|]; reflexivity.
Qed.

(** With every column in the header and enough fields, the [try] block
    reads no missing field, and its outcome is the verdict of the four
    checks. *)
Lemma parseRow_verdict (headers ps : list jsstring) :
  anyMissing headers = false -> List.length headers <= List.length ps ->
  match parseRow headers ps with
  | Ok e => Accepted e
  | Throw m => Rejected m
  end
  = match rowVerdict headers ps with
    | Accepted e =>
        Accepted (withDescription e (unescapeDescription e.(description)))
    | other => other
    end.
Proof.
  intros Hdr Len.
  assert (B : forall col, In col requiredCols ->
                (0 <= idx headers col < Z.of_nat (List.length ps))%Z).
  { intros col Hin. pose proof (required_found headers col Hdr Hin). lia. }
  unfold parseRow, rowVerdict.
  rewrite (trimAt_field headers ps "id"),
    (trimAt_field headers ps "date"),
    (trimAt_field headers ps "amount"),
    (trimAt_field headers ps "category"), !trimAtOrEmpty_field
    by (apply B; simpl; tauto).
  cbn [bind].
  destruct (isEmpty (field headers ps "id")); [reflexivity|].
  destruct (matchesDate (field headers ps "date")); [|reflexivity].
  cbn [negb].
  destruct (isNaN (parseFloat (field headers ps "amount"))); reflexivity.
Qed.

Lemma field_no_quote (headers : list jsstring) (line : jsstring)
      (col : string) :
  includes QUOTE (field headers (splitRow line) col) = false.
Proof.
  unfold field, at_index. destruct (idx headers col <? 0)%Z; [reflexivity|].
  destruct (nth_error _ _) as [s|] eqn:N; [|reflexivity].
  apply (trimmed_part_no_quote line). eapply nth_error_In. exact N.
Qed.

(** What the loop does with a line, as a table. *)
Lemma decodeLine_table (headers : list jsstring) (raw : jsstring) :
  anyMissing headers = false ->
  decodeLine headers raw
  = if isEmpty (trim raw) then Skipped
    else if (List.length (splitRow (trim raw)) <? List.length headers)%nat
    then Rejected (lit "Insufficient columns")
    else rowVerdict headers (splitRow (trim raw)).
Proof.
  intros Hdr. unfold decodeLine.
  destruct (isEmpty (trim raw)); [reflexivity|].
  destruct (Nat.ltb_spec (List.length (splitRow (trim raw)))
                         (List.length headers)) as [L|L]; [reflexivity|].
  rewrite (parseRow_verdict headers _ Hdr L).
  destruct (rowVerdict headers (splitRow (trim raw))) as [| e |] eqn:V;
    try reflexivity.
  f_equal. unfold withDescription.
  assert (D : description e = field headers (splitRow (trim raw)) "description").
  { unfold rowVerdict in V.
    destruct (isEmpty _); [discriminate|].
    destruct (negb _); [discriminate|].
    destruct (isNaN _); [discriminate|]. now injection V as <-. }
  rewrite unescapeDescription_id by (rewrite D; apply field_no_quote).
  now destruct e.
Qed.

Lemma verdict_reasons (headers ps : list jsstring) (reason : jsstring) :
  rowVerdict headers ps = Rejected reason -> In reason rowReasons.
Proof.
  unfold rowVerdict, rowReasons.
  destruct (isEmpty _); [intros E; injection E as <-; simpl; tauto|].
  destruct (negb _); [intros E; injection E as <-; simpl; tauto|].
  destruct (isNaN _); [intros E; injection E as <-; simpl; tauto|].
  discriminate.
Qed.

Lemma rejected_reasons (headers : list jsstring) (raw reason : jsstring) :
  anyMissing headers = false ->
  decodeLine headers raw = Rejected reason -> In reason rowReasons.
Proof.
  intros Hdr. rewrite (decodeLine_table headers raw Hdr).
  destruct (isEmpty (trim raw)); [discriminate|].
  destruct (_ <? _)%nat.
  - intros E. injection E as <-. simpl. tauto.
  - apply verdict_reasons.
Qed.

(** X12: under a header that has every required column, a line is skipped
    when it is blank, rejected for its number of columns when it has fewer
    fields than the header has cells, and otherwise judged by the four
    checks in their order (id, then date, then amount); the error of
    reading a missing field is never what a row is rejected for. *)
Theorem validation_order (headers : list jsstring) (raw : jsstring) :
  anyMissing headers = false ->
  decodeLine headers raw
  = (if isEmpty (trim raw) then Skipped
     else if (List.length (splitRow (trim raw)) <? List.length headers)%nat
     then Rejected (lit "Insufficient columns")
     else rowVerdict headers (splitRow (trim raw)))
  /\ decodeLine headers raw <> Rejected undefinedTrim.
Proof.
  intros Hdr. split; [exact (decodeLine_table headers raw Hdr)|].
  intros E. apply (rejected_reasons headers raw _ Hdr) in E.
  unfold rowReasons in E. simpl in E.
  destruct E as [E | [E | [E | [E | []]]]]; discriminate E.
Qed.

(** X13: past the header check every problem of a decode reads
    [Line n: reason], where [n] is the number of a line after the header
    and the reason is one of the four: insufficient columns, missing id,
    invalid date format, invalid amount. *)
Theorem error_taxonomy (csvText : jsstring) :
  let lines := splitLines csvText in
  2 <= List.length lines -> anyMissing (headerOf lines) = false ->
  Forall (fun m => exists n reason,
              2 <= n <= List.length lines /\ In reason rowReasons
              /\ m = lit "Line " ++ ofNat n ++ lit ": " ++ reason)
         (importExpenses csvText).(errors).
Proof.
  intros lines Len Hdr. subst lines.
  destruct (import_valid csvText Len Hdr) as [_ R]. rewrite R.
  apply Forall_forall. intros m Hin.
  apply in_flat_map in Hin as (i & Hi & Hm). apply in_seq in Hi.
  unfold rowErrors in Hm.
  destruct (decodeLine _ _) as [| |reason] eqn:D; simpl in Hm; try tauto.
  destruct Hm as [<- | []]. exists (i + 1), reason. split; [lia|].
  split; [|reflexivity]. exact (rejected_reasons _ _ _ Hdr D).
Qed.

(** *** What a decoded record is like *)

Lemma split_no_sep (sep : char) (s : jsstring) :
  Forall (fun p => includes sep p = false) (split sep s).
Proof.
  induction s as [|c s IH]; simpl; [now repeat constructor|].
  destruct (char_eqb c sep) eqn:Q.
  - now constructor.
  - destruct (split sep s) as [|f fs].
    + constructor; [|constructor]. simpl. now rewrite char_eqb_sym, Q.
    + inversion IH as [|? ? Hf Hfs]; subst. constructor; [|exact Hfs].
      rewrite includes_cons, Hf, char_eqb_sym, Q. reflexivity.
Qed.

Lemma split_sub (sep c : char) (s : jsstring) :
  includes c s = false ->
  Forall (fun p => includes c p = false) (split sep s).
Proof.
  induction s as [|d s IH]; simpl; [now repeat constructor|].
  intros H. apply orb_false_iff in H as [E H]. specialize (IH H).
  destruct (char_eqb d sep).
  - now constructor.
  - destruct (split sep s) as [|f fs].
    + constructor; [|constructor]. simpl. now rewrite E.
    + inversion IH as [|? ? Hf Hfs]; subst. constructor; [|exact Hfs].
      now rewrite includes_cons, E, Hf.
Qed.

Lemma parseTags_clean (s : jsstring) :
  includes QUOTE s = false ->
  Forall (fun t => includes SEMI t = false /\ includes QUOTE t = false)
         (parseTags s).
Proof.
  intros NQ. unfold parseTags. destruct s as [|c s]; [constructor|].
  apply Forall_forall. intros t Hin.
  apply filter_In in Hin as [Hin _]. apply in_map_iff in Hin as (u & <- & Hu).
  pose proof (split_no_sep SEMI (c :: s)) as A.
  pose proof (split_sub SEMI QUOTE (c :: s) NQ) as B.
  rewrite Forall_forall in A, B.
  split; apply includes_trim; [now apply A | now apply B].
Qed.

(** X14: every record of a decode has an id that is not empty, a date in
    the 4-2-2 digit pattern and a category that is not empty; its id, its
    category and its tags hold no double quote, and no tag holds a
    semicolon. *)
Theorem decoded_record_valid (csvText : jsstring) (e : Expense) :
  In e (importExpenses csvText).(expenses) ->
  e.(id) <> [] /\ matchesDate e.(date) = true /\ e.(category) <> []
  /\ includes QUOTE e.(id) = false /\ includes QUOTE e.(category) = false
  /\ Forall (fun t => includes SEMI t = false /\ includes QUOTE t = false)
            e.(tags).
Proof.
  intros Hin. apply accepted_rows in Hin as (headers & raw & D).
  apply decodeLine_accepted, parseRow_ok in D.
  destruct D as (i & d & a & c & Hi & _ & _ & Hc & Ne & Md & _ & ->).
  apply trimAt_ok in Hi as (ri & Iin & ->).
  apply trimAt_ok in Hc as (rc & Cin & ->).
  cbn [id date category tags].
  split; [intros E; rewrite E in Ne; discriminate|].
  split; [exact Md|]. split.
  - destruct (trim rc); discriminate.
  - split; [exact (trimmed_part_no_quote _ _ Iin)|]. split.
    + destruct (isEmpty (trim rc)); [reflexivity|].
      exact (trimmed_part_no_quote _ _ Cin).
    + apply parseTags_clean.
      destruct (trimAtOrEmpty_cases (splitRow (trim raw)) (idx headers "tags"))
        as [-> | (rt & Tin & ->)]; [reflexivity|].
      exact (trimmed_part_no_quote _ _ Tin).
Qed.

(** *** Every line is accounted for *)

Lemma decodeLine_skipped (headers : list jsstring) (raw : jsstring) :
  match decodeLine headers raw with
  | Skipped => isEmpty (trim raw) = true
  | _ => isEmpty (trim raw) = false
  end.
Proof.
  unfold decodeLine. destruct (isEmpty (trim raw)); [reflexivity|].
  destruct (_ <? _)%nat; [reflexivity|].
  now destruct (parseRow _ _).
Qed.

Lemma rows_accounted (headers lines : list jsstring) (rows : list nat) :
  List.length (flat_map (rowExpenses headers lines) rows)
  + List.length (flat_map (rowErrors headers lines) rows)
  = List.length
      (filter (fun l => negb (isEmpty (trim l)))
              (map (fun i => nth i lines []) rows)).
Proof.
  induction rows as [|i rows IH]; [reflexivity|].
  simpl. rewrite !length_app. unfold rowExpenses at 1, rowErrors at 1.
  pose proof (decodeLine_skipped headers (nth i lines [])) as S.
  destruct (decodeLine headers (nth i lines [])); rewrite S; simpl; lia.
Qed.

Lemma nth_rows (rows : list jsstring) : forall pre,
  map (fun i => nth i (pre ++ rows) [])
      (seq (List.length pre) (List.length rows))
  = rows.
Proof.
  induction rows as [|r rows IH]; intros pre; [reflexivity|].
  simpl. rewrite nth_middle. f_equal.
  specialize (IH (pre ++ [r])).
  rewrite <- app_assoc, length_app, Nat.add_1_r in IH. exact IH.
Qed.

Lemma data_rows (hd : jsstring) (rows : list jsstring) :
  map (fun i => nth i (hd :: rows) []) (seq 1 (List.length rows)) = rows.
Proof. exact (nth_rows rows [hd]). Qed.

(** X15: past the header check, the records and the problems of a decode
    together are as many as the lines after the header that are not blank:
    every such line gives one record or one problem, and nothing else
    does. *)
Theorem every_line_accounted (csvText : jsstring) :
  let lines := splitLines csvText in
  let r := importExpenses csvText in
  2 <= List.length lines -> anyMissing (headerOf lines) = false ->
  List.length r.(expenses) + List.length r.(errors)
  = List.length (dataLines lines).
Proof.
  intros lines r Len Hdr. subst lines r.
  destruct (import_valid csvText Len Hdr) as [E R]. rewrite E, R.
  rewrite rows_accounted. unfold dataLines.
  destruct (splitLines csvText) as [|hd rows]; [simpl in Len; lia|].
  replace (List.length (hd :: rows) - 1) with (List.length rows)
    by (simpl; lia).
  cbn [tl]. now rewrite data_rows.
Qed.

(** *** Line terminators *)

Lemma splitLines_app_crlf (l r : jsstring) :
  lineSafe l = true -> splitLines (l ++ CR :: LF :: r) = l :: splitLines r.
Proof.
  induction l as [|c l IH]; intros S; [reflexivity|].
  apply lineSafe_cons in S as (E & Sl & Last).
  change ((c :: l) ++ CR :: LF :: r) with (c :: (l ++ CR :: LF :: r)).
  cbn [splitLines]. rewrite E.
  replace (char_eqb c CR
           && match l ++ CR :: LF :: r with
              | d :: _ => char_eqb d LF
              | [] => false
              end)
    with false.
  - now rewrite (IH Sl).
  - symmetry. destruct l as [|d l].
    + simpl. apply andb_false_r.
    + apply lineSafe_cons in Sl as (Ed & _). simpl. rewrite Ed.
      apply andb_false_r.
Qed.

Lemma splitLines_join_crlf (ls : list jsstring) : forall l,
  forallb lineSafe (l :: ls) = true ->
  splitLines (join [CR; LF] (l :: ls)) = l :: ls.
Proof.
  induction ls as [|l2 ls IH]; intros l H.
  - simpl in *. rewrite andb_true_r in H. apply splitLines_single.
    unfold lineSafe in H. apply andb_true_iff in H as [H _].
    now apply negb_true_iff.
  - change (join [CR; LF] (l :: l2 :: ls))
      with (l ++ CR :: LF :: join [CR; LF] (l2 :: ls)).
    apply andb_true_iff in H as [Hl H].
    rewrite (splitLines_app_crlf _ _ Hl). f_equal. apply IH. exact H.
Qed.

(** X16: lines ended by carriage return and line feed decode like the
    same lines ended by a line feed alone: for lines that hold no line
    feed and do not end in a carriage return, both texts are split into
    these very lines, and the two decodes are the same. *)
Theorem crlf_like_lf (ls : list jsstring) :
  forallb lineSafe ls = true ->
  (ls <> [] -> splitLines (join [CR; LF] ls) = ls)
  /\ importExpenses (join [CR; LF] ls) = importExpenses (join [LF] ls).
Proof.
  intros H. destruct ls as [|l ls]; [split; [congruence | reflexivity]|].
  pose proof (splitLines_join_crlf ls l H) as A.
  pose proof (splitLines_join ls l H) as B.
  split; [intros _; exact A|].
  unfold importExpenses. now rewrite A, B.
Qed.

(** *** Fields beyond the header *)

Lemma at_index_app (ps extra : list jsstring) (i : Z) :
  (i < Z.of_nat (List.length ps))%Z ->
  at_index (ps ++ extra) i = at_index ps i.
Proof.
  intros B. unfold at_index. destruct (i <? 0)%Z eqn:L; [reflexivity|].
  apply nth_error_app1. lia.
Qed.

(** X17: fields beyond the cells of the header are ignored: a row with
    at least as many fields as the header has cells is read the same
    whatever follows these fields. *)
Theorem extra_fields_ignored (headers ps extra : list jsstring) :
  List.length headers <= List.length ps ->
  parseRow headers (ps ++ extra) = parseRow headers ps.
Proof.
  intros Len.
  assert (A : forall col,
             at_index (ps ++ extra) (idx headers col)
             = at_index ps (idx headers col)).
  { intros col. apply at_index_app.
    destruct (idx_bounds headers col) as [-> | B]; lia. }
  unfold parseRow, trimAt, trimAtOrEmpty. now rewrite !A.
Qed.

(** *** Decoding what the encoder wrote, whatever the records are *)

Lemma not_file_level (csvText : jsstring) :
  2 <= List.length (splitLines csvText) ->
  anyMissing (headerOf (splitLines csvText)) = false ->
  ~ fileLevelFailure (importExpenses csvText).
Proof.
  intros Len Hdr F. unfold fileLevelFailure in F. destruct F as [_ F].
  destruct (import_valid csvText Len Hdr) as [_ R]. rewrite R in F.
  set (errs := flat_map (rowErrors (headerOf (splitLines csvText))
                           (splitLines csvText))
                 (seq 1 (List.length (splitLines csvText) - 1))) in *.
  assert (Q : exists i reason, hd [] errs = lineError i reason).
  { apply (rejected_rows (headerOf (splitLines csvText)) (splitLines csvText)
             (seq 1 (List.length (splitLines csvText) - 1))).
    fold errs. destruct F as [F | F]; rewrite F; now left. }
  destruct Q as (i & reason & Q).
  destruct (lineError_not_file_level i reason) as [A B].
  destruct F as [F | F]; rewrite F in Q; simpl in Q; congruence.
Qed.

Lemma encoded_header (x : Expense) (xs : list Expense) :
  exists rest,
    splitLines (generateCSVString (x :: xs)) = csvHeader :: rest
    /\ rest <> [].
Proof.
  unfold generateCSVString.
  change (join [COMMA] headerCols) with csvHeader.
  change (join [LF] (csvHeader :: map csvRow (x :: xs)))
    with (csvHeader ++ LF :: join [LF] (map csvRow (x :: xs))).
  rewrite splitLines_app by reflexivity.
  eexists. split; [reflexivity | apply splitLines_nonempty].
Qed.

(** X18: the decode of an encoding gives up on the whole file exactly when
    the collection is empty, whatever its records hold: an empty collection
    is written as the header alone and read back as an empty file, and any
    other one gets past the header check. *)
Theorem encoding_accepted (xs : list Expense) :
  (fileLevelFailure (importExpenses (generateCSVString xs)) <-> xs = [])
  /\ importExpenses (generateCSVString [])
     = {| expenses := []; errors := [emptyFile] |}.
Proof.
  split; [|reflexivity]. destruct xs as [|x xs].
  - split; [reflexivity|]. intros _. split; [reflexivity | now left].
  - split; [|discriminate]. intros F. exfalso. revert F.
    destruct (encoded_header x xs) as (rest & SL & Ne).
    apply not_file_level; rewrite SL.
    + destruct rest; [congruence | simpl; lia].
    + reflexivity.
Qed.

End DecodeFacts.

(** ** The filtering wrapper, and importing into a collection *)

Module ParseFacts.
Import JsString JsNumber Model Csv Logic Props.
Import JsStringFacts LogicFacts ListFacts MergeFacts.

Lemma str_eqb_sym (a b : jsstring) : str_eqb a b = str_eqb b a.
Proof.
  destruct (str_eqb a b) eqn:Q.
  - apply str_eqb_eq in Q. subst. symmetry. apply str_eqb_refl.
  - destruct (str_eqb b a) eqn:Q'; [|reflexivity].
    apply str_eqb_eq in Q'. subst. now rewrite str_eqb_refl in Q.
Qed.

Lemma known_id (k : jsstring) (xs : list Expense) :
  existsb (str_eqb k) (map id xs) = hasId k xs.
Proof.
  unfold hasId. induction xs as [|x xs IH]; simpl; [reflexivity|].
  now rewrite IH, (str_eqb_sym k).
Qed.

Lemma parse_new (csvText : jsstring) (existing : list Expense) :
  (parseCSV csvText existing).(newExpenses)
  = filter (fun e => negb (hasId e.(id) existing))
           (importExpenses csvText).(expenses).
Proof.
  unfold parseCSV. cbn [newExpenses]. apply filter_ext.
  intros e. now rewrite known_id.
Qed.

Lemma filter_none {A} (p : A -> bool) (l : list A) :
  (forall x, In x l -> p x = false) -> filter p l = [].
Proof.
  induction l as [|x l IH]; intros H; [reflexivity|].
  simpl. rewrite (H x (or_introl eq_refl)). apply IH.
  intros y Hy. apply H. now right.
Qed.

(** X19: [parseCSV] returns the decoded records whose id is not in the
    existing collection, in their order, counts them, and counts the
    problems of the decode; none of the records it returns has an existing
    id, and against an empty collection it returns every decoded record. *)
Theorem parse_filters_existing (csvText : jsstring)
        (existing : list Expense) :
  let d := importExpenses csvText in
  let r := parseCSV csvText existing in
  r.(newExpenses) = filter (fun e => negb (hasId e.(id) existing)) d.(expenses)
  /\ forallb (fun e => negb (hasId e.(id) existing)) r.(newExpenses) = true
  /\ r.(count) = List.length r.(newExpenses)
  /\ r.(count) <= List.length d.(expenses)
  /\ r.(errorCount) = List.length d.(errors)
  /\ (parseCSV csvText []).(newExpenses) = d.(expenses).
Proof.
  cbv zeta. pose proof (parse_new csvText existing) as N.
  split; [exact N|]. split; [|split; [|split; [|split]]].
  - rewrite N. apply forallb_forall. intros e Hin.
    now apply filter_In in Hin.
  - reflexivity.
  - change (count (parseCSV csvText existing))
      with (List.length (newExpenses (parseCSV csvText existing))).
    rewrite N. apply filter_length_le.
  - reflexivity.
  - rewrite parse_new. apply forallb_filter_id, forallb_forall.
    intros e _. reflexivity.
Qed.

(** X20: once a file has been imported into a collection, with or without
    the filter of [parseCSV], the same file holds nothing new for the
    merged collection: [parseCSV] against it returns no record and counts
    0. *)
Theorem second_import_finds_nothing (csvText : jsstring)
        (existing : list Expense) :
  let viaFilter :=
    (mergeExpenses existing (parseCSV csvText existing).(newExpenses)).(merged) in
  let direct :=
    (mergeExpenses existing (importExpenses csvText).(expenses)).(merged) in
  parseCSV csvText viaFilter
  = {| newExpenses := []; count := 0;
       errorCount := List.length (importExpenses csvText).(errors) |}
  /\ parseCSV csvText direct
     = {| newExpenses := []; count := 0;
          errorCount := List.length (importExpenses csvText).(errors) |}.
Proof.
  cbv zeta.
  assert (G : forall m,
             (forall e, In e (importExpenses csvText).(expenses) ->
                        hasId e.(id) m = true) ->
             parseCSV csvText m
             = {| newExpenses := []; count := 0;
                  errorCount := List.length (importExpenses csvText).(errors) |}).
  { intros m Hm. pose proof (parse_new csvText m) as N.
    rewrite filter_none in N
      by (intros e He; now rewrite (Hm e He)).
    unfold parseCSV in *. cbn [newExpenses] in N. now rewrite N. }
  split; apply G; intros e He; rewrite merged_hasId.
  - destruct (hasId (id e) existing) eqn:H; [reflexivity|]. cbn [orb].
    rewrite parse_new. unfold hasId. apply existsb_exists. exists e.
    split; [|apply str_eqb_refl]. apply filter_In. split; [exact He|].
    fold (hasId (id e) existing). now rewrite H.
  - apply orb_true_iff. right. unfold hasId. apply existsb_exists.
    exists e. split; [exact He | apply str_eqb_refl].
Qed.

Lemma find_none (k : jsstring) (xs : list Expense) :
  hasId k xs = false -> findById k xs = None.
Proof.
  rewrite hasId_find. now destruct (findById k xs).
Qed.

Lemma hasId_rev (k : jsstring) (xs : list Expense) :
  hasId k (rev xs) = hasId k xs.
Proof.
  apply Bool.eq_iff_eq_true. rewrite !hasId_In, map_rev. symmetry.
  apply in_rev.
Qed.

Lemma hasId_filter (k : jsstring) (p : Expense -> bool) (xs : list Expense) :
  hasId k (filter p xs) = true ->
  exists e, In e xs /\ p e = true /\ e.(id) = k.
Proof.
  unfold hasId. rewrite existsb_exists. intros (e & Hin & E).
  apply filter_In in Hin as [Hin P]. apply str_eqb_eq in E. eauto.
Qed.

(** X21: merging what [parseCSV] returns never overwrites: under an id of
    the existing collection the merged collection keeps the existing
    record, and under any other id the record of the file. *)
Theorem filtered_import_keeps_existing (csvText : jsstring)
        (existing : list Expense) (k : jsstring) :
  let fresh := (parseCSV csvText existing).(newExpenses) in
  findById k (mergeExpenses existing fresh).(merged)
  = match findById k (rev existing) with
    | Some e => Some e
    | None => findById k (rev fresh)
    end.
Proof.
  cbv zeta. rewrite merged_find, find_app.
  destruct (findById k (rev existing)) as [e|] eqn:Q.
  - rewrite find_none; [reflexivity|].
    rewrite hasId_rev.
    destruct (hasId k (newExpenses (parseCSV csvText existing))) eqn:H;
      [|reflexivity].
    rewrite parse_new in H. apply hasId_filter in H as (x & _ & P & E).
    subst k. apply negb_true_iff in P.
    rewrite <- hasId_rev, hasId_find, Q in P. discriminate.
  - now destruct (findById k (rev (newExpenses (parseCSV csvText existing)))).
Qed.

Lemma filter_ids_disjoint (existing decoded : list Expense) :
  NoDup (map id existing) ->
  NoDup (map id (filter (fun e => negb (hasId e.(id) existing)) decoded)) ->
  NoDup (map id existing
           ++ map id (filter (fun e => negb (hasId e.(id) existing)) decoded)).
Proof.
  intros A B. apply NoDup_app; [exact A | exact B |].
  intros k Hk Hin. apply in_map_iff in Hin as (e & <- & He).
  apply filter_In in He as [_ P]. apply negb_true_iff in P.
  apply hasId_In in Hk. congruence.
Qed.

(** X22: when the existing ids are distinct and so are the ids of the
    records that [parseCSV] returns, merging these records appends them to
    the existing collection in their order: all are counted as added,
    none as updated. *)
Theorem filtered_import_appends (csvText : jsstring)
        (existing : list Expense) :
  let p := parseCSV csvText existing in
  NoDup (map id existing) -> NoDup (map id p.(newExpenses)) ->
  mergeExpenses existing p.(newExpenses)
  = {| merged := existing ++ p.(newExpenses);
       stats := {| added := p.(count); updated := 0; skipped := 0 |} |}.
Proof.
  cbv zeta. intros A B.
  change (count (parseCSV csvText existing))
    with (List.length (newExpenses (parseCSV csvText existing))).
  rewrite parse_new in *.
  pose proof (filter_ids_disjoint existing _ A B) as D.
  unfold mergeExpenses. rewrite (loadCurrent_nodup existing A).
  rewrite apply_fresh by (cbn [entries]; now rewrite keys_entriesOf).
  cbn [entries nAdded nUpdated]. unfold values, entriesOf.
  rewrite map_app, !map_map. simpl. now rewrite !map_id.
Qed.

End ParseFacts.

(** ** Encoding, then decoding, descriptions with quotes *)

Module QuoteFacts.
Import JsString JsNumber Model Csv Logic Props.
Import JsStringFacts TextFacts ScanFacts CsvFacts NumberTextFacts.
Import RoundTripFacts.

Lemma removeQuotes_id (d : jsstring) :
  includes QUOTE d = false -> removeQuotes d = d.
Proof.
  intros NQ. unfold removeQuotes. apply forallb_filter_id, forallb_forall.
  intros c Hin. apply negb_true_iff.
  destruct (char_eqb c QUOTE) eqn:Q; [|reflexivity].
  apply char_eqb_eq in Q. subst c. apply includes_In in Hin. congruence.
Qed.

Lemma removeQuotes_no_quote (d : jsstring) :
  includes QUOTE (removeQuotes d) = false.
Proof.
  unfold removeQuotes. destruct (includes QUOTE (filter _ d)) eqn:Q;
    [|reflexivity].
  apply includes_In, filter_In in Q as [_ Q].
  now rewrite char_eqb_refl in Q.
Qed.

Lemma removeQuotes_sub (c : char) (d : jsstring) :
  includes c d = false -> includes c (removeQuotes d) = false.
Proof.
  intros H. unfold removeQuotes.
  destruct (includes c (filter _ d)) eqn:Q; [|reflexivity].
  apply includes_In, filter_In in Q as [Q _]. apply includes_In in Q.
  congruence.
Qed.

(** Inside quotes the scanner keeps every character of a doubled text but
    its quotes, and is inside quotes again at its end. *)
Lemma scan_doubled (d : jsstring) : forall st,
  st.(inQuotes) = true ->
  fold_left scanChar (doubleQuotes d) st
  = {| parts := st.(parts); current := st.(current) ++ removeQuotes d;
       inQuotes := true |}.
Proof.
  induction d as [|c d IH]; intros st Q.
  - simpl. rewrite app_nil_r. destruct st. simpl in Q. now subst.
  - change (doubleQuotes (c :: d))
      with ((if char_eqb c QUOTE then [QUOTE; QUOTE] else [c])
              ++ doubleQuotes d).
    rewrite fold_left_app. unfold removeQuotes. cbn [filter].
    fold (removeQuotes d).
    destruct (char_eqb c QUOTE) eqn:E; cbn [negb].
    + cbn [fold_left]. rewrite !scanChar_quote. cbn [parts current inQuotes].
      rewrite IH by (cbn [inQuotes]; now rewrite Q). reflexivity.
    + cbn [fold_left].
      assert (Step : scanChar st c
                     = {| parts := st.(parts); current := st.(current) ++ [c];
                          inQuotes := true |}).
      { unfold scanChar. now rewrite E, Q, andb_false_r. }
      rewrite Step, IH by reflexivity. cbn [parts current].
      now rewrite <- app_assoc.
Qed.

(** A description written by the encoder, and the comma after it, close one
    part: the description without its quotes. *)
Lemma scan_escaped (d rest : jsstring) (st : Scan) :
  st.(inQuotes) = false ->
  fold_left scanChar (escapeDescription d ++ COMMA :: rest) st
  = fold_left scanChar rest
      {| parts := st.(parts) ++ [st.(current) ++ removeQuotes d];
         current := []; inQuotes := false |}.
Proof.
  intros Q. unfold escapeDescription.
  destruct (includes COMMA d || includes QUOTE d) eqn:W.
  - destruct st as [ps cur q]. simpl in Q. subst q.
    change (([QUOTE] ++ doubleQuotes d ++ [QUOTE]) ++ COMMA :: rest)
      with (QUOTE :: ((doubleQuotes d ++ [QUOTE]) ++ COMMA :: rest)).
    cbn [fold_left]. rewrite scanChar_quote. cbn [parts current inQuotes negb].
    rewrite <- app_assoc, fold_left_app.
    rewrite scan_doubled by reflexivity. cbn [parts current app fold_left].
    rewrite scanChar_quote. cbn [parts current inQuotes negb].
    rewrite scanChar_comma by reflexivity. reflexivity.
  - apply orb_false_iff in W as [NC NQ].
    rewrite (removeQuotes_id _ NQ). now apply scan_field.
Qed.

Lemma escaped_no_line_feed (d : jsstring) :
  includes LF d = false -> includes LF (escapeDescription d) = false.
Proof.
  intros NL. unfold escapeDescription.
  destruct (includes COMMA d || includes QUOTE d); [|exact NL].
  rewrite !includes_app. simpl. rewrite orb_false_r.
  induction d as [|c d IH]; [reflexivity|].
  rewrite includes_cons in NL. apply orb_false_iff in NL as [E NL].
  change (doubleQuotes (c :: d))
    with ((if char_eqb c QUOTE then [QUOTE; QUOTE] else [c])
            ++ doubleQuotes d).
  rewrite includes_app, (IH NL), orb_false_r.
  destruct (char_eqb c QUOTE); [reflexivity|].
  now rewrite includes_cons, E.
Qed.

Section QuotedRow.
Variable e : Expense.
Hypothesis EN : encodable e.

Lemma quoted_row_unfold :
  csvRow e
  = e.(id) ++ COMMA :: e.(date) ++ COMMA :: toString e.(amount) ++ COMMA
      :: e.(category) ++ COMMA :: escapeDescription e.(description) ++ COMMA
      :: tagsText e.
Proof. reflexivity. Qed.

Lemma quoted_tags_plain (c : char) :
  char_eqb c SEMI = false ->
  (forall t, plainField t = true -> includes c t = false) ->
  includes c (tagsText e) = false.
Proof.
  intros Hc Hp. destruct EN as (_ & _ & _ & _ & _ & _ & _ & _ & _ & T).
  apply tagsText_plain; [exact Hc | | exact T].
  intros t Ht. apply tagOk_parts in Ht as (P & _). now apply Hp.
Qed.

Lemma quoted_splitRow :
  splitRow (csvRow e)
  = [e.(id); e.(date); toString e.(amount); e.(category);
     removeQuotes e.(description); tagsText e].
Proof.
  destruct EN as (I & _ & D & _ & _ & C & _ & _ & _ & T).
  apply plainField_parts in I as (Ic & Iq & _ & _).
  apply matchesDate_plain, plainField_parts in D as (Dc & Dq & _ & _).
  destruct (plainField_parts _ (toString_plain (amount e)))
    as (Ac & Aq & _ & _).
  apply plainField_parts in C as (Cc & Cq & _ & _).
  unfold splitRow, scanLine. rewrite quoted_row_unfold.
  do 4 (rewrite scan_field by first [assumption | reflexivity]).
  rewrite scan_escaped by reflexivity.
  rewrite scan_chars.
  - reflexivity.
  - apply quoted_tags_plain; [reflexivity|].
    intros t P. now apply plainField_parts in P.
  - right. apply quoted_tags_plain; [reflexivity|].
    intros t P. now apply plainField_parts in P.
Qed.

Lemma quoted_row_last :
  exists c, lastChar (csvRow e) = Some c /\ isWhiteSpace c = false.
Proof.
  destruct EN as (_ & _ & _ & _ & _ & _ & _ & _ & _ & T).
  pose proof (tagsText_last _ T) as L. fold (tagsText e) in L.
  rewrite quoted_row_unfold.
  rewrite lastChar_app, lastChar_cons, lastChar_app, lastChar_cons,
    lastChar_app, lastChar_cons, lastChar_app, lastChar_cons,
    lastChar_app, lastChar_cons.
  destruct (lastChar (tagsText e)) as [c|]; eauto.
Qed.

Lemma quoted_row_first :
  exists c r, csvRow e = c :: r /\ isWhiteSpace c = false.
Proof.
  destruct EN as (I & Ne & _).
  apply plainField_parts in I as (_ & _ & _ & C).
  unfold edgeClean in C. apply andb_true_iff in C as [H _].
  rewrite quoted_row_unfold. destruct (id e) as [|c r]; [congruence|].
  simpl in H. apply negb_true_iff in H. simpl. eauto.
Qed.

Lemma quoted_row_trim : trim (csvRow e) = csvRow e.
Proof.
  apply trim_id. unfold edgeClean. rewrite headClean_rev.
  destruct quoted_row_last as (d & L & Wd). rewrite L.
  destruct quoted_row_first as (c & r & E & W). rewrite E.
  simpl. now rewrite W, Wd.
Qed.

Lemma quoted_row_lineSafe : lineSafe (csvRow e) = true.
Proof.
  unfold lineSafe. apply andb_true_iff. split; apply negb_true_iff.
  - destruct EN as (I & _ & D & _ & _ & C & _ & NL & _ & T).
    apply plainField_parts in I as (_ & _ & Il & _).
    apply matchesDate_plain, plainField_parts in D as (_ & _ & Dl & _).
    destruct (plainField_parts _ (toString_plain (amount e)))
      as (_ & _ & Al & _).
    apply plainField_parts in C as (_ & _ & Cl & _).
    rewrite quoted_row_unfold.
    repeat (rewrite includes_app || rewrite includes_cons).
    rewrite Il, Dl, Al, Cl, (escaped_no_line_feed _ NL). simpl.
    apply quoted_tags_plain; [reflexivity|].
    intros t P. now apply plainField_parts in P.
  - rewrite endsWith_lastChar. destruct quoted_row_last as (d & -> & Wd).
    destruct (char_eqb d CR) eqn:Q; [|reflexivity].
    apply char_eqb_eq in Q. subst d. discriminate.
Qed.

Lemma quoted_tags_edges : edgeClean (tagsText e) = true.
Proof.
  destruct EN as (_ & _ & _ & _ & _ & _ & _ & _ & _ & T).
  unfold edgeClean. rewrite headClean_rev.
  pose proof (tagsText_last _ T) as L. fold (tagsText e) in L.
  apply andb_true_iff. split.
  - unfold tagsText. destruct (tags e) as [|t ts]; [reflexivity|].
    simpl in T. apply andb_true_iff in T as [Ht _].
    apply tagOk_parts in Ht as (P & _ & Nt).
    apply plainField_parts in P as (_ & _ & _ & Pe).
    unfold edgeClean in Pe. apply andb_true_iff in Pe as [Ph _].
    destruct ts; [exact Ph|].
    rewrite join_cons2. rewrite headClean_app by exact Nt. exact Ph.
  - destruct (lastChar (tagsText e)); [now rewrite L | reflexivity].
Qed.

Lemma quoted_parseRow :
  parseRow headerCols (splitRow (csvRow e)) = Ok (decoded e).
Proof.
  rewrite quoted_splitRow.
  pose proof quoted_tags_edges as Te.
  destruct EN as (I & Ne & D & Nan & Num & C & Nc & _ & Dse & T).
  apply plainField_parts in I as (_ & _ & _ & Ie).
  pose proof (matchesDate_plain _ D) as Dp.
  apply plainField_parts in Dp as (_ & _ & _ & De).
  destruct (plainField_parts _ (toString_plain (amount e)))
    as (_ & _ & _ & Ae).
  apply plainField_parts in C as (_ & _ & _ & Ce).
  unfold parseRow.
  change (idx headerCols "id") with 0%Z.
  change (idx headerCols "date") with 1%Z.
  change (idx headerCols "amount") with 2%Z.
  change (idx headerCols "category") with 3%Z.
  change (idx headerCols "description") with 4%Z.
  change (idx headerCols "tags") with 5%Z.
  set (ps := [id e; date e; toString (amount e); category e;
              removeQuotes (description e); tagsText e]).
  rewrite (trimAt_some ps 0 (id e) eq_refl Ie),
    (trimAt_some ps 1 (date e) eq_refl De),
    (trimAt_some ps 2 (toString (amount e)) eq_refl Ae),
    (trimAt_some ps 3 (category e) eq_refl Ce),
    (trimAtOrEmpty_some ps 4 (removeQuotes (description e)) eq_refl Dse),
    (trimAtOrEmpty_some ps 5 (tagsText e) eq_refl Te).
  cbn [bind]. rewrite Num, Nan, D. cbn [negb].
  replace (isEmpty (id e)) with false by (now destruct (id e)).
  replace (isEmpty (category e)) with false by (now destruct (category e)).
  rewrite (unescapeDescription_id _ (removeQuotes_no_quote _)).
  unfold tagsText. rewrite (parseTags_join _ T).
  reflexivity.
Qed.

Lemma quoted_decodeLine :
  decodeLine headerCols (csvRow e) = Accepted (decoded e).
Proof.
  unfold decodeLine. rewrite quoted_row_trim.
  destruct quoted_row_first as (c & r & E & _).
  replace (isEmpty (csvRow e)) with false by (now rewrite E).
  rewrite quoted_parseRow, quoted_splitRow. reflexivity.
Qed.

End QuotedRow.

(** *** A whole collection *)

Lemma encoded_lines_quoted (xs : list Expense) :
  Forall encodable xs ->
  splitLines (generateCSVString xs) = csvHeader :: map csvRow xs.
Proof.
  intros F. unfold generateCSVString.
  change (join [COMMA] headerCols) with csvHeader.
  apply splitLines_join. simpl. apply forallb_forall.
  intros row Hin. apply in_map_iff in Hin as (e & <- & He).
  rewrite Forall_forall in F. apply quoted_row_lineSafe, F, He.
Qed.

Lemma quoted_rows_accepted (xs : list Expense) :
  Forall encodable xs ->
  flat_map (lineExpenses headerCols) (map csvRow xs) = map decoded xs.
Proof.
  induction 1 as [|e xs He _ IH]; [reflexivity|].
  simpl. unfold lineExpenses at 1.
  rewrite (quoted_decodeLine e He), IH. reflexivity.
Qed.

Lemma decode_encodable (xs : list Expense) :
  Forall encodable xs ->
  let r := importExpenses (generateCSVString xs) in
  r.(expenses) = map decoded xs /\ (xs <> [] -> r.(errors) = []).
Proof.
  intros F. cbv zeta.
  destruct xs as [|e0 xs0] eqn:Q; [split; [reflexivity | congruence]|].
  rewrite <- Q in *. assert (Ne : xs <> []) by (rewrite Q; discriminate).
  clear Q e0 xs0.
  pose proof (encoded_lines_quoted xs F) as SL.
  assert (Len : 2 <= List.length (splitLines (generateCSVString xs))).
  { rewrite SL. simpl. rewrite length_map. destruct xs; [congruence|].
    simpl. lia. }
  assert (Hdr : anyMissing (headerOf (splitLines (generateCSVString xs)))
                = false) by (now rewrite SL).
  destruct (import_valid _ Len Hdr) as [E R]. rewrite E, R, SL.
  change (headerOf (csvHeader :: map csvRow xs)) with headerCols.
  replace (List.length (csvHeader :: map csvRow xs) - 1)
    with (List.length (map csvRow xs)) by (simpl; lia).
  split.
  - transitivity (flat_map (lineExpenses headerCols) (map csvRow xs)).
    + exact (flat_map_rows (lineExpenses headerCols) (map csvRow xs)
               [csvHeader]).
    + exact (quoted_rows_accepted xs F).
  - intros _. apply flat_map_none. intros i Hi. apply in_seq in Hi.
    unfold rowErrors. destruct i as [|i]; [lia|]. simpl nth.
    assert (Hin : In (nth i (map csvRow xs) []) (map csvRow xs))
      by (apply nth_In; lia).
    apply in_map_iff in Hin as (e & <- & He).
    rewrite Forall_forall in F.
    now rewrite (quoted_decodeLine e (F e He)).
Qed.

Lemma decoded_id (e : Expense) :
  includes QUOTE e.(description) = false -> decoded e = e.
Proof.
  intros NQ. unfold decoded, withDescription.
  rewrite (removeQuotes_id _ NQ). now destruct e.
Qed.

Lemma roundTrips_encodable (e : Expense) :
  roundTrips e -> encodable e /\ decoded e = e.
Proof.
  intros (I & Ne & D & Nan & Num & C & Nc & Ds & T).
  unfold descriptionOk in Ds.
  rewrite !andb_true_iff, !negb_true_iff in Ds. destruct Ds as [[NQ NL] Ce].
  split; [|now apply decoded_id].
  unfold encodable. rewrite (removeQuotes_id _ NQ). tauto.
Qed.

(** X23: a collection whose records are plain but for double quotes in
    their descriptions is decoded from its own encoding record for record
    and without any problem, each description having lost its double
    quotes and nothing else; a record whose description has none comes
    back as it is. *)
Theorem quotes_deleted_on_round_trip (xs : list Expense) :
  Forall encodable xs ->
  let r := importExpenses (generateCSVString xs) in
  r.(expenses)
  = map (fun e => withDescription e (removeQuotes e.(description))) xs
  /\ (xs <> [] -> r.(errors) = [])
  /\ Forall (fun e => includes QUOTE e.(description) = false
                      -> withDescription e (removeQuotes e.(description)) = e)
            xs.
Proof.
  intros F. cbv zeta. destruct (decode_encodable xs F) as [E R].
  split; [exact E|]. split; [exact R|].
  apply Forall_forall. intros e _ NQ. exact (decoded_id e NQ).
Qed.

End QuoteFacts.

(** ** Exporting, then importing into the same collection *)

Module ComposeFacts.
Import JsString JsNumber Model Csv Logic Props.
Import JsStringFacts LogicFacts ListFacts MergeFacts ParseFacts QuoteFacts.

Lemma decode_own_export (xs : list Expense) :
  Forall roundTrips xs ->
  (importExpenses (generateCSVString xs)).(expenses) = xs.
Proof.
  intros F.
  assert (FE : Forall encodable xs).
  { revert F. apply Forall_impl. intros e RT.
    now apply roundTrips_encodable. }
  destruct (decode_encodable xs FE) as [E _]. rewrite E.
  rewrite <- (map_id xs) at 2. apply map_ext_in. intros e He.
  rewrite Forall_forall in F. now apply roundTrips_encodable, F.
Qed.

(** X24: importing the export of a collection into that very collection
    changes nothing: for plain records with distinct ids the merge gives
    the collection back, counts every record as updated and none as added,
    and [parseCSV] finds no new record in the export. *)
Theorem reimport_own_export (xs : list Expense) :
  Forall roundTrips xs -> NoDup (map id xs) ->
  let text := generateCSVString xs in
  mergeExpenses xs (importExpenses text).(expenses)
  = {| merged := xs;
       stats := {| added := 0; updated := List.length xs; skipped := 0 |} |}
  /\ (parseCSV text xs).(newExpenses) = []
  /\ (parseCSV text xs).(count) = 0.
Proof.
  intros F ND. cbv zeta.
  pose proof (decode_own_export xs F) as D.
  split; [rewrite D; exact (merge_self xs ND)|].
  assert (N : newExpenses (parseCSV (generateCSVString xs) xs) = []).
  { rewrite parse_new, D. apply filter_none. intros e He.
    apply negb_false_iff. unfold hasId. apply existsb_exists.
    exists e. split; [exact He | apply str_eqb_refl]. }
  split; [exact N|].
  change (count (parseCSV (generateCSVString xs) xs))
    with (List.length (newExpenses (parseCSV (generateCSVString xs) xs))).
  now rewrite N.
Qed.

End ComposeFacts.

(** ** The category breakdown *)

Module ChartFacts.
Import JsString JsNumber Model Charts Props JsStringFacts.

Lemma get_set (k k' : jsstring) (v : number) (m : TotalsMap) :
  get k (set k' v m) = if str_eqb k' k then Some v else get k m.
Proof.
  induction m as [|[k0 v0] m IH]; simpl; [reflexivity|].
  destruct (str_eqb k0 k') eqn:Q; simpl.
  - rewrite (str_eqb_trans_l _ _ k Q).
    now destruct (str_eqb k' k).
  - rewrite IH. destruct (str_eqb k0 k) eqn:Q0; [|reflexivity].
    destruct (str_eqb k' k) eqn:Q1; [|reflexivity].
    apply str_eqb_eq in Q0, Q1. apply str_eqb_neq in Q. congruence.
Qed.

Lemma names_set (k : jsstring) (v : number) (m : TotalsMap) :
  map fst (set k v m)
  = if existsb (fun k' => str_eqb k' k) (map fst m) then map fst m
    else map fst m ++ [k].
Proof.
  induction m as [|[k0 v0] m IH]; simpl; [reflexivity|].
  destruct (str_eqb k0 k); simpl; [reflexivity|].
  rewrite IH. now destruct (existsb _ (map fst m)).
Qed.

Lemma names_set_nodup (k : jsstring) (v : number) (m : TotalsMap) :
  NoDup (map fst m) -> NoDup (map fst (set k v m)).
Proof.
  intros ND. rewrite names_set.
  destruct (existsb _ (map fst m)) eqn:H; [exact ND|].
  apply NoDup_app; [exact ND | repeat constructor; simpl; tauto|].
  intros x Hx [E | []]. subst x.
  assert (T : existsb (fun k' => str_eqb k' k) (map fst m) = true).
  { apply existsb_exists. exists k. split; [exact Hx | apply str_eqb_refl]. }
  congruence.
Qed.

Lemma get_In (k : jsstring) (v : number) (m : TotalsMap) :
  NoDup (map fst m) -> In (k, v) m -> get k m = Some v.
Proof.
  induction m as [|[k0 v0] m IH]; simpl; [tauto|].
  intros ND [E | Hin]; inversion ND as [|? ? Hnot ND']; subst.
  - injection E as -> ->. now rewrite str_eqb_refl.
  - destruct (str_eqb k0 k) eqn:Q; [|now apply IH].
    apply str_eqb_eq in Q. subst k0. exfalso. apply Hnot.
    apply in_map_iff. now exists (k, v).
Qed.

Lemma totals_get (k : jsstring) (xs : list Expense) : forall m,
  get k (fold_left addUnder xs m)
  = fold_left (fun acc a => Some (add (orZero acc) a))
              (map amount (filter (fun e => str_eqb e.(category) k) xs))
              (get k m).
Proof.
  induction xs as [|x xs IH]; intros m; [reflexivity|].
  cbn [fold_left filter]. rewrite IH. unfold addUnder. rewrite get_set.
  destruct (str_eqb (category x) k) eqn:Q; [|reflexivity].
  apply str_eqb_eq in Q. subst k. reflexivity.
Qed.

Lemma totals_names (xs : list Expense) : forall m,
  map fst (fold_left addUnder xs m)
  = fold_left (fun acc k => if existsb (fun k' => str_eqb k' k) acc then acc
                            else acc ++ [k])
              (map category xs) (map fst m).
Proof.
  induction xs as [|x xs IH]; intros m; [reflexivity|].
  cbn [fold_left map]. rewrite IH. unfold addUnder. now rewrite names_set.
Qed.

Lemma totals_nodup (xs : list Expense) : forall m,
  NoDup (map fst m) -> NoDup (map fst (fold_left addUnder xs m)).
Proof.
  induction xs as [|x xs IH]; intros m ND; [exact ND|].
  simpl. apply IH. unfold addUnder. now apply names_set_nodup.
Qed.

(** X25: the category breakdown has one slice per category of the
    records, in the order in which the categories are first seen and none
    twice; the value of a slice is the running sum of the amounts of its
    category, taken in the order of the records; and a slice is coloured
    after a category of its name, or grey. *)
Theorem category_breakdown (expenses : list Expense)
        (categories : list ExpenseCategory) :
  let slices := categoryData expenses categories in
  map sliceName slices = firstSeen (map category expenses)
  /\ NoDup (map sliceName slices)
  /\ Forall (fun s =>
               Some s.(sliceValue)
               = runningTotal
                   (map amount
                      (filter (fun e => str_eqb e.(category) s.(sliceName))
                              expenses)))
            slices
  /\ Forall (fun s =>
               s.(sliceColor) = defaultColor
               \/ exists c, In c categories /\ c.(name) = s.(sliceName)
                            /\ s.(sliceColor) = c.(color))
            slices.
Proof.
  cbv zeta. unfold categoryData.
  change (categoryTotals expenses) with (fold_left addUnder expenses []).
  pose proof (totals_nodup expenses [] (NoDup_nil _)) as ND.
  rewrite map_map. cbn [sliceName].
  split; [exact (totals_names expenses [])|]. split; [exact ND|]. split.
  - apply Forall_forall. intros s Hin.
    apply in_map_iff in Hin as ([k v] & <- & Hkv). cbn [sliceValue sliceName fst snd].
    rewrite <- (get_In k v _ ND Hkv). exact (totals_get k expenses []).
  - apply Forall_forall. intros s Hin.
    apply in_map_iff in Hin as ([k v] & <- & _). cbn [sliceColor sliceName fst].
    destruct (find (fun c => str_eqb (name c) k) categories) as [c|] eqn:F;
      [|now left].
    right. exists c. apply find_some in F as [Hc E].
    apply str_eqb_eq in E. auto.
Qed.

End ChartFacts.

(** ** The further properties on concrete inputs *)

Module MoreCases.
Import JsString JsNumber Model Csv Logic Props.
Import MergeFacts StatsFacts DecodeFacts ParseFacts QuoteFacts ComposeFacts.

Ltac evaluate := vm_compute; repeat split; try reflexivity; try discriminate.

Lemma sample_ids_distinct : NoDup (map id sampleExpenses).
Proof.
  repeat constructor; simpl; intros H;
    repeat (destruct H as [H | H]; [discriminate H|]); exact H.
Defined.

(** Merging an update of the second record of the test suite edits it. *)
Lemma merge_one_is_edit_witness :
  mergeExpenses sampleExpenses [gasAgain]
  = {| merged := editExpenseInList sampleExpenses gasAgain;
       stats := {| added := 0; updated := 1; skipped := 0 |} |}.
Proof.
  exact (merge_one_is_edit sampleExpenses gasAgain sample_ids_distinct).
Defined.

Lemma merge_idempotent_witness :
  mergeExpenses sampleExpenses sampleExpenses
  = {| merged := sampleExpenses;
       stats := {| added := 0; updated := 3; skipped := 0 |} |}
  /\ mergeExpenses sampleExpenses []
     = {| merged := sampleExpenses;
          stats := {| added := 0; updated := 0; skipped := 0 |} |}.
Proof. exact (merge_idempotent sampleExpenses sample_ids_distinct). Defined.

(** A limit of -5: no near-limit warning, percentage 0. *)
Lemma no_warning_without_limit_witness :
  (calculateDailyStats sampleExpenses (lit "2023-10-25") (ofZ (-5))).(isNearLimit)
  = false
  /\ (calculateDailyStats sampleExpenses (lit "2023-10-25") (ofZ (-5))).(limitPercentage)
     = zero.
Proof.
  apply (no_warning_without_limit sampleExpenses (lit "2023-10-25")
           (ofZ (-5))).
  vm_compute. reflexivity.
Defined.

(** The test suite has no record dated 2023-10-26. *)
Lemma nothing_spent_witness :
  calculateDailyStats sampleExpenses (lit "2023-10-26") (ofZ 100)
  = {| todaySpend := zero; isOverLimit := ltb (ofZ 100) zero;
       isNearLimit := false; limitPercentage := zero |}.
Proof.
  apply (nothing_spent sampleExpenses (lit "2023-10-26") (ofZ 100)).
  vm_compute. reflexivity.
Defined.

(** A row with three faults is rejected for the first of them. *)
Lemma validation_order_witness :
  decodeLine headerCols emptyIdRow = Rejected (lit "Missing ID")
  /\ decodeLine headerCols emptyIdRow <> Rejected undefinedTrim.
Proof.
  destruct (validation_order headerCols emptyIdRow) as [T N].
  - vm_compute. reflexivity.
  - split; [|exact N]. rewrite T. vm_compute. reflexivity.
Defined.

Lemma error_taxonomy_witness :
  Forall (fun m => exists n reason,
              2 <= n <= List.length (splitLines mixedInput)
              /\ In reason rowReasons
              /\ m = lit "Line " ++ ofNat n ++ lit ": " ++ reason)
         (importExpenses mixedInput).(errors).
Proof.
  apply (error_taxonomy mixedInput).
  - vm_compute. lia.
  - vm_compute. reflexivity.
Defined.

Lemma decoded_record_valid_witness :
  paddedExpense.(id) <> [] /\ matchesDate paddedExpense.(date) = true
  /\ paddedExpense.(category) <> []
  /\ includes QUOTE paddedExpense.(id) = false
  /\ includes QUOTE paddedExpense.(category) = false
  /\ Forall (fun t => includes SEMI t = false /\ includes QUOTE t = false)
            paddedExpense.(tags).
Proof.
  apply (decoded_record_valid paddedInput paddedExpense).
  vm_compute. left. reflexivity.
Defined.

(** Two lines after the header: one record and one problem. *)
Lemma every_line_accounted_witness :
  List.length (importExpenses mixedInput).(expenses)
  + List.length (importExpenses mixedInput).(errors)
  = List.length (dataLines (splitLines mixedInput)).
Proof.
  apply (every_line_accounted mixedInput).
  - vm_compute. lia.
  - vm_compute. reflexivity.
Defined.

Lemma crlf_like_lf_witness :
  splitLines (join [CR; LF] mixedLines) = mixedLines
  /\ importExpenses (join [CR; LF] mixedLines)
     = importExpenses (join [LF] mixedLines).
Proof.
  destruct (crlf_like_lf mixedLines) as [S E].
  - vm_compute. reflexivity.
  - split; [apply S; discriminate | exact E].
Defined.

Lemma extra_fields_ignored_witness :
  parseRow headerCols (sixFields ++ [lit "more"; lit "and more"])
  = parseRow headerCols sixFields.
Proof.
  apply (extra_fields_ignored headerCols sixFields).
  vm_compute. lia.
Defined.

Lemma encoding_accepted_witness :
  fileLevelFailure (importExpenses (generateCSVString [])).
Proof.
  destruct (encoding_accepted []) as [[_ Back] _]. apply Back. reflexivity.
Defined.

(** The good row of [mixedInput] is new to the records of the test suite. *)
Lemma filtered_import_appends_witness :
  mergeExpenses sampleExpenses (parseCSV mixedInput sampleExpenses).(newExpenses)
  = {| merged := sampleExpenses
                   ++ (parseCSV mixedInput sampleExpenses).(newExpenses);
       stats := {| added := (parseCSV mixedInput sampleExpenses).(count);
                   updated := 0; skipped := 0 |} |}.
Proof.
  apply (filtered_import_appends mixedInput sampleExpenses).
  - exact sample_ids_distinct.
  - vm_compute. repeat constructor. simpl. tauto.
Defined.

Lemma quoted_encodable : Forall encodable [quoted].
Proof. repeat constructor; evaluate. Defined.

(** The description [a], quote, [b] comes back as [ab]. *)
Lemma quotes_deleted_on_round_trip_witness :
  (importExpenses (generateCSVString [quoted])).(expenses)
  = [withDescription quoted (lit "ab")]
  /\ (importExpenses (generateCSVString [quoted])).(errors) = [].
Proof.
  destruct (quotes_deleted_on_round_trip [quoted] quoted_encodable)
    as (E & R & _).
  split; [exact E | apply R; discriminate].
Defined.

Lemma sample_plain : Forall roundTrips sampleExpenses.
Proof. repeat constructor; evaluate. Defined.

Lemma reimport_own_export_witness :
  mergeExpenses sampleExpenses
    (importExpenses (generateCSVString sampleExpenses)).(expenses)
  = {| merged := sampleExpenses;
       stats := {| added := 0; updated := 3; skipped := 0 |} |}
  /\ (parseCSV (generateCSVString sampleExpenses) sampleExpenses).(newExpenses)
     = []
  /\ (parseCSV (generateCSVString sampleExpenses) sampleExpenses).(count) = 0.
Proof.
  exact (reimport_own_export sampleExpenses sample_plain sample_ids_distinct).
Defined.

End MoreCases.

(** ** The form *)

Module FormFacts.
Import JsString JsNumber Model Logic Form Props.
Import JsStringFacts TextFacts LogicFacts ListFacts.

Lemma formTagOk_parts (t : jsstring) :
  formTagOk t = true ->
  includes COMMA t = false /\ t <> [] /\ edgeClean t = true.
Proof.
  unfold formTagOk. rewrite !andb_true_iff, !negb_true_iff.
  intros [[C E] G]. repeat split; try assumption. intros ->. discriminate.
Qed.

Lemma trim_after_space (t : jsstring) :
  edgeClean t = true -> t <> [] -> trim (32%N :: t) = t.
Proof.
  intros C Ne. unfold trim. change (trimStart (32%N :: t)) with (trimStart t).
  apply trim_id in C. exact C.
Qed.

(** The tags of the form's text: the first as it is, the others after the
    space that follows each comma. *)
Lemma split_form_tags (ts : list jsstring) : forall t,
  forallb formTagOk (t :: ts) = true ->
  split COMMA (join (lit ", ") (t :: ts)) = t :: map (cons 32%N) ts.
Proof.
  induction ts as [|t2 ts IH]; intros t H.
  - simpl in *. rewrite andb_true_r in H.
    apply formTagOk_parts in H as (C & _). now apply split_none.
  - change (join (lit ", ") (t :: t2 :: ts))
      with (t ++ COMMA :: 32%N :: join (lit ", ") (t2 :: ts)).
    apply andb_true_iff in H as [Ht H].
    apply formTagOk_parts in Ht as (C & _).
    rewrite (split_app _ _ _ C). f_equal.
    specialize (IH t2 H).
    assert (Ne : split COMMA (join (lit ", ") (t2 :: ts)) <> [])
      by (rewrite IH; discriminate).
    cbn [split]. change (char_eqb 32%N COMMA) with false. cbn iota.
    rewrite IH. reflexivity.
Qed.

Lemma form_tags_back (ts : list jsstring) :
  forallb formTagOk ts = true ->
  filter (fun t => match t with [] => false | _ => true end)
         (map trim (split COMMA (join (lit ", ") ts)))
  = ts.
Proof.
  destruct ts as [|t ts]; [reflexivity|]. intros H.
  rewrite (split_form_tags ts t H).
  simpl in H. apply andb_true_iff in H as [Ht H].
  apply formTagOk_parts in Ht as (_ & Ne & C).
  cbn [map filter]. rewrite (trim_id _ C).
  destruct t as [|c t]; [congruence|]. f_equal.
  induction ts as [|u ts IH]; [reflexivity|].
  simpl in H. apply andb_true_iff in H as [Hu H].
  apply formTagOk_parts in Hu as (_ & Nu & Cu).
  cbn [map filter]. rewrite (trim_after_space _ Cu Nu).
  destruct u as [|d u]; [congruence|]. f_equal. now apply IH.
Qed.

(** X26: a record loaded into the form and submitted as it is comes back
    field for field under its own id, when its amount reads back from its
    own text and its tags are not empty and hold no comma and no white
    space at their ends. *)
Theorem form_round_trip (e : Expense) :
  parseFloat (toString e.(amount)) = e.(amount) ->
  forallb formTagOk e.(tags) = true ->
  let d := handleSubmit (Some e) (loadForm e) in
  d.(dataId) = Some e.(id) /\ withId e.(id) d = e.
Proof.
  intros Num T. cbv zeta. split; [reflexivity|].
  unfold withId, handleSubmit, loadForm.
  cbn [dataAmount dataDate dataCategory dataDescription dataTags
       fAmount fDate fCategory fDescription fTags].
  rewrite Num, (form_tags_back _ T). now destruct e.
Qed.

Lemma edit_same (xs : list Expense) (e : Expense) :
  NoDup (map id xs) -> In e xs -> editExpenseInList xs e = xs.
Proof.
  unfold editExpenseInList. induction xs as [|x xs IH]; [reflexivity|].
  intros ND Hin. inversion ND as [|? ? Hnot ND']; subst. simpl.
  destruct Hin as [-> | Hin].
  - rewrite str_eqb_refl. f_equal.
    rewrite <- (map_id xs) at 2. apply map_ext_in. intros y Hy.
    destruct (str_eqb (id y) (id e)) eqn:Q; [|reflexivity].
    apply str_eqb_eq in Q. exfalso. apply Hnot. rewrite <- Q.
    now apply in_map.
  - rewrite (IH ND' Hin).
    destruct (str_eqb (id x) (id e)) eqn:Q; [|reflexivity].
    apply str_eqb_eq in Q. exfalso. apply Hnot. rewrite Q.
    now apply in_map.
Qed.

(** X27: saving a record of the collection that went through the form
    unchanged leaves the collection as it was, when the ids of the
    collection are distinct, the id of the record is not empty and the
    record is one the form gives back. *)
Theorem save_unchanged (xs : list Expense) (e : Expense) (uuid : jsstring) :
  NoDup (map id xs) -> In e xs -> e.(id) <> [] ->
  parseFloat (toString e.(amount)) = e.(amount) ->
  forallb formTagOk e.(tags) = true ->
  handleSaveExpense xs (handleSubmit (Some e) (loadForm e)) uuid = xs.
Proof.
  intros ND Hin Ne Num T.
  destruct (id e) as [|c i] eqn:I; [congruence|].
  assert (W : withId (c :: i) (handleSubmit (Some e) (loadForm e)) = e).
  { rewrite <- I.
    unfold withId, handleSubmit, loadForm.
    cbn [dataAmount dataDate dataCategory dataDescription dataTags
         fAmount fDate fCategory fDescription fTags].
    rewrite Num, (form_tags_back _ T). now destruct e. }
  unfold handleSaveExpense.
  change (dataId (handleSubmit (Some e) (loadForm e))) with (Some (id e)).
  rewrite I, W. exact (edit_same xs e ND Hin).
Qed.

End FormFacts.

(** ** The order of the columns *)

Module HeaderFacts.
Import JsString JsNumber Model Csv Props JsStringFacts TextFacts.

Lemma indexOfFrom_range (k : jsstring) (hs : list jsstring) : forall i,
  indexOfFrom i k hs = (-1)%Z \/ (i <= indexOfFrom i k hs)%Z.
Proof.
  induction hs as [|h hs IH]; intros i; simpl; [now left|].
  destruct (str_eqb h k); [right; lia|].
  destruct (IH (i + 1)%Z) as [E | L]; [now left | right; lia].
Qed.

(** Looking a name up in the header and reading the field at its position
    is reading the first field that stands under that name. *)
Lemma lookup_assoc (k : jsstring) (hs : list jsstring) : forall ps i,
  (0 <= i)%Z -> List.length hs <= List.length ps ->
  (if (indexOfFrom i k hs <? 0)%Z then None
   else nth_error ps (Z.to_nat (indexOfFrom i k hs - i)))
  = assoc k (combine hs ps).
Proof.
  induction hs as [|h hs IH]; intros ps i Hi Len; [reflexivity|].
  destruct ps as [|p ps]; [simpl in Len; lia|].
  simpl in Len. simpl. destruct (str_eqb h k).
  - destruct (i <? 0)%Z eqn:L; [lia|]. now rewrite Z.sub_diag.
  - rewrite <- (IH ps (i + 1)%Z) by lia.
    destruct (indexOfFrom_range k hs (i + 1)%Z) as [E | R].
    + rewrite E. reflexivity.
    + destruct (indexOfFrom (i + 1) k hs <? 0)%Z eqn:L; [reflexivity|].
      replace (Z.to_nat (indexOfFrom (i + 1) k hs - i))
        with (S (Z.to_nat (indexOfFrom (i + 1) k hs - (i + 1)))) by lia.
      reflexivity.
Qed.

Lemma at_index_assoc (headers ps : list jsstring) (col : string) :
  List.length headers <= List.length ps ->
  at_index ps (idx headers col) = assoc (lit col) (combine headers ps).
Proof.
  intros Len. unfold at_index, idx, indexOf.
  rewrite <- (lookup_assoc (lit col) headers ps 0%Z) by (lia || exact Len).
  now rewrite Z.sub_0_r.
Qed.

Lemma assoc_In (k v : jsstring) (l : list (jsstring * jsstring)) :
  NoDup (map fst l) -> (assoc k l = Some v <-> In (k, v) l).
Proof.
  induction l as [|[k0 v0] l IH]; simpl; [intros _; split; [discriminate | tauto]|].
  intros ND. inversion ND as [|? ? Hnot ND']; subst.
  destruct (str_eqb k0 k) eqn:Q.
  - apply str_eqb_eq in Q. subst k0. split.
    + intros E. injection E as ->. now left.
    + intros [E | Hin]; [now injection E as -> |].
      exfalso. apply Hnot. apply in_map_iff. now exists (k, v).
  - apply str_eqb_neq in Q. rewrite (IH ND'). split; [tauto|].
    intros [E | Hin]; [|exact Hin]. injection E as E _. congruence.
Qed.

Lemma assoc_None (k : jsstring) (l : list (jsstring * jsstring)) :
  assoc k l = None <-> ~ In k (map fst l).
Proof.
  induction l as [|[k0 v0] l IH]; simpl; [tauto|].
  destruct (str_eqb k0 k) eqn:Q.
  - apply str_eqb_eq in Q. split; [discriminate | tauto].
  - apply str_eqb_neq in Q. rewrite IH. tauto.
Qed.

(** Under distinct names, what stands under a name does not depend on the
    order of the pairs. *)
Lemma assoc_perm (k : jsstring) (l l' : list (jsstring * jsstring)) :
  NoDup (map fst l) -> Permutation l l' -> assoc k l' = assoc k l.
Proof.
  intros ND P.
  assert (ND' : NoDup (map fst l'))
    by (eapply Permutation_NoDup; [apply Permutation_map, P | exact ND]).
  destruct (assoc k l) as [v|] eqn:A.
  - apply (assoc_In _ _ _ ND) in A. apply (assoc_In _ _ _ ND').
    eapply Permutation_in; eassumption.
  - apply assoc_None in A. apply assoc_None. intros Hin. apply A.
    eapply Permutation_in; [apply Permutation_sym, Permutation_map, P|].
    exact Hin.
Qed.

Lemma combine_names (hs ps : list jsstring) :
  List.length hs <= List.length ps -> map fst (combine hs ps) = hs.
Proof.
  revert ps. induction hs as [|h hs IH]; intros ps Len; [reflexivity|].
  destruct ps as [|p ps]; simpl in Len; [lia|].
  simpl. rewrite IH by lia. reflexivity.
Qed.

(** X28: the order of the columns does not matter to a row: when the
    names of the header are distinct, a row whose fields stand under the
    same names in another order has the same field under every name, and
    the body of the try block gives the same record or the same error. *)
Theorem column_order_irrelevant (headers ps headers' ps' : list jsstring) :
  NoDup headers ->
  List.length headers <= List.length ps ->
  List.length headers' <= List.length ps' ->
  Permutation (combine headers ps) (combine headers' ps') ->
  (forall col, at_index ps' (idx headers' col) = at_index ps (idx headers col))
  /\ parseRow headers' ps' = parseRow headers ps.
Proof.
  intros ND Len Len' P.
  assert (F : forall col,
             at_index ps' (idx headers' col) = at_index ps (idx headers col)).
  { intros col.
    rewrite (at_index_assoc _ _ _ Len), (at_index_assoc _ _ _ Len').
    apply assoc_perm; [|exact P]. now rewrite combine_names. }
  split; [exact F|]. unfold parseRow, trimAt, trimAtOrEmpty.
  now rewrite !F.
Qed.

End HeaderFacts.

(** ** The form and the column order on the records of the test suite *)

Module FormCases.
Import JsString JsNumber Model Csv Logic Form Props.
Import FormFacts HeaderFacts.

(** The first record of the test suite comes back from the form as it
    went in. *)
Lemma form_round_trip_witness :
  let e := mkExpense "1" "2023-10-25" 50 "Food" "Groceries" ["home"%string] in
  let d := handleSubmit (Some e) (loadForm e) in
  d.(dataId) = Some e.(id) /\ withId e.(id) d = e.
Proof.
  apply (form_round_trip
           (mkExpense "1" "2023-10-25" 50 "Food" "Groceries" ["home"%string]));
    vm_compute; reflexivity.
Defined.

(** Saving the third record of the test suite unchanged leaves the three
    records as they are. *)
Lemma save_unchanged_witness :
  let e := mkExpense "3" "2023-10-24" 100 "Housing" "Rent" ["bill"%string] in
  handleSaveExpense sampleExpenses (handleSubmit (Some e) (loadForm e))
    (lit "fresh") = sampleExpenses.
Proof.
  apply (save_unchanged sampleExpenses
           (mkExpense "3" "2023-10-24" 100 "Housing" "Rent" ["bill"%string])
           (lit "fresh")).
  - exact MoreCases.sample_ids_distinct.
  - right. right. left. reflexivity.
  - discriminate.
  - vm_compute. reflexivity.
  - vm_compute. reflexivity.
Defined.

(** The six fields of a row under the header read backwards. *)
Lemma column_order_irrelevant_witness :
  (forall col, at_index (rev sixFields) (idx (rev headerCols) col)
               = at_index sixFields (idx headerCols col))
  /\ parseRow (rev headerCols) (rev sixFields)
     = parseRow headerCols sixFields.
Proof.
  apply (column_order_irrelevant headerCols sixFields
           (rev headerCols) (rev sixFields)).
  - repeat constructor; simpl; intros H;
      repeat (destruct H as [H | H]; [discriminate H|]); exact H.
  - vm_compute. lia.
  - vm_compute. lia.
  - change (combine (rev headerCols) (rev sixFields))
      with (rev (combine headerCols sixFields)).
    apply Permutation_rev.
Defined.

End FormCases.
